(** * ESP32 MVC/FreeRTOS menu system: model, controller FSM, debouncing, start-up

    A shallow embedding of the state-bearing core of the firmware:
    - [Model]            (Model.h, Model.cpp): the shared application state and
                         its mutex-guarded accessors and mutators;
    - [Controller]       (Controller.h, Controller.cpp): button debouncing and the
                         menu finite-state machine;
    - [Synchronization]  (Synchronization.h, Synchronization.cpp): the event
                         group used for the readiness handshake;
    - [Main]             (main.cpp): the start-up sequence;
    - [TaskManager]      (TaskManager.h, TaskManager.cpp): the task list;
    - [View], [OLEDView], [SimpleLCD] (View.cpp, OLEDView.cpp, SimpleLCD.h,
                         LCDView.cpp): the loop of a view and what it draws.

    C++ [int] is a 32-bit two's-complement integer and [unsigned long] a 32-bit
    unsigned integer on the ESP32; both are carried by [Z] with the wrap-around
    written out.  Code that runs under a FreeRTOS mutex is sequential code that
    first asks the scheduler for the mutex; whether the mutex is granted within
    the timeout is decided by the other tasks, so it is an input of the model
    (an oracle consulted at every [xSemaphoreTake]). *)

From Stdlib Require Import ZArith Bool String Lia Sorted.
From stdpp Require Import base list.

Local Open Scope string_scope.
Local Open Scope Z_scope.

(** ** Machine arithmetic *)

Module CInt.

(** Two's-complement wrap-around of a 32-bit [int]. *)
Definition wrap (z : Z) : Z := (z + 2 ^ 31) mod 2 ^ 32 - 2 ^ 31.

Definition add (a b : Z) : Z := wrap (a + b).
Definition sub (a b : Z) : Z := wrap (a - b).

(** C++ [%] truncates towards zero: the sign follows the dividend. *)
Definition rem (a b : Z) : Z := Z.rem a b.

(** Wrap-around of a 32-bit [unsigned long]. *)
Definition uwrap (z : Z) : Z := z mod 2 ^ 32.

Definition usub (a b : Z) : Z := uwrap (a - b).

End CInt.

(** ** Model.h: enumerations *)

Inductive SystemState : Set :=
| STATE_MENU
| STATE_SETTINGS
| STATE_ABOUT
| STATE_CONFIRM_EXIT.

Inductive SystemEvent : Set :=
| EVENT_UP
| EVENT_DOWN
| EVENT_LEFT
| EVENT_RIGHT
| EVENT_SELECT1
| EVENT_SELECT2
| EVENT_TIMEOUT
| EVENT_NONE.

Definition SystemState_eqb (a b : SystemState) : bool :=
  match a, b with
  | STATE_MENU, STATE_MENU
  | STATE_SETTINGS, STATE_SETTINGS
  | STATE_ABOUT, STATE_ABOUT
  | STATE_CONFIRM_EXIT, STATE_CONFIRM_EXIT => true
  | _, _ => false
  end.

Definition SystemEvent_eqb (a b : SystemEvent) : bool :=
  match a, b with
  | EVENT_UP, EVENT_UP
  | EVENT_DOWN, EVENT_DOWN
  | EVENT_LEFT, EVENT_LEFT
  | EVENT_RIGHT, EVENT_RIGHT
  | EVENT_SELECT1, EVENT_SELECT1
  | EVENT_SELECT2, EVENT_SELECT2
  | EVENT_TIMEOUT, EVENT_TIMEOUT
  | EVENT_NONE, EVENT_NONE => true
  | _, _ => false
  end.

(** RTClib's [DateTime], as the fields the firmware prints. *)
Record DateTime : Set := mkDateTime {
  dt_year : Z; dt_month : Z; dt_day : Z;
  dt_hour : Z; dt_minute : Z; dt_second : Z
}.

(** What is written to the serial console.  Formatted values are kept as the
    value that is formatted. *)
Inductive SerialOut : Set :=
| Print (s : string)
| Println (s : string)
| PrintlnState (st : SystemState)
| PrintlnTime (now : DateTime).

(** ** The shared state and its environment *)

Module Model.

(** The data members of [class Model] that the menu logic uses. *)
Record t : Set := mk {
  m_menuIndex : Z;
  m_currentState : SystemState;
  m_stateChanged : bool;
  m_currentTime : DateTime
}.

Definition m_menuItems : list string := ["Home"; "Settings"; "About"; "Exit"].

(** [sizeof(m_menuItems) / sizeof(m_menuItems[0])] *)
Definition m_menuLength : Z := Z.of_nat (length m_menuItems).

(** [Model::Model()]: the member initialisers ([m_currentTime] is
    default-constructed by RTClib). *)
Definition init : t :=
  {| m_menuIndex := 0;
     m_currentState := STATE_MENU;
     m_stateChanged := false;
     m_currentTime := mkDateTime 2000 1 1 0 0 0 |}.

Definition with_menuIndex (i : Z) (m : t) : t :=
  {| m_menuIndex := i; m_currentState := m_currentState m;
     m_stateChanged := m_stateChanged m; m_currentTime := m_currentTime m |}.

Definition with_currentState (s : SystemState) (m : t) : t :=
  {| m_menuIndex := m_menuIndex m; m_currentState := s;
     m_stateChanged := m_stateChanged m; m_currentTime := m_currentTime m |}.

Definition with_stateChanged (b : bool) (m : t) : t :=
  {| m_menuIndex := m_menuIndex m; m_currentState := m_currentState m;
     m_stateChanged := b; m_currentTime := m_currentTime m |}.

Definition with_currentTime (d : DateTime) (m : t) : t :=
  {| m_menuIndex := m_menuIndex m; m_currentState := m_currentState m;
     m_stateChanged := m_stateChanged m; m_currentTime := d |}.

End Model.

(** The world one task runs in: the model singleton, the serial console, the
    RTC chip, and the scheduler's answers to [xSemaphoreTake(m_stateMutex, _)]:
    [sem_grants k] tells whether the [k]-th request made so far is granted
    before its timeout expires. *)
Record World : Type := mkWorld {
  model : Model.t;
  serial : list SerialOut;
  rtc : DateTime;
  sem_grants : nat -> bool;
  sem_calls : nat
}.

(** A small state monad over [World]. *)
Definition M (A : Type) : Type := World -> A * World.

Definition ret {A} (a : A) : M A := fun w => (a, w).

Definition bind {A B} (c : M A) (k : A -> M B) : M B :=
  fun w => let r := c w in k (fst r) (snd r).

Notation "x <- c ;; k" := (bind c (fun x => k))
  (at level 100, c at next level, right associativity).
Notation "c ;;; k" := (bind c (fun _ => k))
  (at level 100, right associativity).

Definition exec {A} (c : M A) (w : World) : World := snd (c w).
Definition eval {A} (c : M A) (w : World) : A := fst (c w).

Definition get_model : M Model.t := fun w => (model w, w).

Definition modify_model (f : Model.t -> Model.t) : M unit := fun w =>
  (tt, {| model := f (model w); serial := serial w; rtc := rtc w;
          sem_grants := sem_grants w; sem_calls := sem_calls w |}).

Definition Serial_out (o : SerialOut) : M unit := fun w =>
  (tt, {| model := model w; serial := serial w ++ [o]; rtc := rtc w;
          sem_grants := sem_grants w; sem_calls := sem_calls w |}).

(** [rtc.now()] *)
Definition rtc_now : M DateTime := fun w => (rtc w, w).

(** [xSemaphoreTake(m_stateMutex, timeout)]: the answer is the scheduler's. *)
Definition xSemaphoreTake_state : M bool := fun w =>
  (sem_grants w (sem_calls w),
   {| model := model w; serial := serial w; rtc := rtc w;
      sem_grants := sem_grants w; sem_calls := S (sem_calls w) |}).

(** [xSemaphoreGive(m_stateMutex)]: nothing observable for the giving task. *)
Definition xSemaphoreGive_state : M unit := ret tt.

(** Model.cpp: the accessors and mutators, statement by statement. *)
Module ModelOps.
Import Model.

Definition getMenuIndex : M Z :=
  taken <- xSemaphoreTake_state ;;
  if taken : bool then
    m <- get_model ;;
    xSemaphoreGive_state ;;;
    ret (m_menuIndex m)
  else ret 0.

Definition setMenuIndex (index : Z) : M unit :=
  taken <- xSemaphoreTake_state ;;
  if taken : bool then
    (if (0 <=? index) && (index <? m_menuLength) then
       modify_model (with_menuIndex index) ;;;
       modify_model (with_stateChanged true)
     else ret tt) ;;;
    xSemaphoreGive_state
  else ret tt.

Definition incrementMenuIndex : M unit :=
  taken <- xSemaphoreTake_state ;;
  if taken : bool then
    modify_model (fun m =>
      with_menuIndex (CInt.rem (CInt.add (m_menuIndex m) 1) m_menuLength) m) ;;;
    modify_model (with_stateChanged true) ;;;
    xSemaphoreGive_state
  else ret tt.

Definition decrementMenuIndex : M unit :=
  taken <- xSemaphoreTake_state ;;
  if taken : bool then
    modify_model (fun m =>
      with_menuIndex
        (CInt.rem (CInt.add (CInt.sub (m_menuIndex m) 1) m_menuLength)
                  m_menuLength) m) ;;;
    modify_model (with_stateChanged true) ;;;
    xSemaphoreGive_state
  else ret tt.

Definition getCurrentState : M SystemState :=
  taken <- xSemaphoreTake_state ;;
  if taken : bool then
    m <- get_model ;;
    xSemaphoreGive_state ;;;
    ret (m_currentState m)
  else ret STATE_MENU.

Definition setState (newState : SystemState) : M unit :=
  taken <- xSemaphoreTake_state ;;
  if taken : bool then
    m <- get_model ;;
    (if negb (SystemState_eqb (m_currentState m) newState) then
       modify_model (with_currentState newState) ;;;
       modify_model (with_stateChanged true) ;;;
       Serial_out (Print "State changed to: ") ;;;
       Serial_out (PrintlnState newState)
     else ret tt) ;;;
    xSemaphoreGive_state
  else ret tt.

Definition hasStateChanged : M bool :=
  taken <- xSemaphoreTake_state ;;
  if taken : bool then
    m <- get_model ;;
    xSemaphoreGive_state ;;;
    ret (m_stateChanged m)
  else ret false.

Definition clearStateChanged : M unit :=
  taken <- xSemaphoreTake_state ;;
  if taken : bool then
    modify_model (with_stateChanged false) ;;;
    xSemaphoreGive_state
  else ret tt.

(** [const char*] results: [Some s] is a pointer to the literal [s]; [None]
    stands for a read outside [m_menuItems], which the C++ leaves undefined. *)
Definition getMenuItem (index : Z) : option string :=
  if (0 <=? index) && (index <? m_menuLength) then
    m_menuItems !! Z.to_nat index
  else Some "Invalid".

Definition getCurrentMenuItem : M (option string) :=
  index <- getMenuIndex ;;
  ret (getMenuItem index).

Definition getMenuLength : Z := m_menuLength.

(** Declared inline in Model.h; takes no mutex. *)
Definition setCurrentTime (dt : DateTime) : M unit :=
  modify_model (with_currentTime dt).

End ModelOps.

(** ** Controller.h, Controller.cpp *)

Module Controller.
Import Model ModelOps.

(** Arduino's pin levels, as the [bool] that [digitalRead]'s result is
    converted to. *)
Definition HIGH : bool := true.
Definition LOW : bool := false.

Record ButtonConfig : Set := mkButton {
  pin : Z;
  lastState : bool;
  lastDebounceTime : Z;
  pressed : bool
}.

Definition BTN_UP_PIN : Z := 32.
Definition BTN_DOWN_PIN : Z := 33.
Definition BTN_LEFT_PIN : Z := 25.
Definition BTN_RIGHT_PIN : Z := 26.
Definition BTN_SELECT1_PIN : Z := 27.
Definition BTN_SELECT2_PIN : Z := 14.

Definition DEBOUNCE_DELAY : Z := 50.

Definition with_lastState (s : bool) (b : ButtonConfig) : ButtonConfig :=
  {| pin := pin b; lastState := s;
     lastDebounceTime := lastDebounceTime b; pressed := pressed b |}.

Definition with_lastDebounceTime (t : Z) (b : ButtonConfig) : ButtonConfig :=
  {| pin := pin b; lastState := lastState b;
     lastDebounceTime := t; pressed := pressed b |}.

Definition with_pressed (p : bool) (b : ButtonConfig) : ButtonConfig :=
  {| pin := pin b; lastState := lastState b;
     lastDebounceTime := lastDebounceTime b; pressed := p |}.

(** [Controller::initializeButtons]: the array [m_buttons]. *)
Definition initializeButtons : list ButtonConfig :=
  [ mkButton BTN_UP_PIN HIGH 0 false;
    mkButton BTN_DOWN_PIN HIGH 0 false;
    mkButton BTN_LEFT_PIN HIGH 0 false;
    mkButton BTN_RIGHT_PIN HIGH 0 false;
    mkButton BTN_SELECT1_PIN HIGH 0 false;
    mkButton BTN_SELECT2_PIN HIGH 0 false ].

(** What the board shows at one poll: the time since boot in milliseconds
    and the level of every pin. *)
Record Board : Type := mkBoard {
  uptime_ms : Z;
  digitalRead : Z -> bool
}.

(** [millis()] is an [unsigned long]: it wraps after 2^32 ms. *)
Definition millis (hw : Board) : Z := CInt.uwrap (uptime_ms hw).

(** The [switch (i)] of [readButtons]; [None] when no [case] matches and
    control falls out of the [switch]. *)
Definition event_of_index (i : nat) : option SystemEvent :=
  match i with
  | 0%nat => Some EVENT_UP
  | 1%nat => Some EVENT_DOWN
  | 2%nat => Some EVENT_LEFT
  | 3%nat => Some EVENT_RIGHT
  | 4%nat => Some EVENT_SELECT1
  | 5%nat => Some EVENT_SELECT2
  | _ => None
  end.

(** The [for] loop of [Controller::readButtons], from index [i] with [n]
    iterations left.  [m_buttons] has six entries, so [m_buttons[i]] exists
    for every index the loop visits; the list lookup has nothing to return
    only on a list that is no button array. *)
Fixpoint readButtons_loop (n i : nat) (hw : Board) (currentTime : Z)
         (m_buttons : list ButtonConfig) : list ButtonConfig * SystemEvent :=
  match n with
  | O => (m_buttons, EVENT_NONE)
  | S n' =>
    match m_buttons !! i with
    | None => (m_buttons, EVENT_NONE)
    | Some b =>
      let currentState := digitalRead hw (pin b) in
      let b :=
        if negb (Bool.eqb currentState (lastState b))
        then with_lastDebounceTime currentTime b else b in
      if DEBOUNCE_DELAY <? CInt.usub currentTime (lastDebounceTime b) then
        if negb (pressed b) && Bool.eqb currentState LOW then
          let b := with_lastState currentState (with_pressed true b) in
          match event_of_index i with
          | Some e => (<[i := b]> m_buttons, e)
          | None =>
            readButtons_loop n' (S i) hw currentTime
              (<[i := with_lastState currentState b]> m_buttons)
          end
        else
          let b :=
            if pressed b && Bool.eqb currentState HIGH
            then with_pressed false b else b in
          readButtons_loop n' (S i) hw currentTime
            (<[i := with_lastState currentState b]> m_buttons)
      else
        readButtons_loop n' (S i) hw currentTime
          (<[i := with_lastState currentState b]> m_buttons)
    end
  end.

Definition readButtons (hw : Board) (m_buttons : list ButtonConfig)
  : list ButtonConfig * SystemEvent :=
  readButtons_loop 6 0 hw (millis hw) m_buttons.

Definition handleMenuState (event : SystemEvent) : M unit :=
  match event with
  | EVENT_UP => decrementMenuIndex
  | EVENT_DOWN => incrementMenuIndex
  | EVENT_SELECT1 =>
    menuIndex <- getMenuIndex ;;
    match menuIndex with
    | 0 =>
      now <- rtc_now ;;
      Serial_out (Print "Home selected - Current Time: ") ;;;
      Serial_out (PrintlnTime now) ;;;
      setCurrentTime now
    | 1 => setState STATE_SETTINGS
    | 2 => setState STATE_ABOUT
    | 3 => setState STATE_CONFIRM_EXIT
    | _ => ret tt
    end
  | EVENT_SELECT2 => Serial_out (Println "Secondary select in menu")
  | _ => ret tt
  end.

Definition handleSettingsState (event : SystemEvent) : M unit :=
  match event with
  | EVENT_LEFT | EVENT_SELECT2 =>
    setState STATE_MENU ;;;
    Serial_out (Println "Returning to menu from settings")
  | EVENT_SELECT1 => Serial_out (Println "Settings action")
  | _ => ret tt
  end.

Definition handleAboutState (event : SystemEvent) : M unit :=
  match event with
  | EVENT_LEFT | EVENT_SELECT2 =>
    setState STATE_MENU ;;;
    Serial_out (Println "Returning to menu from about")
  | _ => ret tt
  end.

Definition handleConfirmExitState (event : SystemEvent) : M unit :=
  match event with
  | EVENT_SELECT1 =>
    Serial_out (Println "Exit confirmed - implement shutdown logic") ;;;
    setState STATE_MENU
  | EVENT_LEFT | EVENT_SELECT2 =>
    setState STATE_MENU ;;;
    Serial_out (Println "Exit cancelled")
  | _ => ret tt
  end.

Definition handleEvent (event : SystemEvent) : M unit :=
  currentState <- getCurrentState ;;
  match currentState with
  | STATE_MENU => handleMenuState event
  | STATE_SETTINGS => handleSettingsState event
  | STATE_ABOUT => handleAboutState event
  | STATE_CONFIRM_EXIT => handleConfirmExitState event
  end.

(** One turn of the [while (true)] loop of [Controller::buttonTask]. *)
Definition buttonTask_iteration (hw : Board) (m_buttons : list ButtonConfig)
  : M (list ButtonConfig) :=
  let (m_buttons', event) := readButtons hw m_buttons in
  (if negb (SystemEvent_eqb event EVENT_NONE) then handleEvent event
   else ret tt) ;;;
  ret m_buttons'.

(** Events handed to a handler one after the other. *)
Fixpoint each (handler : SystemEvent -> M unit) (events : list SystemEvent)
  : M unit :=
  match events with
  | [] => ret tt
  | e :: rest => handler e ;;; each handler rest
  end.

Definition handleEvents : list SystemEvent -> M unit := each handleEvent.

(** The controller task polling the board repeatedly: the button array after
    the polls and what each call of [readButtons] returned. *)
Fixpoint pollButtons (polls : list Board) (m_buttons : list ButtonConfig)
  : list ButtonConfig * list SystemEvent :=
  match polls with
  | [] => (m_buttons, [])
  | hw :: rest =>
    let (m_buttons', event) := readButtons hw m_buttons in
    let (final, events) := pollButtons rest m_buttons' in
    (final, event :: events)
  end.

End Controller.

(** ** FreeRTOS event groups *)

Module FreeRTOS.

(** [configTICK_RATE_HZ] of the Arduino core for the ESP32. *)
Definition configTICK_RATE_HZ : Z := 1000.

Definition pdMS_TO_TICKS (ms : Z) : nat :=
  Z.to_nat (ms * configTICK_RATE_HZ / 1000).

(** The test [xEventGroupWaitBits] applies to the value of the group. *)
Definition bits_satisfied (waitForAll : bool) (bitsToWaitFor value : Z) : bool :=
  if waitForAll then Z.land value bitsToWaitFor =? bitsToWaitFor
  else negb (Z.land value bitsToWaitFor =? 0).

(** Blocking on an event group, tick by tick: [value_at t] is the value of
    the group [t] ticks after the call.  The call returns the value at the
    first tick at which the awaited bits are set, or the value at the tick
    the block time expires. *)
Fixpoint wait_from (ok : Z -> bool) (value_at : nat -> Z) (t ticksLeft : nat) : Z :=
  if ok (value_at t) then value_at t
  else match ticksLeft with
       | O => value_at t
       | S n => wait_from ok value_at (S t) n
       end.

(** What the other tasks do to an event group while one task waits on it:
    [others t bits] is the value of the group [t] ticks after the call, when
    it held [bits] at the call. *)
Definition Interference : Type := nat -> Z -> Z.

(** No other task touches the group. *)
Definition undisturbed : Interference := fun _ bits => bits.

(** [xEventGroupWaitBits(group, bitsToWaitFor, pdFALSE, waitForAll, ticks)]
    on a group holding [bits] at the call.  The firmware never asks for the
    bits to be cleared on exit. *)
Definition xEventGroupWaitBits (bits : Z) (others : Interference)
           (bitsToWaitFor : Z) (waitForAll : bool) (ticksToWait : nat) : Z :=
  wait_from (bits_satisfied waitForAll bitsToWaitFor)
            (fun t => others t bits) 0 ticksToWait.

End FreeRTOS.

(** ** Synchronization.h, Synchronization.cpp *)

Module Synchronization.

Definition BIT (n : Z) : Z := Z.shiftl 1 n.

Definition STATE_CHANGED_BIT : Z := BIT 0.
Definition DISPLAY_READY_BIT : Z := BIT 1.
Definition CONTROLLER_READY_BIT : Z := BIT 2.
Definition SYSTEM_SHUTDOWN_BIT : Z := BIT 3.

(** The members the readiness handshake uses.  [m_eventGroup] is [None] for
    [nullptr] and otherwise holds the bits of the group; [m_serialMutex]
    tells whether the handle is not [nullptr]. *)
Record t : Set := mk {
  m_eventGroup : option Z;
  m_serialMutex : bool
}.

(** [Synchronization::Synchronization()] *)
Definition init : t := {| m_eventGroup := None; m_serialMutex := false |}.

(** [Synchronization::cleanup] *)
Definition cleanup (s : t) : t := {| m_eventGroup := None; m_serialMutex := false |}.

(** [Synchronization::initialize]; [created] tells whether FreeRTOS could
    allocate all five primitives. *)
Definition initialize (created : bool) (s : t) (console : list SerialOut)
  : bool * t * list SerialOut :=
  let s := {| m_eventGroup := Some 0; m_serialMutex := true |} in
  if negb created then
    (false, cleanup s,
     (console ++ [Println "Failed to create synchronization primitives"])%list)
  else
    (true, s, (console ++ [Println "Synchronization system initialized"])%list).

Definition setEventBits (bits : Z) (s : t) : t :=
  match m_eventGroup s with
  | Some v => {| m_eventGroup := Some (Z.lor v bits); m_serialMutex := m_serialMutex s |}
  | None => s
  end.

Definition getCurrentBits (s : t) : Z :=
  match m_eventGroup s with
  | Some v => v
  | None => 0
  end.

Definition waitForAllBits (s : t) (others : FreeRTOS.Interference)
           (bits : Z) (timeout : nat) : Z :=
  match m_eventGroup s with
  | None => 0
  | Some v => FreeRTOS.xEventGroupWaitBits v others bits true timeout
  end.

Definition clearEventBits (bits : Z) (s : t) : t :=
  match m_eventGroup s with
  | Some v => {| m_eventGroup := Some (Z.ldiff v bits); m_serialMutex := m_serialMutex s |}
  | None => s
  end.

Definition waitForAnyBit (s : t) (others : FreeRTOS.Interference)
           (bits : Z) (timeout : nat) : Z :=
  match m_eventGroup s with
  | None => 0
  | Some v => FreeRTOS.xEventGroupWaitBits v others bits false timeout
  end.

(** [acquireSerialMutex]; [granted] is the scheduler's answer. *)
Definition acquireSerialMutex (granted : bool) (s : t) : bool :=
  m_serialMutex s && granted.

Definition safePrintln (granted : bool) (message : string) (s : t)
           (console : list SerialOut) : list SerialOut :=
  if acquireSerialMutex granted s then (console ++ [Println message])%list
  else console.

(** [safePrintf]: the formatted text is kept as its format. *)
Definition safePrintf (granted : bool) (format : string) (s : t)
           (console : list SerialOut) : list SerialOut :=
  if acquireSerialMutex granted s then (console ++ [Print format])%list
  else console.

Definition notifyDisplayReady (granted : bool) (s : t) (console : list SerialOut)
  : t * list SerialOut :=
  let s := setEventBits DISPLAY_READY_BIT s in
  (s, safePrintln granted "Display system ready" s console).

Definition notifyControllerReady (granted : bool) (s : t) (console : list SerialOut)
  : t * list SerialOut :=
  let s := setEventBits CONTROLLER_READY_BIT s in
  (s, safePrintln granted "Controller system ready" s console).

Definition signalShutdown (granted : bool) (s : t) (console : list SerialOut)
  : t * list SerialOut :=
  let s := setEventBits SYSTEM_SHUTDOWN_BIT s in
  (s, safePrintln granted "System shutdown signaled" s console).

Definition waitForSystemReady (s : t) (others : FreeRTOS.Interference)
           (timeout : nat) : bool :=
  let requiredBits := Z.lor DISPLAY_READY_BIT CONTROLLER_READY_BIT in
  let result := waitForAllBits s others requiredBits timeout in
  Z.land result requiredBits =? requiredBits.

End Synchronization.

(** ** main.cpp *)

Module Main.

(** The globals of main.cpp.  A component pointer is kept as whether it is
    not [nullptr]; [g_sync] is the [Synchronization] singleton itself.
    [halted] records that [abort()] was called. *)
Record Globals : Set := mkGlobals {
  g_systemInitialized : bool;
  g_sync : Synchronization.t;
  g_controller : bool;
  g_oledView : bool;
  g_lcdView : bool;
  console : list SerialOut;
  halted : bool
}.

Definition power_on : Globals :=
  {| g_systemInitialized := false;
     g_sync := Synchronization.init;
     g_controller := false; g_oledView := false; g_lcdView := false;
     console := []; halted := false |}.

(** What the hardware, the allocator and the scheduler answer during
    start-up. *)
Record Startup : Type := mkStartup {
  sync_created : bool;
  model_initialized : bool;
  controller_initialized : bool;
  oled_initialized : bool;
  lcd_initialized : bool;
  controller_started : bool;
  oled_started : bool;
  lcd_started : bool;
  serial_granted : bool;
  others : FreeRTOS.Interference;
  rtc_found : bool
}.

Definition say (line : string) (g : Globals) : Globals :=
  {| g_systemInitialized := g_systemInitialized g; g_sync := g_sync g;
     g_controller := g_controller g; g_oledView := g_oledView g;
     g_lcdView := g_lcdView g;
     console := console g ++ [Println line]; halted := halted g |}.

Definition with_sync (s : Synchronization.t) (out : list SerialOut) (g : Globals)
  : Globals :=
  {| g_systemInitialized := g_systemInitialized g; g_sync := s;
     g_controller := g_controller g; g_oledView := g_oledView g;
     g_lcdView := g_lcdView g; console := out; halted := halted g |}.

Definition with_components (c o l : bool) (g : Globals) : Globals :=
  {| g_systemInitialized := g_systemInitialized g; g_sync := g_sync g;
     g_controller := c; g_oledView := o; g_lcdView := l;
     console := console g; halted := halted g |}.

Definition with_systemInitialized (b : bool) (g : Globals) : Globals :=
  {| g_systemInitialized := b; g_sync := g_sync g;
     g_controller := g_controller g; g_oledView := g_oledView g;
     g_lcdView := g_lcdView g; console := console g; halted := halted g |}.

Definition abort (g : Globals) : Globals :=
  {| g_systemInitialized := g_systemInitialized g; g_sync := g_sync g;
     g_controller := g_controller g; g_oledView := g_oledView g;
     g_lcdView := g_lcdView g; console := console g; halted := true |}.

Definition initializeHardware (g : Globals) : bool * Globals :=
  let g := say "Initializing hardware..." g in
  let g := say "I2C initialized" g in
  (true, say "Hardware initialization complete" g).

(** The lines the components print from their own [initialize] are left
    out, except those of [Synchronization]. *)
Definition initializeComponents (env : Startup) (g : Globals) : bool * Globals :=
  let g := say "Initializing software components..." g in
  let '(ok, s, out) :=
    Synchronization.initialize (sync_created env) (g_sync g) (console g) in
  let g := with_sync s out g in
  if negb ok then (false, say "Synchronization initialization failed" g) else
  if negb (model_initialized env) then (false, say "Model initialization failed" g) else
  let g := with_components true (g_oledView g) (g_lcdView g) g in
  if negb (controller_initialized env)
  then (false, say "Controller initialization failed" g) else
  let g := with_components (g_controller g) true (g_lcdView g) g in
  if negb (oled_initialized env)
  then (false, say "OLED View initialization failed" g) else
  let g := with_components (g_controller g) (g_oledView g) true g in
  if negb (lcd_initialized env)
  then (false, say "LCD View initialization failed" g) else
  (true, say "All components initialized successfully" g).

Definition startTasks (env : Startup) (g : Globals) : bool * Globals :=
  let g := say "Starting tasks..." g in
  if negb (controller_started env)
  then (false, say "Failed to start controller task" g) else
  let (s, out) :=
    Synchronization.notifyControllerReady (serial_granted env) (g_sync g) (console g) in
  let g := with_sync s out g in
  if negb (oled_started env) then (false, say "Failed to start OLED task" g) else
  if negb (lcd_started env) then (false, say "Failed to start LCD task" g) else
  let (s, out) :=
    Synchronization.notifyDisplayReady (serial_granted env) (g_sync g) (console g) in
  let g := with_sync s out g in
  (true, say "All tasks started successfully" g).

Definition cleanup (g : Globals) : Globals :=
  let g := say "Cleaning up system..." g in
  let g := with_components false false false g in
  let g := with_sync (Synchronization.cleanup (g_sync g)) (console g) g in
  say "Cleanup complete" g.

Definition setup (env : Startup) : Globals :=
  let g := say "=== ESP32 Menu System Starting ===" power_on in
  let (ok, g) := initializeHardware g in
  if negb ok then say "Hardware initialization failed!" g else
  let (ok, g) := initializeComponents env g in
  if negb ok then cleanup (say "Component initialization failed!" g) else
  let (ok, g) := startTasks env g in
  if negb ok then cleanup (say "Task startup failed!" g) else
  let g :=
    if Synchronization.waitForSystemReady (g_sync g) (others env)
         (FreeRTOS.pdMS_TO_TICKS 5000)
    then say "=== System Ready ===" (with_systemInitialized true g)
    else cleanup (say "System startup timeout!" g) in
  if negb (rtc_found env) then abort (say "Couldn't find RTC" g) else g.

(** The state in which [setup] calls [waitForSystemReady], when it gets
    that far. *)
Definition at_wait (env : Startup) : option Globals :=
  let g := say "=== ESP32 Menu System Starting ===" power_on in
  let (ok, g) := initializeHardware g in
  if negb ok then None else
  let (ok, g) := initializeComponents env g in
  if negb ok then None else
  let (ok, g) := startTasks env g in
  if negb ok then None else Some g.

(** What runs after [setup]: a turn of [loop()], or a turn of the
    [while (true)] of [systemStatusTask], with what each observes. *)
Inductive Turn : Set :=
| LoopTurn (report_due granted : bool)
| StatusTurn (highWaterMark messageCount : Z) (granted : bool).

Definition safePrintln (granted : bool) (line : string) (g : Globals) : Globals :=
  with_sync (g_sync g)
    (Synchronization.safePrintln granted line (g_sync g) (console g)) g.

Definition safePrintf (granted : bool) (format : string) (g : Globals) : Globals :=
  with_sync (g_sync g)
    (Synchronization.safePrintf granted format (g_sync g) (console g)) g.

(** [loop()]; [report_due] tells whether 30 s have passed since the last
    report. *)
Definition loop (report_due granted : bool) (g : Globals) : Globals :=
  if g_systemInitialized g then
    if report_due
    then safePrintf granted "System uptime: %lu ms, Free heap: %d bytes\n" g
    else g
  else g.

Definition systemStatusTask_iteration (highWaterMark messageCount : Z)
           (granted : bool) (g : Globals) : Globals :=
  if g_systemInitialized g then
    let g :=
      if highWaterMark <? 100
      then safePrintln granted "WARNING: Low stack space in system status task" g
      else g in
    let g :=
      if 8 <? messageCount
      then safePrintf granted "WARNING: Message queue filling up (%d messages)\n" g
      else g in
    let bits := Synchronization.getCurrentBits (g_sync g) in
    if negb (Z.land bits Synchronization.SYSTEM_SHUTDOWN_BIT =? 0) then
      let g := safePrintln granted "Shutdown signal received, cleaning up..." g in
      with_systemInitialized false (cleanup g)
    else g
  else g.

Definition turn (k : Turn) (g : Globals) : Globals :=
  if halted g then g else
  match k with
  | LoopTurn report_due granted => loop report_due granted g
  | StatusTurn highWaterMark messageCount granted =>
    systemStatusTask_iteration highWaterMark messageCount granted g
  end.

Definition run (turns : list Turn) (g : Globals) : Globals :=
  fold_left (fun g k => turn k g) turns g.

End Main.

(** ** TaskManager.h, TaskManager.cpp *)

Module TaskManager.

(** Conversion to [uint8_t] and to [uint16_t]. *)
Definition u8 (z : Z) : Z := z mod 2 ^ 8.
Definition u16 (z : Z) : Z := z mod 2 ^ 16.

(** [struct Task]; [title] is the C string that [char title[32]] holds. *)
Record Task : Set := mkTask {
  title : string;
  priority : Z;
  isComplete : bool;
  category : Z;
  id : Z
}.

(** [Task::Task()] *)
Definition Task_default : Task :=
  {| title := EmptyString; priority := 3; isComplete := false; category := 0; id := 0 |}.

Definition with_title (s : string) (task : Task) : Task :=
  {| title := s; priority := priority task; isComplete := isComplete task;
     category := category task; id := id task |}.

Definition with_priority (p : Z) (task : Task) : Task :=
  {| title := title task; priority := p; isComplete := isComplete task;
     category := category task; id := id task |}.

Definition with_isComplete (b : bool) (task : Task) : Task :=
  {| title := title task; priority := priority task; isComplete := b;
     category := category task; id := id task |}.

Definition with_category (c : Z) (task : Task) : Task :=
  {| title := title task; priority := priority task;
     isComplete := isComplete task; category := c; id := id task |}.

Inductive SortBy : Set :=
| SORT_BY_PRIORITY
| SORT_BY_STATUS
| SORT_BY_CATEGORY
| SORT_BY_CREATION_ORDER.

Definition MAX_TASKS : Z := 30.


(** The data members of [class TaskManager]: the two arrays have
    [MAX_TASKS] slots each, of which the first [taskCount] (resp.
    [filteredCount]) are in use. *)
Record t : Set := mk {
  tasks : list Task;
  taskCount : Z;
  nextId : Z;
  filterActive : bool;
  filteredIndices : list Z;
  filteredCount : Z
}.

(** [TaskManager::TaskManager()]; the constructor leaves [filteredIndices]
    uninitialised, so what it holds is a parameter. *)
Definition create (uninitialised : list Z) : t :=
  {| tasks := replicate 30 Task_default;
     taskCount := 0; nextId := 1; filterActive := false;
     filteredIndices := uninitialised; filteredCount := 0 |}.

Definition with_tasks (ts : list Task) (tm : t) : t :=
  {| tasks := ts; taskCount := taskCount tm; nextId := nextId tm;
     filterActive := filterActive tm; filteredIndices := filteredIndices tm;
     filteredCount := filteredCount tm |}.

Definition with_taskCount (n : Z) (tm : t) : t :=
  {| tasks := tasks tm; taskCount := n; nextId := nextId tm;
     filterActive := filterActive tm; filteredIndices := filteredIndices tm;
     filteredCount := filteredCount tm |}.

Definition with_nextId (n : Z) (tm : t) : t :=
  {| tasks := tasks tm; taskCount := taskCount tm; nextId := n;
     filterActive := filterActive tm; filteredIndices := filteredIndices tm;
     filteredCount := filteredCount tm |}.

(** The loops of this class count with a [uint8_t] below a [uint8_t] bound,
    so they make fewer than 256 turns; each is written from index [i] with
    [n] turns left and is run with 256.  A slot is read with the list
    lookup: it finds nothing only beyond the thirty slots of the array,
    where the C++ is undefined and the loop here stops; the invariant
    [taskCount <= MAX_TASKS] keeps the loops inside the array.

    The loop of [rebuildFilteredList]. *)
Fixpoint rebuild_loop (n i : nat) (count : Z) (indices : list Z) : list Z :=
  match n with
  | O => indices
  | S n' =>
    if Z.of_nat i <? count
    then rebuild_loop n' (S i) count (<[i := Z.of_nat i]> indices)
    else indices
  end.

Definition rebuildFilteredList (tm : t) : t :=
  {| tasks := tasks tm; taskCount := taskCount tm; nextId := nextId tm;
     filterActive := filterActive tm;
     filteredIndices := rebuild_loop 256 0 (taskCount tm) (filteredIndices tm);
     filteredCount := taskCount tm |}.

(** [strncpy(dst, src, 31); dst[31] = '\0'] *)
Definition copy_title (src : string) : string := substring 0 31 src.

(** [addTask]; a [nullptr] title is [None].  Arguments of type [uint8_t]
    and [uint16_t] are converted where the function is entered. *)
Definition addTask (title : option string) (priority category : Z) (tm : t)
  : bool * t :=
  let priority := u8 priority in
  let category := u8 category in
  match title with
  | None => (false, tm)
  | Some title =>
    if (MAX_TASKS <=? taskCount tm) || (String.length title =? 0)%nat
    then (false, tm)
    else
      let priority := if (priority <? 1) || (5 <? priority) then 3 else priority in
      let category := if 3 <? category then 0 else category in
      let newTask :=
        {| title := copy_title title; priority := priority;
           isComplete := false; category := category; id := nextId tm |} in
      let tm := with_tasks (<[Z.to_nat (taskCount tm) := newTask]> (tasks tm)) tm in
      let tm := with_nextId (u16 (nextId tm + 1)) tm in
      let tm := with_taskCount (u8 (taskCount tm + 1)) tm in
      (true, rebuildFilteredList tm)
  end.

(** The loop of [findTaskIndex]. *)
Fixpoint find_loop (n i : nat) (taskId : Z) (tm : t) : Z :=
  match n with
  | O => MAX_TASKS
  | S n' =>
    if Z.of_nat i <? taskCount tm then
      match tasks tm !! i with
      | Some task =>
        if id task =? taskId then Z.of_nat i else find_loop n' (S i) taskId tm
      | None => MAX_TASKS
      end
    else MAX_TASKS
  end.

Definition findTaskIndex (taskId : Z) (tm : t) : Z :=
  find_loop 256 0 (u16 taskId) tm.

(** [getTask]: the slot of the task, for the pointer into [tasks]. *)
Definition getTask (taskId : Z) (tm : t) : option nat :=
  let index := findTaskIndex taskId tm in
  if index <? taskCount tm then Some (Z.to_nat index) else None.

(** The loop of [deleteTask]: [tasks[i] = tasks[i + 1]]. *)
Fixpoint shift_loop (n i : nat) (count : Z) (ts : list Task) : list Task :=
  match n with
  | O => ts
  | S n' =>
    if Z.of_nat i <? count - 1 then
      match ts !! S i with
      | Some next => shift_loop n' (S i) count (<[i := next]> ts)
      | None => ts
      end
    else ts
  end.

Definition deleteTask (taskId : Z) (tm : t) : bool * t :=
  let index := findTaskIndex taskId tm in
  if taskCount tm <=? index then (false, tm)
  else
    let tm := with_tasks (shift_loop 256 (Z.to_nat index) (taskCount tm) (tasks tm)) tm in
    let tm := with_taskCount (u8 (taskCount tm - 1)) tm in
    (true, rebuildFilteredList tm).

Definition toggleTaskComplete (taskId : Z) (tm : t) : bool * t :=
  match getTask taskId tm with
  | None => (false, tm)
  | Some slot =>
    match tasks tm !! slot with
    | None => (false, tm)
    | Some task =>
      let task := with_isComplete (negb (isComplete task)) task in
      (true, rebuildFilteredList (with_tasks (<[slot := task]> (tasks tm)) tm))
    end
  end.

(** [editTask]; the defaults of the declaration are [nullptr], 0 and 255. *)
Definition editTask (taskId : Z) (newTitle : option string)
           (newPriority newCategory : Z) (tm : t) : bool * t :=
  let newPriority := u8 newPriority in
  let newCategory := u8 newCategory in
  match getTask taskId tm with
  | None => (false, tm)
  | Some slot =>
    match tasks tm !! slot with
    | None => (false, tm)
    | Some task =>
      let task :=
        match newTitle with
        | Some s => with_title (copy_title s) task
        | None => task
        end in
      let task :=
        if (1 <=? newPriority) && (newPriority <=? 5)
        then with_priority newPriority task else task in
      let task :=
        if newCategory <=? 3 then with_category newCategory task else task in
      (true, rebuildFilteredList (with_tasks (<[slot := task]> (tasks tm)) tm))
    end
  end.

(** [getTaskByIndex]: the slot of the task. *)
Definition getTaskByIndex (index : Z) (tm : t) : option nat :=
  let index := u8 index in
  if filterActive tm then
    if index <? filteredCount tm
    then Z.to_nat <$> (filteredIndices tm !! Z.to_nat index)
    else None
  else
    if index <? taskCount tm then Some (Z.to_nat index) else None.

(** The loop of [getCompletedCount]. *)
Fixpoint completed_loop (n i : nat) (completed : Z) (tm : t) : Z :=
  match n with
  | O => completed
  | S n' =>
    if Z.of_nat i <? taskCount tm then
      match tasks tm !! i with
      | Some task =>
        completed_loop n' (S i)
          (if isComplete task then u8 (completed + 1) else completed) tm
      | None => completed
      end
    else completed
  end.

Definition getCompletedCount (tm : t) : Z := completed_loop 256 0 0 tm.

Definition getCompletionPercentage (tm : t) : Z :=
  if taskCount tm =? 0 then 0
  else u8 (Z.quot (getCompletedCount tm * 100) (taskCount tm)).

Definition shouldSwap (sortType : SortBy) (a b : Task) : bool :=
  match sortType with
  | SORT_BY_PRIORITY => priority a <? priority b
  | SORT_BY_STATUS => isComplete a && negb (isComplete b)
  | SORT_BY_CATEGORY => category b <? category a
  | SORT_BY_CREATION_ORDER => false
  end.

Definition swapTasks (i j : nat) (ts : list Task) : list Task :=
  match ts !! i, ts !! j with
  | Some a, Some b => <[j := a]> (<[i := b]> ts)
  | _, _ => ts
  end.

(** The inner loop of [sortTasks], over [j < bound]. *)
Fixpoint sort_inner (n j : nat) (bound : Z) (sortType : SortBy) (ts : list Task)
  : list Task :=
  match n with
  | O => ts
  | S n' =>
    if Z.of_nat j <? bound then
      let ts :=
        match ts !! j, ts !! S j with
        | Some a, Some b =>
          if shouldSwap sortType a b then swapTasks j (S j) ts else ts
        | _, _ => ts
        end in
      sort_inner n' (S j) bound sortType ts
    else ts
  end.

(** The outer loop of [sortTasks], over [i < taskCount - 1]. *)
Fixpoint sort_outer (n i : nat) (count : Z) (sortType : SortBy) (ts : list Task)
  : list Task :=
  match n with
  | O => ts
  | S n' =>
    if Z.of_nat i <? count - 1 then
      sort_outer n' (S i) count sortType
        (sort_inner 256 0 (count - Z.of_nat i - 1) sortType ts)
    else ts
  end.

Definition sortTasks (sortType : SortBy) (tm : t) : t :=
  rebuildFilteredList
    (with_tasks (sort_outer 256 0 (taskCount tm) sortType (tasks tm)) tm).



Definition reset (tm : t) : t :=
  {| tasks := tasks tm; taskCount := 0; nextId := 1; filterActive := false;
     filteredIndices := filteredIndices tm; filteredCount := 0 |}.

(** The loop of [getAllTasks]: the copies pushed onto the vector. *)
Fixpoint all_loop (n i : nat) (tm : t) (allTasks : list Task) : list Task :=
  match n with
  | O => allTasks
  | S n' =>
    if Z.of_nat i <? filteredCount tm then
      match getTaskByIndex (Z.of_nat i) tm with
      | Some slot =>
        match tasks tm !! slot with
        | Some task => all_loop n' (S i) tm (allTasks ++ [task])
        | None => allTasks
        end
      | None => all_loop n' (S i) tm allTasks
      end
    else allTasks
  end.

Definition getAllTasks (tm : t) : list Task := all_loop 256 0 tm [].

End TaskManager.

(** ** View.h, View.cpp *)

Module View.
Import Model ModelOps.

(** The local variables of [View::displayTask] that live across the turns
    of its loop. *)
Record Loop : Set := mkLoop {
  lastState : SystemState;
  forceUpdate : bool
}.

(** Their values when the loop is entered. *)
Definition task_started : Loop :=
  {| lastState := STATE_MENU; forceUpdate := true |}.

(** One turn of the [while (m_running)] loop of [View::displayTask].
    [renderDisplay] is the pure virtual method of the view, returning what
    it draws; [displayGranted] is the scheduler's answer to
    [acquireDisplayMutex], which asks for [m_displayMutex] and not for the
    state mutex.  The turn returns what was drawn, if anything. *)
Definition displayTask_iteration {Frame : Type} (renderDisplay : M Frame)
           (displayGranted : bool) (l : Loop) : M (Loop * option Frame) :=
  currentState <- getCurrentState ;;
  stateChanged <- hasStateChanged ;;
  if stateChanged || forceUpdate l
     || negb (SystemState_eqb currentState (lastState l))
  then
    if displayGranted then
      frame <- renderDisplay ;;
      (if stateChanged : bool then clearStateChanged else ret tt) ;;;
      ret ({| lastState := currentState; forceUpdate := false |}, Some frame)
    else ret (l, None)
  else ret (l, None).

End View.

(** ** OLEDView.h, OLEDView.cpp *)

Module OLEDView.
Import Model ModelOps.

(** The calls made on the [Adafruit_SSD1306] object; a colour is [true] for
    [SSD1306_WHITE] and [false] for [SSD1306_BLACK]. *)
Inductive Draw : Set :=
| Draw_clearDisplay
| Draw_setTextSize (s : Z)
| Draw_setTextColor (white : bool)
| Draw_setCursor (x y : Z)
| Draw_print (text : string)
| Draw_println (text : string)
| Draw_drawPixel (x y : Z) (white : bool)
| Draw_fillRect (x y w h : Z) (white : bool)
| Draw_display.

Definition SCREEN_WIDTH : Z := 128.
Definition SCREEN_HEIGHT : Z := 64.

Definition drawHeader (title : string) : list Draw :=
  ([Draw_setTextSize 1; Draw_setCursor 0 0; Draw_print title]
   ++ map (fun x : nat => Draw_drawPixel (Z.of_nat x) 10 true)
          (seq 0 (Z.to_nat SCREEN_WIDTH)))%list.

(** [getMenuItem] returns no string only for a read outside [m_menuItems],
    which it never makes. *)
Definition drawMenuItem (index : Z) (selected : bool) : list Draw :=
  let y := CInt.wrap (15 + index * 10) in
  ([Draw_setTextSize 1; Draw_setCursor 0 y]
   ++ (if selected
       then [Draw_print "> "; Draw_fillRect 15 y 80 8 true; Draw_setTextColor false]
       else [Draw_print "  "; Draw_setTextColor true])
   ++ match getMenuItem index with
      | Some item => [Draw_print item]
      | None => []
      end
   ++ [Draw_setTextColor true])%list.

Definition drawMenu : M (list Draw) :=
  let menuLength := getMenuLength in
  currentIndex <- getMenuIndex ;;
  ret ([Draw_clearDisplay] ++ drawHeader "Main Menu"
       ++ concat (map (fun i : nat =>
                         drawMenuItem (Z.of_nat i) (Z.of_nat i =? currentIndex))
                      (seq 0 (Z.to_nat menuLength)))
       ++ [Draw_setCursor 0 (SCREEN_HEIGHT - 8); Draw_setTextSize 1;
           Draw_print "UP/DOWN: Navigate SELECT: Choose"; Draw_display])%list.

Definition drawSettings : list Draw :=
  ([Draw_clearDisplay] ++ drawHeader "Settings"
  ++ [Draw_setCursor 0 20; Draw_setTextSize 1;
      Draw_println "System Configuration"; Draw_println EmptyString;
      Draw_println "Version: 1.0.0"; Draw_println "FreeRTOS: Active";
      Draw_println "Display: OLED + LCD";
      Draw_setCursor 0 (SCREEN_HEIGHT - 8); Draw_print "LEFT/SELECT2: Back";
      Draw_display])%list.

Definition drawAbout : list Draw :=
  ([Draw_clearDisplay] ++ drawHeader "About"
  ++ [Draw_setCursor 0 20; Draw_setTextSize 1;
      Draw_println "ESP32 Menu System"; Draw_println "MVC Architecture";
      Draw_println "FreeRTOS Tasks"; Draw_println EmptyString;
      Draw_println "Dual Display Support";
      Draw_setCursor 0 (SCREEN_HEIGHT - 8); Draw_print "LEFT/SELECT2: Back";
      Draw_display])%list.

Definition drawConfirmExit : list Draw :=
  ([Draw_clearDisplay] ++ drawHeader "Confirm Exit"
  ++ [Draw_setCursor 0 25; Draw_setTextSize 2; Draw_println "EXIT?";
      Draw_setTextSize 1; Draw_setCursor 0 45;
      Draw_println "SELECT1: Yes"; Draw_println "LEFT/SELECT2: No";
      Draw_display])%list.

(** [OLEDView::renderDisplay]; [m_oled] tells whether the display object
    exists. *)
Definition renderDisplay (m_oled : bool) : M (list Draw) :=
  if negb m_oled then ret []
  else
    currentState <- getCurrentState ;;
    match currentState with
    | STATE_MENU => drawMenu
    | STATE_SETTINGS => ret drawSettings
    | STATE_ABOUT => ret drawAbout
    | STATE_CONFIRM_EXIT => ret drawConfirmExit
    end.

End OLEDView.

(** ** SimpleLCD.h, LCDView.cpp *)

Module SimpleLCD.

(** The calls made on the [LiquidCrystal_I2C] object. *)
Inductive Lcd : Set :=
| Lcd_clear
| Lcd_setCursor (col row : Z)
| Lcd_print (text : string).

(** [printPadded]: sixteen spaces are appended and the first sixteen
    characters printed. *)
Definition printPadded (text : string) (col row : Z) : list Lcd :=
  let padded := (text ++ "                ")%string in
  [Lcd_setCursor col row; Lcd_print (substring 0 16 padded)].

(** [LCDView::clearAndPrint]; [line2] may be [nullptr]. *)
Definition clearAndPrint (line1 : string) (line2 : option string) : list Lcd :=
  ([Lcd_clear] ++ printPadded line1 0 0
   ++ match line2 with
      | Some line => printPadded line 0 1
      | None => []
      end)%list.

End SimpleLCD.

(** ** Vocabulary of the properties *)

Import Model ModelOps.

(** Whether the scheduler grants the next request for the state mutex. *)
Definition granted_next (w : World) : Prop := sem_grants w (sem_calls w) = true.
Definition refused_next (w : World) : Prop := sem_grants w (sem_calls w) = false.

(** The state mutex is never contended from now on. *)
Definition always_granted (w : World) : Prop :=
  forall k : nat, (sem_calls w <= k)%nat -> sem_grants w k = true.

Definition epoch : DateTime := mkDateTime 2000 1 1 0 0 0.

(** A world in which a given scheduler behaviour meets a given model. *)
Definition world_of (m : Model.t) (grants : nat -> bool) : World :=
  {| model := m; serial := []; rtc := epoch; sem_grants := grants; sem_calls := 0 |}.

Definition uncontended : nat -> bool := fun _ => true.

(** The invariant of §3. *)
Definition menu_index_in_range (m : Model.t) : Prop :=
  0 <= m_menuIndex m < m_menuLength.

(** The public operations of [Model] on the menu state, as a client may call
    them one after the other. *)
Inductive ModelCall : Set :=
| Call_getMenuIndex
| Call_setMenuIndex (index : Z)
| Call_incrementMenuIndex
| Call_decrementMenuIndex
| Call_getCurrentState
| Call_setState (newState : SystemState)
| Call_hasStateChanged
| Call_clearStateChanged
| Call_getCurrentMenuItem
| Call_setCurrentTime (dt : DateTime).

Definition call (c : ModelCall) : M unit :=
  match c with
  | Call_getMenuIndex => getMenuIndex ;;; ret tt
  | Call_setMenuIndex index => setMenuIndex index
  | Call_incrementMenuIndex => incrementMenuIndex
  | Call_decrementMenuIndex => decrementMenuIndex
  | Call_getCurrentState => getCurrentState ;;; ret tt
  | Call_setState newState => setState newState
  | Call_hasStateChanged => hasStateChanged ;;; ret tt
  | Call_clearStateChanged => clearStateChanged
  | Call_getCurrentMenuItem => getCurrentMenuItem ;;; ret tt
  | Call_setCurrentTime dt => setCurrentTime dt
  end.

Fixpoint calls (cs : list ModelCall) : M unit :=
  match cs with
  | [] => ret tt
  | c :: rest => call c ;;; calls rest
  end.

(** How often an event occurs in a sequence. *)
Fixpoint occurrences (e : SystemEvent) (events : list SystemEvent) : Z :=
  match events with
  | [] => 0
  | x :: rest => (if SystemEvent_eqb e x then 1 else 0) + occurrences e rest
  end.

(** The pairs that the transition table of §4.2 of the specification lists
    with an action; every other pair is a dash in the table or absent from
    it. *)
Definition table_lists (s : SystemState) (e : SystemEvent) : bool :=
  match s, e with
  | STATE_MENU, (EVENT_UP | EVENT_DOWN | EVENT_SELECT1) => true
  | STATE_SETTINGS, (EVENT_LEFT | EVENT_SELECT2) => true
  | STATE_ABOUT, (EVENT_LEFT | EVENT_SELECT2) => true
  | STATE_CONFIRM_EXIT, (EVENT_LEFT | EVENT_SELECT2 | EVENT_SELECT1) => true
  | _, _ => false
  end.

(** Two concrete models and schedulers used as test inputs. *)
Definition model_at (index : Z) (s : SystemState) (changed : bool) : Model.t :=
  {| m_menuIndex := index; m_currentState := s;
     m_stateChanged := changed; m_currentTime := epoch |}.

(** Granted once, then refused. *)
Definition granted_once : nat -> bool := fun k => Nat.eqb k 0.

(** Granted every time but for the eighth and the tenth request. *)
Definition refused_8th_10th : nat -> bool :=
  fun k => negb (Nat.eqb k 7 || Nat.eqb k 9).

(** Granted every time but for the second request. *)
Definition refused_2nd : nat -> bool := fun k => negb (Nat.eqb k 1).

(** The world after a request for the mutex has been answered. *)
Definition asked (w : World) : World :=
  {| model := model w; serial := serial w; rtc := rtc w;
     sem_grants := sem_grants w; sem_calls := S (sem_calls w) |}.

Definition put_model (m : Model.t) (w : World) : World :=
  {| model := m; serial := serial w; rtc := rtc w;
     sem_grants := sem_grants w; sem_calls := sem_calls w |}.

(** The step of the menu index that an event stands for. *)
Definition direction (e : SystemEvent) : Z :=
  match e with EVENT_DOWN => 1 | EVENT_UP => -1 | _ => 0 end.

(** Worlds in which the controller can take the next Up or Down: through
    [handleEvent] in the Menu state, or through [handleMenuState] directly. *)
Definition fit_menu (w : World) : Prop :=
  always_granted w /\ m_currentState (model w) = STATE_MENU
  /\ menu_index_in_range (model w).

Definition fit_direct (w : World) : Prop :=
  always_granted w /\ menu_index_in_range (model w).

Import Controller Synchronization.

(** A bit of the event group is set in a value. *)
Definition bit_is_set (mask value : Z) : Prop := Z.land value mask = mask.

(** Some task clears the display-ready bit again. *)
Definition display_bit_lost : FreeRTOS.Interference :=
  fun _ bits => Z.ldiff bits DISPLAY_READY_BIT.

Definition all_well (others : FreeRTOS.Interference) : Main.Startup :=
  {| Main.sync_created := true; Main.model_initialized := true;
     Main.controller_initialized := true; Main.oled_initialized := true;
     Main.lcd_initialized := true; Main.controller_started := true;
     Main.oled_started := true; Main.lcd_started := true;
     Main.serial_granted := true; Main.others := others;
     Main.rtc_found := true |}.

(** *** Debouncing *)

(** A press edge on a line, as [readButtons] recognises one: the line reads
    LOW, it read LOW at the previous poll as well, it has not changed for
    more than [DEBOUNCE_DELAY] ms, and the press is not registered yet. *)
Definition press_edge (hw : Board) (b : ButtonConfig) : bool :=
  negb (digitalRead hw (pin b)) && negb (lastState b) && negb (pressed b)
  && (DEBOUNCE_DELAY <? CInt.usub (millis hw) (lastDebounceTime b)).

(** One turn of the loop of [readButtons] on one of the six buttons: the
    button afterwards, and whether the turn returned an event. *)
Definition poll_one (hw : Board) (b : ButtonConfig) : ButtonConfig * bool :=
  let currentTime := millis hw in
  let currentState := digitalRead hw (pin b) in
  let b :=
    if negb (Bool.eqb currentState (lastState b))
    then with_lastDebounceTime currentTime b else b in
  if DEBOUNCE_DELAY <? CInt.usub currentTime (lastDebounceTime b) then
    if negb (pressed b) && Bool.eqb currentState LOW then
      (with_lastState currentState (with_pressed true b), true)
    else
      (with_lastState currentState
         (if pressed b && Bool.eqb currentState HIGH
          then with_pressed false b else b), false)
  else (with_lastState currentState b, false).

(** The loop over the buttons from index [i] on, by recursion on the
    buttons left: the buttons afterwards and the index that returned. *)
Fixpoint poll_rest (hw : Board) (bs : list ButtonConfig) (i : nat)
  : list ButtonConfig * option nat :=
  match bs with
  | [] => ([], None)
  | b :: rest =>
    if snd (poll_one hw b) then (fst (poll_one hw b) :: rest, Some i)
    else (fst (poll_one hw b) :: fst (poll_rest hw rest (S i)),
          snd (poll_rest hw rest (S i)))
  end.

Definition event_at (r : option nat) : SystemEvent :=
  match r with
  | Some i => match event_of_index i with Some e => e | None => EVENT_NONE end
  | None => EVENT_NONE
  end.

(** Since the time [te] (on the board's clock, which has reached [t]) the
    button cannot return an event before [DEBOUNCE_DELAY] has passed: it is
    registered as pressed, or it read HIGH last, or its last change was at or
    after [te]. *)
Definition settled (te t : Z) (b : ButtonConfig) : Prop :=
  pressed b = true \/ lastState b = HIGH
  \/ exists L, te <= L <= t /\ lastDebounceTime b = CInt.uwrap L.

(** The polls come in the order of the board's clock. *)
Fixpoint paced_from (t : Z) (polls : list Board) : Prop :=
  match polls with
  | [] => True
  | hw :: rest => t <= uptime_ms hw /\ paced_from (uptime_ms hw) rest
  end.

Definition in_order (polls : list Board) : Prop :=
  match polls with
  | [] => True
  | hw :: rest => paced_from (uptime_ms hw) rest
  end.

(** A board on which only the Up line is driven; the other lines idle HIGH. *)
Definition up_line (t : Z) (level : bool) : Board :=
  {| uptime_ms := t;
     digitalRead := fun p => if p =? BTN_UP_PIN then level else HIGH |}.

(** Polled every 5 ms from 1000 ms on: the Up line goes LOW at 1000, bounces
    HIGH at 1005, goes LOW again at 1010 and stays LOW until it is released
    at 1100; polling goes on until 1195. *)
Definition two_presses_10ms_apart : list Board :=
  map (fun n : nat =>
         up_line (1000 + 5 * Z.of_nat n)
                 (if Nat.eqb n 1 then HIGH
                  else if Nat.leb 20 n then HIGH else LOW))
      (seq 0 40).

(** Polled every 5 ms from 1000 ms on: the Up line is LOW from 1000, HIGH
    from 1100, LOW again from 1200 until polling stops at 1295. *)
Definition press_release_press : list Board :=
  map (fun n : nat =>
         up_line (1000 + 5 * Z.of_nat n)
                 (if Nat.ltb n 20 then LOW
                  else if Nat.ltb n 40 then HIGH else LOW))
      (seq 0 60).

(** The buttons when the Up line has read LOW since 1010 ms and no press is
    registered yet. *)
Definition up_low_since_1010 : list ButtonConfig :=
  <[0%nat := mkButton BTN_UP_PIN LOW 1010 false]> initializeButtons.

(** The lines in front of line [k] idle HIGH at every poll. *)
Definition front_idle (k : nat) (bs : list ButtonConfig) (polls : list Board)
  : Prop :=
  forall j b', (j < k)%nat -> bs !! j = Some b' ->
    forall hw, hw ∈ polls -> digitalRead hw (pin b') = HIGH.

(** Poll [m] is the first one more than [DEBOUNCE_DELAY] ms after [t0]. *)
Definition first_after (t0 : Z) (polls : list Board) (m : nat) : Prop :=
  exists p, polls !! m = Some p
    /\ DEBOUNCE_DELAY < uptime_ms p - t0
    /\ forall m' p', (m' < m)%nat -> polls !! m' = Some p' ->
         uptime_ms p' - t0 <= DEBOUNCE_DELAY.

(** A board on which the Up and the Down line are driven. *)
Definition up_down_lines (t : Z) (up down : bool) : Board :=
  {| uptime_ms := t;
     digitalRead := fun p => if p =? BTN_UP_PIN then up
                             else if p =? BTN_DOWN_PIN then down else HIGH |}.

(** Polled every 10 ms from 1000 ms on, as [buttonTask] does: Up and Down
    are both pressed at 1000 and both released at 1070; polling goes on
    until 1190. *)
Definition up_and_down_held : list Board :=
  map (fun n : nat =>
         up_down_lines (1000 + 10 * Z.of_nat n)
                       (if Nat.ltb n 7 then LOW else HIGH)
                       (if Nat.ltb n 7 then LOW else HIGH))
      (seq 0 20).

(** Polled every 5 ms from 1000 ms on: the Up line goes LOW at 1000, HIGH at
    1005, LOW again from 1010 to 1040 and is HIGH from 1045 on. *)
Definition two_short_presses : list Board :=
  map (fun n : nat =>
         up_line (1000 + 5 * Z.of_nat n)
                 (if Nat.eqb n 1 then HIGH
                  else if Nat.leb 9 n then HIGH else LOW))
      (seq 0 40).

(** Polled every 10 ms from 1000 ms on with the Up line held LOW. *)
Definition up_held : list Board :=
  map (fun n : nat => up_line (1000 + 10 * Z.of_nat n) LOW) (seq 0 10).

(** The buttons when Up is registered as pressed and its line has read
    HIGH since 1100 ms. *)
Definition up_released_at_1100 : list ButtonConfig :=
  <[0%nat := mkButton BTN_UP_PIN HIGH 1100 true]> initializeButtons.

(** A relation between the world before and after a computation holds for
    the computation from every world. *)
Definition relates {A} (R : World -> World -> Prop) (c : M A) : Prop :=
  forall w, R w (exec c w).

(** The changed flag is not lowered. *)
Definition flag_kept (w w' : World) : Prop :=
  m_stateChanged (model w) = true -> m_stateChanged (model w') = true.

(** Menu index and state are as before, or the changed flag is up; and the
    flag is not lowered. *)
Definition change_flagged (w w' : World) : Prop :=
  flag_kept w w'
  /\ ((m_menuIndex (model w') = m_menuIndex (model w)
       /\ m_currentState (model w') = m_currentState (model w))
      \/ m_stateChanged (model w') = true).

(** A scheduler that refuses every request. *)
Definition contended : nat -> bool := fun _ => false.

Definition never_granted (w : World) : Prop :=
  forall k : nat, sem_grants w k = false.

(** The scheduler's answers are the same and no request is taken back. *)
Definition moves_on (w w' : World) : Prop :=
  sem_grants w' = sem_grants w /\ (sem_calls w <= sem_calls w')%nat.

(** The menu index is as before, and the state is as before or Menu. *)
Definition only_to_menu (w w' : World) : Prop :=
  m_menuIndex (model w') = m_menuIndex (model w)
  /\ (m_currentState (model w') = m_currentState (model w)
      \/ m_currentState (model w') = STATE_MENU).

(** *** Signalling through the event group *)

(** The calls of [Synchronization] that raise event bits, as the tasks make
    them one after the other; [granted] is the scheduler's answer to the
    request for the serial mutex that the call makes. *)
Inductive Signal : Set :=
| NotifyDisplayReady (granted : bool)
| NotifyControllerReady (granted : bool)
| SignalShutdown (granted : bool)
| SetEventBits (bits : Z).

Definition signal (x : Signal) (sc : Synchronization.t * list SerialOut)
  : Synchronization.t * list SerialOut :=
  match x with
  | NotifyDisplayReady granted => notifyDisplayReady granted (fst sc) (snd sc)
  | NotifyControllerReady granted => notifyControllerReady granted (fst sc) (snd sc)
  | SignalShutdown granted => signalShutdown granted (fst sc) (snd sc)
  | SetEventBits bits => (setEventBits bits (fst sc), snd sc)
  end.

Definition signals (xs : list Signal) (sc : Synchronization.t * list SerialOut)
  : Synchronization.t * list SerialOut :=
  fold_left (fun sc x => signal x sc) xs sc.

(** What a signal does to the event group: it ors its bits in. *)
Definition bits_of (x : Signal) : Z :=
  match x with
  | NotifyDisplayReady _ => DISPLAY_READY_BIT
  | NotifyControllerReady _ => CONTROLLER_READY_BIT
  | SignalShutdown _ => SYSTEM_SHUTDOWN_BIT
  | SetEventBits bits => bits
  end.

Definition is_display_ready (x : Signal) : bool :=
  match x with NotifyDisplayReady _ => true | _ => false end.

Definition is_controller_ready (x : Signal) : bool :=
  match x with NotifyControllerReady _ => true | _ => false end.

Definition is_notification (x : Signal) : bool :=
  match x with SetEventBits _ => false | _ => true end.

(** The [Synchronization] object after a successful [initialize]. *)
Definition sync_up : Synchronization.t :=
  {| m_eventGroup := Some 0; m_serialMutex := true |}.

(** All eight steps of component and task start-up succeed. *)
Definition all_steps_succeed (env : Main.Startup) : bool :=
  Main.sync_created env && Main.model_initialized env
  && Main.controller_initialized env && Main.oled_initialized env
  && Main.lcd_initialized env && Main.controller_started env
  && Main.oled_started env && Main.lcd_started env.


(** Everything [cleanup()] releases is released. *)
Definition torn_down (g : Main.Globals) : Prop :=
  Main.g_controller g = false /\ Main.g_oledView g = false
  /\ Main.g_lcdView g = false
  /\ m_eventGroup (Main.g_sync g) = None
  /\ m_serialMutex (Main.g_sync g) = false.


(** *** Using a task manager *)

(** The tasks in use: the first [taskCount] slots. *)
Definition live (tm : TaskManager.t) : list TaskManager.Task :=
  take (Z.to_nat (TaskManager.taskCount tm)) (TaskManager.tasks tm).

(** The calls a user interface makes on a task manager. *)
Inductive TaskCall : Set :=
| Call_addTask (title : option string) (priority category : Z)
| Call_deleteTask (taskId : Z)
| Call_toggleTaskComplete (taskId : Z)
| Call_editTask (taskId : Z) (newTitle : option string) (newPriority newCategory : Z)
| Call_sortTasks (sortType : TaskManager.SortBy)
| Call_reset.

Definition task_call (c : TaskCall) (tm : TaskManager.t) : TaskManager.t :=
  match c with
  | Call_addTask title priority category =>
    snd (TaskManager.addTask title priority category tm)
  | Call_deleteTask taskId => snd (TaskManager.deleteTask taskId tm)
  | Call_toggleTaskComplete taskId => snd (TaskManager.toggleTaskComplete taskId tm)
  | Call_editTask taskId newTitle newPriority newCategory =>
    snd (TaskManager.editTask taskId newTitle newPriority newCategory tm)
  | Call_sortTasks sortType => TaskManager.sortTasks sortType tm
  | Call_reset => TaskManager.reset tm
  end.

Definition task_calls (cs : list TaskCall) (tm : TaskManager.t) : TaskManager.t :=
  fold_left (fun tm c => task_call c tm) cs tm.

(** A task as [addTask] and [editTask] leave it. *)
Definition task_ok (task : TaskManager.Task) : Prop :=
  1 <= TaskManager.priority task <= 5
  /\ 0 <= TaskManager.category task <= 3
  /\ (String.length (TaskManager.title task) <= 31)%nat
  /\ 0 <= TaskManager.id task < 2 ^ 16.

(** The invariant of a task manager. *)
Definition tasks_ok (tm : TaskManager.t) : Prop :=
  length (TaskManager.tasks tm) = 30%nat
  /\ 0 <= TaskManager.taskCount tm <= 30
  /\ 0 <= TaskManager.nextId tm < 2 ^ 16
  /\ TaskManager.filterActive tm = false
  /\ TaskManager.filteredCount tm = TaskManager.taskCount tm
  /\ Forall task_ok (live tm).

(** One pass of the inner loop of [sortTasks] seen on a list: [x] is carried
    through the next [k] elements and changes places where [swap] says so. *)
Fixpoint sink (swap : TaskManager.Task -> TaskManager.Task -> bool) (k : nat)
         (x : TaskManager.Task) (l : list TaskManager.Task)
  : list TaskManager.Task :=
  match k, l with
  | S k', y :: r =>
    if swap x y then y :: sink swap k' x r else x :: sink swap k' y r
  | _, _ => x :: l
  end.

(** The order a sort criterion asks for: higher priority first, open tasks
    before completed ones, lower category first. *)
Definition placed_before (sortType : TaskManager.SortBy)
           (a b : TaskManager.Task) : Prop :=
  match sortType with
  | TaskManager.SORT_BY_PRIORITY => TaskManager.priority b <= TaskManager.priority a
  | TaskManager.SORT_BY_STATUS =>
    TaskManager.isComplete a = true -> TaskManager.isComplete b = true
  | TaskManager.SORT_BY_CATEGORY => TaskManager.category a <= TaskManager.category b
  | TaskManager.SORT_BY_CREATION_ORDER => True
  end.

(** The ids in use are distinct and all below [nextId], which has not
    wrapped around. *)
Definition ids_fresh (tm : TaskManager.t) : Prop :=
  1 <= TaskManager.nextId tm
  /\ NoDup (TaskManager.id <$> live tm)
  /\ Forall (fun task => 1 <= TaskManager.id task < TaskManager.nextId tm) (live tm).

(** A task manager as constructed, and one with three tasks added. *)
Definition new_manager : TaskManager.t := TaskManager.create (replicate 30 0).

Definition three_tasks : TaskManager.t :=
  task_calls [ Call_addTask (Some "Buy milk") 2 2;
               Call_addTask (Some "Write report") 5 0;
               Call_addTask (Some "Call home") 9 7 ] new_manager.

(** *** Looking at what a view has drawn *)




(** A computation that only looks at the model and asks the scheduler. *)
Definition reads_only {A} (c : M A) : Prop :=
  forall w, model (exec c w) = model w /\ moves_on w (exec c w).

(** The text that a line of the LCD receives. *)
Definition lcd_line (text : string) : string :=
  substring 0 16 (text ++ "                ")%string.

Fixpoint spaces (n : nat) : string :=
  match n with
  | O => EmptyString
  | S n' => (" " ++ spaces n')%string
  end.

(** * Properties *)

Ltac run :=
  unfold exec, eval, getCurrentMenuItem, getMenuIndex, setMenuIndex,
    incrementMenuIndex, decrementMenuIndex, getCurrentState, setState,
    hasStateChanged, clearStateChanged, setCurrentTime, bind, ret,
    xSemaphoreTake_state, xSemaphoreGive_state, get_model, modify_model,
    Serial_out, rtc_now, granted_next, refused_next in *;
  cbn [fst snd model serial rtc sem_grants sem_calls] in *.

Ltac ups_and_downs :=
  repeat (constructor; [first [left; reflexivity | right; reflexivity] |]);
  constructor.

(** ** The model: mutators and accessors *)

Section ModelProperties.

Implicit Types (w : World) (m : Model.t).

Lemma m_menuLength_is_4 : m_menuLength = 4.
Proof. reflexivity. Qed.

Lemma SystemState_eqb_eq (a b : SystemState) :
  SystemState_eqb a b = true <-> a = b.
Proof. destruct a, b; simpl; split; congruence. Qed.

Lemma SystemState_eqb_refl (a : SystemState) : SystemState_eqb a a = true.
Proof. destruct a; reflexivity. Qed.

Lemma put_same w : put_model (model w) w = w.
Proof. destruct w; reflexivity. Qed.

(** *** Mutators, mutex granted *)

Lemma setMenuIndex_accepts w index :
  granted_next w -> 0 <= index < m_menuLength ->
  exec (setMenuIndex index) w
  = put_model (with_stateChanged true (with_menuIndex index (model w))) (asked w).
Proof.
  run. intros -> [Hlo Hhi].
  apply Z.leb_le in Hlo. apply Z.ltb_lt in Hhi. rewrite Hlo, Hhi. reflexivity.
Qed.

Lemma setMenuIndex_rejects w index :
  granted_next w -> index < 0 \/ m_menuLength <= index ->
  exec (setMenuIndex index) w = asked w.
Proof.
  run. intros -> Hout.
  destruct (0 <=? index) eqn:Hlo, (index <? m_menuLength) eqn:Hhi;
    try reflexivity.
  apply Z.leb_le in Hlo. apply Z.ltb_lt in Hhi. lia.
Qed.

Lemma setState_same w s :
  granted_next w -> s = m_currentState (model w) ->
  exec (setState s) w = asked w.
Proof. run. intros -> ->. rewrite SystemState_eqb_refl. reflexivity. Qed.

Lemma setState_other w s :
  granted_next w -> s <> m_currentState (model w) ->
  model (exec (setState s) w)
  = with_stateChanged true (with_currentState s (model w)).
Proof.
  run. intros -> Hne. cbn.
  destruct (SystemState_eqb (m_currentState (model w)) s) eqn:E.
  - apply SystemState_eqb_eq in E. congruence.
  - reflexivity.
Qed.

(** *** Any operation, mutex refused *)

Lemma refused_getMenuIndex w :
  refused_next w -> getMenuIndex w = (0, asked w).
Proof. run. intros ->. reflexivity. Qed.

Lemma refused_getCurrentState w :
  refused_next w -> getCurrentState w = (STATE_MENU, asked w).
Proof. run. intros ->. reflexivity. Qed.

Lemma granted_getMenuIndex w :
  granted_next w -> getMenuIndex w = (m_menuIndex (model w), asked w).
Proof. run. intros ->. reflexivity. Qed.

Lemma granted_getCurrentState w :
  granted_next w -> getCurrentState w = (m_currentState (model w), asked w).
Proof. run. intros ->. reflexivity. Qed.

(** *** Circular arithmetic on a 32-bit [int] *)

Lemma increment_in_range i :
  0 <= i < 4 -> CInt.rem (CInt.add i 1) m_menuLength = (i + 1) mod 4.
Proof.
  intros H.
  assert (i = 0 \/ i = 1 \/ i = 2 \/ i = 3) as [->|[->|[->| ->]]] by lia;
    reflexivity.
Qed.

Lemma decrement_in_range i :
  0 <= i < 4 ->
  CInt.rem (CInt.add (CInt.sub i 1) m_menuLength) m_menuLength = (i - 1) mod 4.
Proof.
  intros H.
  assert (i = 0 \/ i = 1 \/ i = 2 \/ i = 3) as [->|[->|[->| ->]]] by lia;
    reflexivity.
Qed.

Lemma incrementMenuIndex_granted w :
  granted_next w -> menu_index_in_range (model w) ->
  exec incrementMenuIndex w
  = put_model (with_stateChanged true
                 (with_menuIndex ((m_menuIndex (model w) + 1) mod 4) (model w)))
              (asked w).
Proof.
  intros Hg Hr. run. rewrite Hg. cbn.
  unfold put_model, asked, with_stateChanged, with_menuIndex; cbn.
  rewrite increment_in_range by exact Hr. reflexivity.
Qed.

Lemma decrementMenuIndex_granted w :
  granted_next w -> menu_index_in_range (model w) ->
  exec decrementMenuIndex w
  = put_model (with_stateChanged true
                 (with_menuIndex ((m_menuIndex (model w) - 1) mod 4) (model w)))
              (asked w).
Proof.
  intros Hg Hr. run. rewrite Hg. cbn.
  unfold put_model, asked, with_stateChanged, with_menuIndex; cbn.
  rewrite decrement_in_range by exact Hr. reflexivity.
Qed.

(** *** The range invariant *)

Lemma call_keeps_range c w :
  menu_index_in_range (model w) -> menu_index_in_range (model (exec (call c) w)).
Proof.
  intros Hr. unfold menu_index_in_range in *. rewrite m_menuLength_is_4 in *.
  destruct c; unfold call; run;
    destruct (sem_grants w (sem_calls w)); cbn; try exact Hr.
  - (* setMenuIndex *)
    destruct (0 <=? index) eqn:Hlo, (index <? m_menuLength) eqn:Hhi;
      cbn; try exact Hr.
    apply Z.leb_le in Hlo. apply Z.ltb_lt in Hhi.
    rewrite m_menuLength_is_4 in Hhi. lia.
  - (* incrementMenuIndex *)
    rewrite increment_in_range by exact Hr. apply Z.mod_pos_bound. lia.
  - (* decrementMenuIndex *)
    rewrite decrement_in_range by exact Hr. apply Z.mod_pos_bound. lia.
  - (* setState *)
    destruct (negb (SystemState_eqb (m_currentState (model w)) newState));
      cbn; exact Hr.
Qed.

Lemma calls_keep_range cs : forall w,
  menu_index_in_range (model w) -> menu_index_in_range (model (exec (calls cs) w)).
Proof.
  induction cs as [|c rest IH]; intros w Hr.
  - exact Hr.
  - change (exec (calls (c :: rest)) w) with (exec (calls rest) (exec (call c) w)).
    apply IH, call_keeps_range, Hr.
Qed.

End ModelProperties.

Section ModelClaims.

Implicit Types (w : World) (i : Z).

(** C4.  [Model::setMenuIndex(i)] with [i] outside [0, 4), the state mutex
    being granted, leaves the whole model as it was: the menu index and the
    changed flag keep their values, nothing is printed and nothing is
    returned. *)
Theorem setMenuIndex_out_of_range_is_noop w i :
  granted_next w -> i < 0 \/ 4 <= i ->
  model (exec (setMenuIndex i) w) = model w
  /\ m_menuIndex (model (exec (setMenuIndex i) w)) = m_menuIndex (model w)
  /\ m_stateChanged (model (exec (setMenuIndex i) w)) = m_stateChanged (model w)
  /\ serial (exec (setMenuIndex i) w) = serial w
  /\ eval (setMenuIndex i) w = tt.
Proof.
  intros Hg Hout. rewrite setMenuIndex_rejects by assumption.
  repeat split. destruct (eval _ _). reflexivity.
Qed.

Lemma setMenuIndex_out_of_range_is_noop_witness :
  model (exec (setMenuIndex 7) (world_of (model_at 2 STATE_MENU false) uncontended))
  = model_at 2 STATE_MENU false
  /\ model (exec (setMenuIndex (-1)) (world_of (model_at 3 STATE_ABOUT true) uncontended))
     = model_at 3 STATE_ABOUT true.
Proof.
  split.
  - apply (setMenuIndex_out_of_range_is_noop
             (world_of (model_at 2 STATE_MENU false) uncontended) 7);
      [reflexivity | right; lia].
  - apply (setMenuIndex_out_of_range_is_noop
             (world_of (model_at 3 STATE_ABOUT true) uncontended) (-1));
      [reflexivity | left; lia].
Defined.

(** C5, as the code has it.  With the state mutex granted,
    [Model::setState(s)] with [s] the current state changes nothing, the
    changed flag included, and prints nothing; [Model::setMenuIndex(i)]
    with [i] the current (in-range) index keeps the index, the state and
    the time but sets the changed flag. *)
Theorem suppression_only_in_setState w :
  granted_next w ->
  (forall s, s = m_currentState (model w) ->
     model (exec (setState s) w) = model w
     /\ serial (exec (setState s) w) = serial w)
  /\ (forall i, 0 <= i < 4 -> i = m_menuIndex (model w) ->
        model (exec (setMenuIndex i) w) = with_stateChanged true (model w)).
Proof.
  intros Hg. split.
  - intros s Hs. rewrite setState_same by assumption. split; reflexivity.
  - intros i Hi ->. rewrite setMenuIndex_accepts by assumption.
    destruct w as [[]]; reflexivity.
Qed.

Lemma suppression_only_in_setState_witness :
  model (exec (setState STATE_ABOUT)
              (world_of (model_at 2 STATE_ABOUT false) uncontended))
  = model_at 2 STATE_ABOUT false
  /\ model (exec (setMenuIndex 2)
                 (world_of (model_at 2 STATE_ABOUT false) uncontended))
     = model_at 2 STATE_ABOUT true.
Proof.
  pose proof (suppression_only_in_setState
                (world_of (model_at 2 STATE_ABOUT false) uncontended)
                eq_refl) as [Hs Hi].
  split.
  - apply (Hs STATE_ABOUT eq_refl).
  - apply (Hi 2); [lia | reflexivity].
Defined.

(** C5 fails for [setMenuIndex]: at index 2 with the changed flag clear and
    the mutex granted, [setMenuIndex(2)] raises the flag. *)
Lemma setMenuIndex_current_index_raises_flag :
  sem_grants (world_of (model_at 2 STATE_MENU false) uncontended)
             (sem_calls (world_of (model_at 2 STATE_MENU false) uncontended)) = true
  /\ m_menuIndex (model (world_of (model_at 2 STATE_MENU false) uncontended)) = 2
  /\ m_stateChanged (model (world_of (model_at 2 STATE_MENU false) uncontended)) = false
  /\ m_stateChanged
       (model (exec (setMenuIndex 2)
                    (world_of (model_at 2 STATE_MENU false) uncontended))) = true.
Proof. repeat split. Qed.

(** C6, as the code has it.  When the state mutex is refused,
    [Model::getMenuIndex] returns 0 and [Model::getCurrentState] returns
    [STATE_MENU], whatever the model holds and whatever was read before;
    the model is not touched. *)
Theorem refused_reads_return_defaults w :
  refused_next w ->
  eval getMenuIndex w = 0
  /\ eval getCurrentState w = STATE_MENU
  /\ model (exec getMenuIndex w) = model w
  /\ model (exec getCurrentState w) = model w.
Proof.
  intros Hr. unfold eval, exec.
  rewrite refused_getMenuIndex, refused_getCurrentState by assumption.
  repeat split.
Qed.

Lemma refused_reads_return_defaults_witness :
  eval getMenuIndex (exec getMenuIndex
                       (world_of (model_at 2 STATE_ABOUT false) granted_once)) = 0
  /\ eval getCurrentState (exec getMenuIndex
                       (world_of (model_at 2 STATE_ABOUT false) granted_once))
     = STATE_MENU.
Proof.
  pose proof (refused_reads_return_defaults
                (exec getMenuIndex
                   (world_of (model_at 2 STATE_ABOUT false) granted_once))
                eq_refl) as (H1 & H2 & _).
  split; assumption.
Defined.

(** C6 fails: with index 2 and state About in the model, a granted read
    observes 2 (resp. About); the next read is refused and returns 0 (resp.
    Menu), not the value observed last. *)
Lemma refused_read_forgets_last_value :
  eval getMenuIndex (world_of (model_at 2 STATE_ABOUT false) granted_once) = 2
  /\ sem_grants (exec getMenuIndex
                   (world_of (model_at 2 STATE_ABOUT false) granted_once))
                (sem_calls (exec getMenuIndex
                   (world_of (model_at 2 STATE_ABOUT false) granted_once))) = false
  /\ eval getMenuIndex
       (exec getMenuIndex (world_of (model_at 2 STATE_ABOUT false) granted_once)) = 0
  /\ eval getCurrentState (world_of (model_at 2 STATE_ABOUT false) granted_once)
     = STATE_ABOUT
  /\ eval getCurrentState
       (exec getCurrentState (world_of (model_at 2 STATE_ABOUT false) granted_once))
     = STATE_MENU.
Proof. repeat split. Qed.

(** C7.  From the constructed model (menu index 0), whatever operations of
    [Model] are called in whatever order and whatever the scheduler answers
    at each request for the mutex, the menu index stays within [0, 4). *)
Theorem menu_index_stays_in_range
        (cs : list ModelCall) (grants : nat -> bool) (asked_before : nat)
        (out : list SerialOut) (clock : DateTime) :
  0 <= m_menuIndex
         (model (exec (calls cs) (mkWorld Model.init out clock grants asked_before)))
    < 4.
Proof.
  apply (calls_keep_range cs (mkWorld Model.init out clock grants asked_before)).
  unfold menu_index_in_range. rewrite m_menuLength_is_4. cbn. lia.
Qed.

(** C10.  [Model::getMenuItem] is total: outside [0, 4) it returns
    "Invalid" without reading [m_menuItems]; inside, it returns the item at
    that index, which exists; and [Model::getCurrentMenuItem] returns a
    string in every world, whether the mutex is granted or not. *)
Theorem getMenuItem_total i w :
  (i < 0 \/ 4 <= i -> getMenuItem i = Some "Invalid")
  /\ (0 <= i < 4 ->
      getMenuItem i = m_menuItems !! Z.to_nat i
      /\ exists s, m_menuItems !! Z.to_nat i = Some s)
  /\ (exists s, getMenuItem i = Some s)
  /\ (getMenuItem 0 = Some "Home" /\ getMenuItem 1 = Some "Settings"
      /\ getMenuItem 2 = Some "About" /\ getMenuItem 3 = Some "Exit")
  /\ (menu_index_in_range (model w) ->
      exists s, eval getCurrentMenuItem w = Some s /\ s <> "Invalid")
  /\ (exists s, eval getCurrentMenuItem w = Some s).
Proof.
  assert (Hout : i < 0 \/ 4 <= i -> getMenuItem i = Some "Invalid").
  { intros Hi. unfold getMenuItem. rewrite m_menuLength_is_4.
    destruct (0 <=? i) eqn:Hlo, (i <? 4) eqn:Hhi; try reflexivity.
    apply Z.leb_le in Hlo. apply Z.ltb_lt in Hhi. lia. }
  assert (Hin : forall j, 0 <= j < 4 ->
            getMenuItem j = m_menuItems !! Z.to_nat j
            /\ exists s, m_menuItems !! Z.to_nat j = Some s /\ s <> "Invalid").
  { intros j Hj.
    assert (j = 0 \/ j = 1 \/ j = 2 \/ j = 3) as [->|[->|[->| ->]]] by lia;
      (split; [reflexivity | eexists; split; [reflexivity | discriminate]]). }
  assert (Hany : forall j, exists s, getMenuItem j = Some s).
  { intros j. destruct (Z_lt_dec j 0) as [|Hlo].
    - exists "Invalid". unfold getMenuItem.
      destruct (0 <=? j) eqn:E; [apply Z.leb_le in E; lia | reflexivity].
    - destruct (Z_lt_dec j 4) as [Hhi|Hhi].
      + assert (Hj : 0 <= j < 4) by lia.
        destruct (Hin j Hj) as [-> [s [Hs _]]]. eauto.
      + exists "Invalid". unfold getMenuItem. rewrite m_menuLength_is_4.
        destruct (j <? 4) eqn:E; [apply Z.ltb_lt in E; lia|].
        rewrite andb_false_r. reflexivity. }
  repeat split; try reflexivity.
  - exact Hout.
  - apply Hin; assumption.
  - destruct (Hin i H) as [_ [s [Hs _]]]. eauto.
  - apply Hany.
  - intros Hr. unfold menu_index_in_range in Hr. rewrite m_menuLength_is_4 in Hr.
    run. destruct (sem_grants w (sem_calls w)); cbn.
    + destruct (Hin _ Hr) as [-> Hs]. exact Hs.
    + exists "Home". split; [reflexivity | discriminate].
  - run. destruct (sem_grants w (sem_calls w)); cbn; apply Hany.
Qed.

Lemma getMenuItem_total_witness :
  getMenuItem 4 = Some "Invalid" /\ getMenuItem (-3) = Some "Invalid"
  /\ getMenuItem 2 = m_menuItems !! 2%nat.
Proof.
  split; [|split].
  - destruct (getMenuItem_total 4 (world_of Model.init uncontended)) as [H _].
    apply H. right; lia.
  - destruct (getMenuItem_total (-3) (world_of Model.init uncontended)) as [H _].
    apply H. left; lia.
  - destruct (getMenuItem_total 2 (world_of Model.init uncontended)) as (_ & H & _).
    apply H. lia.
Defined.

End ModelClaims.

(** ** The controller: the menu state machine *)

Section StateMachineProperties.

Implicit Types (w : World) (e : SystemEvent).

Lemma always_granted_next w : always_granted w -> granted_next w.
Proof. intros H. apply H. lia. Qed.

Lemma always_granted_asked w : always_granted w -> always_granted (asked w).
Proof. intros H k Hk. apply H. cbn in Hk. lia. Qed.

Lemma always_granted_put m w : always_granted w -> always_granted (put_model m w).
Proof. intros H k Hk. apply H. exact Hk. Qed.

Lemma uncontended_always_granted m : always_granted (world_of m uncontended).
Proof. intros k _. reflexivity. Qed.

Lemma exec_each_cons (h : SystemEvent -> M unit) e rest w :
  exec (each h (e :: rest)) w = exec (each h rest) (exec (h e) w).
Proof. reflexivity. Qed.

(** In the Menu state with the mutex granted, [handleEvent] hands the event
    to [handleMenuState]. *)
Lemma handleEvent_in_menu w e :
  granted_next w -> m_currentState (model w) = STATE_MENU ->
  exec (handleEvent e) w = exec (handleMenuState e) (asked w).
Proof.
  intros Hg Hs. unfold exec, handleEvent, bind.
  rewrite granted_getCurrentState by assumption. cbn [fst snd].
  rewrite Hs. reflexivity.
Qed.

Lemma handleMenuState_up_down w e :
  always_granted w -> menu_index_in_range (model w) ->
  e = EVENT_UP \/ e = EVENT_DOWN ->
  exec (handleMenuState e) w
  = put_model (with_stateChanged true
                 (with_menuIndex ((m_menuIndex (model w) + direction e) mod 4)
                                 (model w)))
              (asked w).
Proof.
  intros Hg Hr [-> | ->]; cbn [handleMenuState direction].
  - rewrite decrementMenuIndex_granted by auto using always_granted_next.
    reflexivity.
  - rewrite incrementMenuIndex_granted by auto using always_granted_next.
    reflexivity.
Qed.

Lemma occurrences_direction e rest :
  e = EVENT_UP \/ e = EVENT_DOWN ->
  occurrences EVENT_DOWN (e :: rest) - occurrences EVENT_UP (e :: rest)
  = direction e + (occurrences EVENT_DOWN rest - occurrences EVENT_UP rest).
Proof. intros [-> | ->]; cbn; lia. Qed.

(** The walk of the menu index under any handler that behaves like
    [handleMenuState] on Up and Down and keeps the world fit for the next
    event. *)
Lemma walk (h : SystemEvent -> M unit) (fit : World -> Prop) :
  (forall w e, fit w -> e = EVENT_UP \/ e = EVENT_DOWN ->
     fit (exec (h e) w)
     /\ m_menuIndex (model (exec (h e) w))
        = (m_menuIndex (model w) + direction e) mod 4) ->
  forall events w,
    fit w ->
    Forall (fun e => e = EVENT_UP \/ e = EVENT_DOWN) events ->
    0 <= m_menuIndex (model w) < 4 ->
    fit (exec (each h events) w)
    /\ m_menuIndex (model (exec (each h events) w))
       = (m_menuIndex (model w)
          + occurrences EVENT_DOWN events - occurrences EVENT_UP events) mod 4.
Proof.
  intros Hstep. induction events as [|e rest IH]; intros w Hfit Hall Hr.
  - split; [exact Hfit|]. cbn. rewrite Z.mod_small by lia. lia.
  - inversion Hall as [|? ? He Hrest]; subst.
    destruct (Hstep w e Hfit He) as [Hfit' Hidx].
    rewrite exec_each_cons.
    destruct (IH (exec (h e) w) Hfit' Hrest) as [Hfit'' Hfinal].
    { rewrite Hidx. apply Z.mod_pos_bound. lia. }
    split; [exact Hfit''|].
    rewrite Hfinal, Hidx.
    replace (m_menuIndex (model w) + occurrences EVENT_DOWN (e :: rest)
             - occurrences EVENT_UP (e :: rest))
      with ((m_menuIndex (model w) + direction e)
            + (occurrences EVENT_DOWN rest - occurrences EVENT_UP rest))
      by (pose proof (occurrences_direction e rest He); lia).
    rewrite <- Z.add_sub_assoc.
    rewrite Zplus_mod_idemp_l. reflexivity.
Qed.

End StateMachineProperties.

Section StateMachineClaims.

Implicit Types (w : World) (e : SystemEvent).

Local Lemma range_after_mod w m x :
  m_menuIndex m = x mod 4 -> menu_index_in_range m.
Proof.
  intros H. unfold menu_index_in_range. rewrite m_menuLength_is_4, H.
  apply Z.mod_pos_bound. lia.
Qed.

Local Lemma step_direct w e :
  fit_direct w -> e = EVENT_UP \/ e = EVENT_DOWN ->
  fit_direct (exec (handleMenuState e) w)
  /\ m_menuIndex (model (exec (handleMenuState e) w))
     = (m_menuIndex (model w) + direction e) mod 4.
Proof.
  intros [Hg Hr] He. rewrite handleMenuState_up_down by assumption.
  split; [split|].
  - apply always_granted_put, always_granted_asked, Hg.
  - eapply (range_after_mod w). reflexivity.
  - reflexivity.
Qed.

Local Lemma step_menu w e :
  fit_menu w -> e = EVENT_UP \/ e = EVENT_DOWN ->
  fit_menu (exec (handleEvent e) w)
  /\ m_menuIndex (model (exec (handleEvent e) w))
     = (m_menuIndex (model w) + direction e) mod 4.
Proof.
  intros (Hg & Hs & Hr) He.
  rewrite handleEvent_in_menu by auto using always_granted_next.
  rewrite handleMenuState_up_down
    by (try apply always_granted_asked; assumption).
  split; [split; [|split]|].
  - apply always_granted_put, always_granted_asked, always_granted_asked, Hg.
  - exact Hs.
  - eapply (range_after_mod w). reflexivity.
  - reflexivity.
Qed.

(** C1.  Let the controller handle any finite sequence of Up and Down
    events in the Menu state, every request for the state mutex being
    granted.  Then the menu index ends at
    [(initial + Downs - Ups) mod 4], and the state is still Menu.  The same
    holds when the events are given to [handleMenuState] directly.  The
    initial index is within [0, 4), as it is in every reachable model. *)
Theorem menu_index_after_ups_and_downs (events : list SystemEvent) w :
  always_granted w ->
  m_currentState (model w) = STATE_MENU ->
  0 <= m_menuIndex (model w) < 4 ->
  Forall (fun e => e = EVENT_UP \/ e = EVENT_DOWN) events ->
  m_menuIndex (model (exec (handleEvents events) w))
  = (m_menuIndex (model w)
     + occurrences EVENT_DOWN events - occurrences EVENT_UP events) mod 4
  /\ m_currentState (model (exec (handleEvents events) w)) = STATE_MENU
  /\ m_menuIndex (model (exec (each handleMenuState events) w))
     = (m_menuIndex (model w)
        + occurrences EVENT_DOWN events - occurrences EVENT_UP events) mod 4.
Proof.
  intros Hg Hs Hr Hall.
  assert (Hr' : menu_index_in_range (model w)) by exact Hr.
  destruct (walk handleEvent fit_menu step_menu events w) as [(_ & Hs' & _) Hi];
    [split; [|split]; assumption | assumption | assumption |].
  destruct (walk handleMenuState fit_direct step_direct events w) as [_ Hd];
    [split; assumption | assumption | assumption |].
  split; [|split]; assumption.
Qed.

Lemma menu_index_after_ups_and_downs_witness :
  m_menuIndex
    (model (exec (handleEvents [EVENT_DOWN; EVENT_UP; EVENT_UP; EVENT_UP; EVENT_DOWN])
                 (world_of (model_at 1 STATE_MENU false) uncontended)))
  = (1 + 2 - 3) mod 4.
Proof.
  refine (proj1 (menu_index_after_ups_and_downs
                   [EVENT_DOWN; EVENT_UP; EVENT_UP; EVENT_UP; EVENT_DOWN]
                   (world_of (model_at 1 STATE_MENU false) uncontended)
                   (uncontended_always_granted _) eq_refl _ _)).
  - cbn. lia.
  - ups_and_downs.
Defined.

(** What Select1 does in the Menu state, by menu index. *)
Lemma select1_in_menu w :
  always_granted w -> m_currentState (model w) = STATE_MENU ->
  (m_menuIndex (model w) = 0 ->
     model (exec (handleEvent EVENT_SELECT1) w) = with_currentTime (rtc w) (model w))
  /\ (m_menuIndex (model w) = 1 ->
     model (exec (handleEvent EVENT_SELECT1) w)
     = with_stateChanged true (with_currentState STATE_SETTINGS (model w)))
  /\ (m_menuIndex (model w) = 2 ->
     model (exec (handleEvent EVENT_SELECT1) w)
     = with_stateChanged true (with_currentState STATE_ABOUT (model w)))
  /\ (m_menuIndex (model w) = 3 ->
     model (exec (handleEvent EVENT_SELECT1) w)
     = with_stateChanged true (with_currentState STATE_CONFIRM_EXIT (model w))).
Proof.
  intros Hg Hs.
  pose proof (Hg (sem_calls w) ltac:(lia)) as H0.
  pose proof (Hg (S (sem_calls w)) ltac:(lia)) as H1.
  pose proof (Hg (S (S (sem_calls w))) ltac:(lia)) as H2.
  repeat split; intros Hi;
    unfold handleEvent, handleMenuState; run;
    rewrite H0; cbn; rewrite Hs; cbn; rewrite H1; cbn; rewrite Hi; cbn;
    try rewrite H2; cbn; rewrite ?Hs; reflexivity.
Qed.

(** C2, as the code has it.  With the menu Home, Settings, About, Exit and
    the state mutex granted at every request: from (Menu, index 0) the
    events Down, Down, Select1 lead to (About, index 2); and Select1 in the
    Menu state leaves the state alone at index 0 (it stores the RTC's time),
    and sets Settings at index 1, About at index 2, ConfirmExit at index 3. *)
Theorem down_down_select_reaches_about w :
  always_granted w ->
  m_currentState (model w) = STATE_MENU ->
  m_menuItems = ["Home"; "Settings"; "About"; "Exit"]
  /\ (m_menuIndex (model w) = 0 ->
      m_currentState
        (model (exec (handleEvents [EVENT_DOWN; EVENT_DOWN; EVENT_SELECT1]) w))
      = STATE_ABOUT
      /\ m_menuIndex
           (model (exec (handleEvents [EVENT_DOWN; EVENT_DOWN; EVENT_SELECT1]) w))
         = 2)
  /\ (m_menuIndex (model w) = 0 ->
      m_currentState (model (exec (handleEvent EVENT_SELECT1) w)) = STATE_MENU
      /\ m_menuIndex (model (exec (handleEvent EVENT_SELECT1) w)) = 0
      /\ m_stateChanged (model (exec (handleEvent EVENT_SELECT1) w))
         = m_stateChanged (model w)
      /\ m_currentTime (model (exec (handleEvent EVENT_SELECT1) w)) = rtc w)
  /\ (m_menuIndex (model w) = 1 ->
      m_currentState (model (exec (handleEvent EVENT_SELECT1) w)) = STATE_SETTINGS)
  /\ (m_menuIndex (model w) = 2 ->
      m_currentState (model (exec (handleEvent EVENT_SELECT1) w)) = STATE_ABOUT)
  /\ (m_menuIndex (model w) = 3 ->
      m_currentState (model (exec (handleEvent EVENT_SELECT1) w))
      = STATE_CONFIRM_EXIT).
Proof.
  intros Hg Hs.
  destruct (select1_in_menu w Hg Hs) as (S0 & S1 & S2 & S3).
  split; [reflexivity|]. split; [|repeat split].
  - intros Hi.
    assert (Hfit : fit_menu w).
    { split; [|split]; try assumption. unfold menu_index_in_range.
      rewrite m_menuLength_is_4, Hi. lia. }
    destruct (walk handleEvent fit_menu step_menu [EVENT_DOWN; EVENT_DOWN] w)
      as [(Hg' & Hs' & _) Hi']; [exact Hfit | ups_and_downs | rewrite Hi; lia |].
    rewrite Hi in Hi'. cbn in Hi'.
    change (handleEvents [EVENT_DOWN; EVENT_DOWN; EVENT_SELECT1])
      with (each handleEvent ([EVENT_DOWN; EVENT_DOWN] ++ [EVENT_SELECT1])).
    set (w2 := exec (each handleEvent [EVENT_DOWN; EVENT_DOWN]) w) in *.
    change (exec (each handleEvent ([EVENT_DOWN; EVENT_DOWN] ++ [EVENT_SELECT1])) w)
      with (exec (handleEvent EVENT_SELECT1) w2).
    destruct (select1_in_menu w2 Hg' Hs') as (_ & _ & T2 & _).
    rewrite (T2 Hi'). cbn. split; [reflexivity | exact Hi'].
  - rewrite (S0 H). exact Hs.
  - rewrite (S0 H). exact H.
  - rewrite (S0 H). reflexivity.
  - rewrite (S0 H). reflexivity.
  - intros Hi. rewrite (S1 Hi). reflexivity.
  - intros Hi. rewrite (S2 Hi). reflexivity.
  - intros Hi. rewrite (S3 Hi). reflexivity.
Qed.

Lemma down_down_select_reaches_about_witness :
  m_currentState
    (model (exec (handleEvents [EVENT_DOWN; EVENT_DOWN; EVENT_SELECT1])
                 (world_of Model.init uncontended))) = STATE_ABOUT
  /\ m_menuIndex
       (model (exec (handleEvents [EVENT_DOWN; EVENT_DOWN; EVENT_SELECT1])
                    (world_of Model.init uncontended))) = 2.
Proof.
  destruct (down_down_select_reaches_about (world_of Model.init uncontended)
              (uncontended_always_granted Model.init) eq_refl)
    as (_ & H & _).
  apply H. reflexivity.
Defined.

(** C2 fails without the condition on the mutex.  From the constructed
    model, (Menu, index 0) with the menu Home, Settings, About, Exit, let
    the second request for the state mutex be refused: the first Down is
    dropped, and Down, Down, Select1 end in (Settings, index 1).  And
    Select1 in the Menu state at index 2, with the read of the index
    refused, takes the branch of index 0 and stays in Menu. *)
Lemma refused_request_breaks_scenario :
  m_currentState Model.init = STATE_MENU
  /\ m_menuIndex Model.init = 0
  /\ m_currentState
       (model (exec (handleEvents [EVENT_DOWN; EVENT_DOWN; EVENT_SELECT1])
                    (world_of Model.init refused_2nd))) = STATE_SETTINGS
  /\ m_menuIndex
       (model (exec (handleEvents [EVENT_DOWN; EVENT_DOWN; EVENT_SELECT1])
                    (world_of Model.init refused_2nd))) = 1
  /\ m_currentState
       (model (exec (handleEvent EVENT_SELECT1)
                    (world_of (model_at 2 STATE_MENU false) refused_2nd)))
     = STATE_MENU.
Proof. repeat split. Qed.

End StateMachineClaims.

Section TransitionTable.

Implicit Types (w : World) (e : SystemEvent).

(** No request for the mutex changes what the model holds as state unless
    [setState] is reached: Up and Down touch the index only. *)
Lemma up_down_keep_state w e :
  e = EVENT_UP \/ e = EVENT_DOWN ->
  m_currentState (model (exec (handleMenuState e) w)) = m_currentState (model w).
Proof.
  intros [-> | ->]; cbn [handleMenuState]; run;
    destruct (sem_grants w (sem_calls w)); reflexivity.
Qed.

(** C8, as the code has it.  For a pair (state, event) that the table of
    §4.2 does not list, [Controller::handleEvent] leaves [fsm_state]
    unchanged whenever its read of the current state is granted the mutex
    (the whole model is then unchanged), and also when that read is refused
    and the event is not Select1. *)
Theorem unlisted_pairs_keep_state w e :
  table_lists (m_currentState (model w)) e = false ->
  (granted_next w -> model (exec (handleEvent e) w) = model w)
  /\ (granted_next w \/ e <> EVENT_SELECT1 ->
      m_currentState (model (exec (handleEvent e) w)) = m_currentState (model w)).
Proof.
  intros Hun.
  assert (Hgranted : granted_next w -> model (exec (handleEvent e) w) = model w).
  { intros Hg. unfold exec, handleEvent, bind.
    rewrite granted_getCurrentState by assumption. cbn [fst snd].
    destruct (m_currentState (model w)), e; try discriminate Hun; reflexivity. }
  split; [exact Hgranted|].
  intros [Hg | Hne].
  - rewrite Hgranted by assumption. reflexivity.
  - destruct (sem_grants w (sem_calls w)) eqn:Hfirst.
    + rewrite Hgranted by assumption. reflexivity.
    + unfold exec at 1. unfold handleEvent, bind.
      rewrite refused_getCurrentState by assumption. cbn [fst snd].
      destruct e; try congruence;
        first [ solve [apply (up_down_keep_state (asked w)); auto]
              | reflexivity ].
Qed.

Lemma unlisted_pairs_keep_state_witness :
  m_currentState
    (model (exec (handleEvent EVENT_SELECT1)
                 (world_of (model_at 1 STATE_ABOUT false) uncontended)))
  = STATE_ABOUT
  /\ m_currentState
       (model (exec (handleEvent EVENT_RIGHT)
                    (world_of (model_at 1 STATE_ABOUT false) (fun _ => false))))
     = STATE_ABOUT.
Proof.
  split.
  - apply (unlisted_pairs_keep_state
             (world_of (model_at 1 STATE_ABOUT false) uncontended)
             EVENT_SELECT1 eq_refl).
    left. reflexivity.
  - apply (unlisted_pairs_keep_state
             (world_of (model_at 1 STATE_ABOUT false) (fun _ => false))
             EVENT_RIGHT eq_refl).
    right. discriminate.
Defined.

(** C8 fails under contention.  From the constructed model the controller
    handles Down, Down, Select1 and is in About at index 2.  The read of
    the state for the next event, Up, is refused: the event is handled as
    in Menu and moves the index to 1.  The state is still About, and
    (About, Select1) is not in the table; the read for Select1 is refused
    as well, and the state becomes Settings. *)
Lemma refused_read_routes_to_menu :
  m_currentState
    (model (exec (handleEvents [EVENT_DOWN; EVENT_DOWN; EVENT_SELECT1; EVENT_UP])
                 (world_of Model.init refused_8th_10th))) = STATE_ABOUT
  /\ table_lists STATE_ABOUT EVENT_SELECT1 = false
  /\ m_currentState
       (model (exec (handleEvent EVENT_SELECT1)
                 (exec (handleEvents [EVENT_DOWN; EVENT_DOWN; EVENT_SELECT1; EVENT_UP])
                       (world_of Model.init refused_8th_10th)))) = STATE_SETTINGS.
Proof. repeat split. Qed.

End TransitionTable.

(** ** The readiness handshake *)

Section Handshake.

Lemma low_bits v : Z.land v 7 = v mod 8.
Proof. apply (Z.land_ones v 3). lia. Qed.

Lemma land_low v mask : Z.land 7 mask = mask -> Z.land v mask = Z.land (v mod 8) mask.
Proof. intros H. rewrite <- low_bits, <- Z.land_assoc, H. reflexivity. Qed.

(** Both ready bits are set exactly when the value masked by their union
    is that union. *)
Lemma both_ready_bits v :
  Z.land v (Z.lor DISPLAY_READY_BIT CONTROLLER_READY_BIT)
  = Z.lor DISPLAY_READY_BIT CONTROLLER_READY_BIT
  <-> bit_is_set CONTROLLER_READY_BIT v /\ bit_is_set DISPLAY_READY_BIT v.
Proof.
  unfold bit_is_set.
  change (Z.lor DISPLAY_READY_BIT CONTROLLER_READY_BIT) with 6.
  change CONTROLLER_READY_BIT with 4. change DISPLAY_READY_BIT with 2.
  rewrite (land_low v 6), (land_low v 4), (land_low v 2) by reflexivity.
  pose proof (Z.mod_pos_bound v 8 ltac:(lia)) as Hb.
  assert (v mod 8 = 0 \/ v mod 8 = 1 \/ v mod 8 = 2 \/ v mod 8 = 3
          \/ v mod 8 = 4 \/ v mod 8 = 5 \/ v mod 8 = 6 \/ v mod 8 = 7)
    as [E|[E|[E|[E|[E|[E|[E|E]]]]]]] by lia;
    rewrite E; clear; (split; [intros H; split | intros [H1 H2]]);
    compute in *; congruence.
Qed.

Lemma wait_from_satisfied (ok : Z -> bool) (value_at : nat -> Z) n : forall t,
  ok (FreeRTOS.wait_from ok value_at t n) = true
  <-> exists k, (t <= k <= t + n)%nat /\ ok (value_at k) = true.
Proof.
  induction n as [|n IH]; intros t; cbn [FreeRTOS.wait_from].
  - destruct (ok (value_at t)) eqn:E.
    + split; [intros _; exists t; split; [lia | exact E] | intros _; exact E].
    + split; [congruence|]. intros (k & Hk & Hok).
      assert (k = t) by lia. congruence.
  - destruct (ok (value_at t)) eqn:E.
    + split; [intros _; exists t; split; [lia | exact E] | intros _; exact E].
    + rewrite IH. split.
      * intros (k & Hk & Hok). exists k. split; [lia | exact Hok].
      * intros (k & Hk & Hok). exists k. split; [|exact Hok].
        assert (k <> t) by congruence. lia.
Qed.

Lemma waitForSystemReady_spec (s : Synchronization.t)
      (others : FreeRTOS.Interference) (timeout : nat) :
  waitForSystemReady s others timeout = true
  <-> exists bits t,
        m_eventGroup s = Some bits /\ (t <= timeout)%nat
        /\ bit_is_set CONTROLLER_READY_BIT (others t bits)
        /\ bit_is_set DISPLAY_READY_BIT (others t bits).
Proof.
  unfold waitForSystemReady, waitForAllBits.
  destruct (m_eventGroup s) as [bits|].
  - unfold FreeRTOS.xEventGroupWaitBits.
    set (required := Z.lor DISPLAY_READY_BIT CONTROLLER_READY_BIT).
    change (Z.land ?r required =? required)
      with (FreeRTOS.bits_satisfied true required r).
    rewrite wait_from_satisfied. split.
    + intros (k & Hk & Hok). exists bits, k.
      apply Z.eqb_eq, both_ready_bits in Hok.
      repeat split; try tauto; lia.
    + intros (b & k & Hb & Hk & Hc & Hd). injection Hb as <-.
      exists k. split; [lia|]. apply Z.eqb_eq, both_ready_bits. tauto.
  - split; [discriminate|]. intros (b & k & Hb & _). discriminate.
Qed.

Lemma turn_keeps_uninitialized k g :
  Main.g_systemInitialized g = false ->
  Main.g_systemInitialized (Main.turn k g) = false.
Proof.
  intros H. unfold Main.turn. destruct (Main.halted g); [exact H|].
  destruct k; unfold Main.loop, Main.systemStatusTask_iteration;
    rewrite H; exact H.
Qed.

Lemma run_keeps_uninitialized turns : forall g,
  Main.g_systemInitialized g = false ->
  Main.g_systemInitialized (Main.run turns g) = false.
Proof.
  induction turns as [|k rest IH]; intros g H; [exact H|].
  apply (IH (Main.turn k g)), turn_keeps_uninitialized, H.
Qed.

Lemma cleanup_keeps_flag g :
  Main.g_systemInitialized (Main.cleanup g) = Main.g_systemInitialized g.
Proof. reflexivity. Qed.

(** [setup] up to its call of [waitForSystemReady] never sets the flag. *)
Lemma at_wait_uninitialized env g :
  Main.at_wait env = Some g -> Main.g_systemInitialized g = false.
Proof.
  unfold Main.at_wait, Main.initializeHardware, Main.initializeComponents,
    Main.startTasks, Synchronization.initialize.
  destruct env as [sc mi ci oi li cs os ls sg oth rf]; cbn.
  destruct sc, mi, ci, oi, li, cs, os, ls; cbn; intros H;
    try discriminate H; injection H as <-; reflexivity.
Qed.

Lemma setup_after_wait env g :
  Main.at_wait env = Some g ->
  Main.setup env
  = let g' :=
      if waitForSystemReady (Main.g_sync g) (Main.others env)
           (FreeRTOS.pdMS_TO_TICKS 5000)
      then Main.say "=== System Ready ===" (Main.with_systemInitialized true g)
      else Main.cleanup (Main.say "System startup timeout!" g) in
    if negb (Main.rtc_found env)
    then Main.abort (Main.say "Couldn't find RTC" g') else g'.
Proof.
  unfold Main.at_wait, Main.setup.
  destruct (Main.initializeHardware _) as [[] g0]; cbn [negb]; [|discriminate].
  destruct (Main.initializeComponents env g0) as [[] g1]; cbn [negb];
    [|discriminate].
  destruct (Main.startTasks env g1) as [[] g2]; cbn [negb]; [|discriminate].
  intros H. injection H as <-. reflexivity.
Qed.

(** C9.  [Synchronization::waitForSystemReady(timeout)] returns [true]
    exactly when the event group exists and, at some tick up to the
    timeout, holds both the controller-ready and the display-ready bit.
    When the call made by [setup] returns [false], [setup] prints
    "System startup timeout!", leaves [g_systemInitialized] false, and no
    later turn of [loop] or of the status task sets it. *)
Theorem waitForSystemReady_gates_startup :
  (forall (s : Synchronization.t) (others : FreeRTOS.Interference) (timeout : nat),
      waitForSystemReady s others timeout = true
      <-> exists bits t,
            m_eventGroup s = Some bits /\ (t <= timeout)%nat
            /\ bit_is_set CONTROLLER_READY_BIT (others t bits)
            /\ bit_is_set DISPLAY_READY_BIT (others t bits))
  /\ (forall (env : Main.Startup) (g : Main.Globals) (turns : list Main.Turn),
        Main.at_wait env = Some g ->
        waitForSystemReady (Main.g_sync g) (Main.others env)
          (FreeRTOS.pdMS_TO_TICKS 5000) = false ->
        Main.g_systemInitialized (Main.setup env) = false
        /\ In (Println "System startup timeout!") (Main.console (Main.setup env))
        /\ Main.g_systemInitialized (Main.run turns (Main.setup env)) = false).
Proof.
  split; [exact waitForSystemReady_spec|].
  intros env g turns Hat Hwait.
  assert (Hflag : Main.g_systemInitialized (Main.setup env) = false).
  { rewrite (setup_after_wait env g Hat), Hwait. cbn zeta.
    pose proof (at_wait_uninitialized env g Hat) as Hg.
    destruct (Main.rtc_found env); cbn; exact Hg. }
  split; [exact Hflag|]. split.
  - rewrite (setup_after_wait env g Hat), Hwait. cbn zeta.
    destruct (Main.rtc_found env); cbn;
      rewrite ?in_app_iff; cbn; tauto.
  - apply run_keeps_uninitialized, Hflag.
Qed.

Lemma waitForSystemReady_gates_startup_witness :
  Main.g_systemInitialized (Main.setup (all_well display_bit_lost)) = false
  /\ In (Println "System startup timeout!")
        (Main.console (Main.setup (all_well display_bit_lost)))
  /\ Main.g_systemInitialized
       (Main.run [Main.LoopTurn true true; Main.StatusTurn 50 9 true]
                 (Main.setup (all_well display_bit_lost))) = false.
Proof.
  refine (proj2 waitForSystemReady_gates_startup
            (all_well display_bit_lost) _ _ eq_refl _).
  vm_compute. reflexivity.
Defined.

End Handshake.

(** ** The controller: debouncing *)

Section Debounce.

Local Close Scope string_scope.

Implicit Types (hw : Board) (b : ButtonConfig) (bs : list ButtonConfig).

Lemma event_of_index_lt i :
  (i < 6)%nat -> exists e, event_of_index i = Some e /\ e <> EVENT_NONE.
Proof.
  intros H. do 6 (destruct i as [|i]; [eexists; split; [reflexivity | discriminate]|]).
  lia.
Qed.

Lemma event_of_index_inj i j e :
  event_of_index i = Some e -> event_of_index j = Some e -> i = j.
Proof.
  intros Hi Hj.
  do 6 (destruct i as [|i];
        [do 6 (destruct j as [|j]; [cbn in *; congruence|]); discriminate|]).
  discriminate.
Qed.

Lemma event_of_index_Some i e : event_of_index i = Some e -> (i < 6)%nat.
Proof.
  intros H. do 6 (destruct i as [|i]; [lia|]). discriminate.
Qed.

Lemma insert_after_prefix (pre : list ButtonConfig) b rest x :
  <[length pre := x]> (pre ++ b :: rest) = pre ++ x :: rest.
Proof.
  replace (length pre) with (length pre + 0)%nat by lia.
  rewrite insert_app_r. reflexivity.
Qed.

(** The loop of [readButtons] is [poll_rest] on the buttons it has not
    visited yet. *)
Lemma readButtons_loop_poll_rest hw : forall suf pre,
  (length pre + length suf <= 6)%nat ->
  readButtons_loop (length suf) (length pre) hw (millis hw) (pre ++ suf)
  = ((pre ++ fst (poll_rest hw suf (length pre)))%list,
     event_at (snd (poll_rest hw suf (length pre)))).
Proof.
  induction suf as [|b rest IH]; intros pre Hlen.
  - reflexivity.
  - cbn [length] in Hlen.
    assert (Hnext : forall x,
              readButtons_loop (length rest) (S (length pre)) hw (millis hw)
                               (<[length pre := x]> (pre ++ b :: rest))
              = ((pre ++ x :: fst (poll_rest hw rest (S (length pre))))%list,
                 event_at (snd (poll_rest hw rest (S (length pre)))))).
    { intros x. rewrite insert_after_prefix.
      replace (pre ++ x :: rest) with ((pre ++ [x]) ++ rest)
        by (rewrite <- app_assoc; reflexivity).
      replace (S (length pre)) with (length (pre ++ [x]))
        by (rewrite length_app; cbn; lia).
      rewrite IH by (rewrite length_app; cbn; lia).
      rewrite <- app_assoc. reflexivity. }
    destruct (event_of_index_lt (length pre)) as (e & He & _); [lia|].
    cbn [length readButtons_loop poll_rest].
    rewrite list_lookup_middle by reflexivity.
    unfold poll_one.
    destruct (Bool.eqb (digitalRead hw (pin b)) (lastState b));
      cbn [negb];
      destruct (DEBOUNCE_DELAY <? _);
      try (cbn [fst snd]; apply Hnext).
    all: destruct (negb (pressed _) && Bool.eqb (digitalRead hw (pin b)) LOW);
      cbn [fst snd]; try apply Hnext.
    all: rewrite He, insert_after_prefix; unfold event_at; rewrite He; reflexivity.
Qed.

Lemma readButtons_poll_rest hw bs :
  length bs = 6%nat ->
  readButtons hw bs = (fst (poll_rest hw bs 0), event_at (snd (poll_rest hw bs 0))).
Proof.
  intros H. unfold readButtons.
  pose proof (readButtons_loop_poll_rest hw bs [] ltac:(cbn; lia)) as E.
  cbn [length app] in E. rewrite H in E. exact E.
Qed.

(** *** One button, one poll *)

Lemma usub_self t : CInt.usub t t = 0.
Proof. unfold CInt.usub, CInt.uwrap. rewrite Z.sub_diag. reflexivity. Qed.

Lemma usub_uwrap_le a L :
  L <= a -> CInt.usub (CInt.uwrap a) (CInt.uwrap L) <= a - L.
Proof.
  intros H. unfold CInt.usub, CInt.uwrap.
  rewrite <- Zminus_mod. apply Z.mod_le; lia.
Qed.

Ltac case_late :=
  repeat match goal with
         | |- context [DEBOUNCE_DELAY <? ?x] => destruct (DEBOUNCE_DELAY <? x)
         end.

Ltac open_button b :=
  destruct b as [p ls ldt pr];
  unfold poll_one, press_edge, settled, HIGH, LOW in *;
  cbn [pin lastState lastDebounceTime pressed] in *.

Ltac poll_cases :=
  cbn [Bool.eqb negb andb fst snd pin lastState lastDebounceTime pressed
       with_lastDebounceTime with_lastState with_pressed] in *;
  rewrite ?usub_self in *;
  try change (DEBOUNCE_DELAY <? 0) with false in *;
  cbn [Bool.eqb negb andb fst snd pin lastState lastDebounceTime pressed
       with_lastDebounceTime with_lastState with_pressed] in *.

Lemma poll_one_fires hw b : snd (poll_one hw b) = press_edge hw b.
Proof.
  open_button b.
  destruct (digitalRead hw p), ls, pr; poll_cases; case_late; reflexivity.
Qed.

Lemma poll_one_pin hw b : pin (fst (poll_one hw b)) = pin b.
Proof.
  open_button b.
  destruct (digitalRead hw p), ls, pr; poll_cases; case_late; reflexivity.
Qed.

Lemma poll_one_fired_pressed hw b :
  snd (poll_one hw b) = true ->
  pressed (fst (poll_one hw b)) = true /\ digitalRead hw (pin b) = LOW.
Proof.
  open_button b.
  destruct (digitalRead hw p), ls, pr; poll_cases; case_late; poll_cases;
    intros H; try discriminate H; split; reflexivity.
Qed.

(** A button registered as pressed stays so, and returns no event, as long
    as its line reads LOW. *)
Lemma poll_one_held hw b :
  pressed b = true -> digitalRead hw (pin b) = LOW ->
  snd (poll_one hw b) = false /\ pressed (fst (poll_one hw b)) = true.
Proof.
  open_button b. intros -> ->.
  destruct ls; poll_cases; case_late; poll_cases; split; reflexivity.
Qed.

Lemma settled_later te t t' b : t <= t' -> settled te t b -> settled te t' b.
Proof.
  intros Ht [H | [H | (L & HL & E)]]; [left | right; left | right; right];
    try assumption.
  exists L. split; [lia | exact E].
Qed.

(** A settled button that returns an event does so more than
    [DEBOUNCE_DELAY] ms after [te]. *)
Lemma poll_one_fires_late te t hw b :
  settled te t b -> t <= uptime_ms hw ->
  snd (poll_one hw b) = true -> DEBOUNCE_DELAY < uptime_ms hw - te.
Proof.
  intros Hs Ht Hf. rewrite poll_one_fires in Hf. unfold press_edge in Hf.
  apply andb_prop in Hf as [Hf Hlate].
  apply andb_prop in Hf as [Hf Hp].
  apply andb_prop in Hf as [_ Hl].
  apply negb_true_iff in Hp, Hl. apply Z.ltb_lt in Hlate.
  destruct Hs as [H | [H | (L & HL & E)]];
    [congruence | unfold HIGH in H; congruence |].
  rewrite E in Hlate. unfold millis in Hlate.
  pose proof (usub_uwrap_le (uptime_ms hw) L ltac:(lia)). lia.
Qed.

(** A settled button that returns no event is settled afterwards. *)
Lemma poll_one_stays_settled te t hw b :
  te <= t -> settled te t b -> t <= uptime_ms hw ->
  snd (poll_one hw b) = false -> settled te (uptime_ms hw) (fst (poll_one hw b)).
Proof.
  intros Hte Hs Ht. open_button b.
  destruct (digitalRead hw p) eqn:D.
  - (* the line reads HIGH *)
    intros _. right; left.
    destruct ls, pr; poll_cases; case_late; reflexivity.
  - (* the line reads LOW *)
    destruct ls; poll_cases.
    + (* it read HIGH before: the change is stamped now *)
      intros _. right; right. exists (uptime_ms hw). split; [lia | reflexivity].
    + destruct pr; case_late; poll_cases; intros Hf; try discriminate Hf;
        try (left; reflexivity).
      destruct Hs as [H | [H | (L & HL & E)]]; try discriminate H.
      right; right. exists L. split; [lia | exact E].
Qed.

(** *** The six buttons, one poll *)

(** What [poll_rest] returns: either the first button whose turn returns an
    event, the buttons before it polled and the buttons after it untouched;
    or none, every button polled. *)
Lemma poll_rest_spec hw : forall bs i,
  length (fst (poll_rest hw bs i)) = length bs
  /\ match snd (poll_rest hw bs i) with
     | Some j =>
       exists k b,
         j = (i + k)%nat /\ bs !! k = Some b /\ snd (poll_one hw b) = true
         /\ fst (poll_rest hw bs i) !! k = Some (fst (poll_one hw b))
         /\ (forall k' b', (k' < k)%nat -> bs !! k' = Some b' ->
               snd (poll_one hw b') = false
               /\ fst (poll_rest hw bs i) !! k' = Some (fst (poll_one hw b')))
         /\ (forall k', (k < k')%nat -> fst (poll_rest hw bs i) !! k' = bs !! k')
     | None =>
       forall k b, bs !! k = Some b ->
         snd (poll_one hw b) = false
         /\ fst (poll_rest hw bs i) !! k = Some (fst (poll_one hw b))
     end.
Proof.
  induction bs as [|b rest IH]; intros i.
  - split; [reflexivity|]. cbn. intros k b Hk. discriminate Hk.
  - cbn [poll_rest]. destruct (snd (poll_one hw b)) eqn:Hb; cbn [fst snd].
    + split; [reflexivity|]. exists 0%nat, b.
      split; [lia|]. split; [reflexivity|]. split; [exact Hb|].
      split; [reflexivity|]. split.
      * intros k' b' Hk'. lia.
      * intros k' Hk'. destruct k'; [lia | reflexivity].
    + destruct (IH (S i)) as [Hlen Hrest]. split; [cbn; lia|].
      destruct (snd (poll_rest hw rest (S i))) as [j|].
      * destruct Hrest as (k & b0 & Hj & Hk & Hf & Hk' & Hbefore & Hafter).
        exists (S k), b0.
        split; [lia|]. split; [exact Hk|]. split; [exact Hf|].
        split; [exact Hk'|]. split.
        -- intros k' b' Hlt Hb'. destruct k' as [|k']; cbn in Hb'.
           ++ injection Hb' as <-. split; [exact Hb | reflexivity].
           ++ apply (Hbefore k' b'); [lia | exact Hb'].
        -- intros k' Hlt. destruct k' as [|k']; [lia|].
           cbn. apply Hafter. lia.
      * intros k b0 Hk. destruct k as [|k]; cbn in Hk.
        -- injection Hk as <-. split; [exact Hb | reflexivity].
        -- apply (Hrest k b0 Hk).
Qed.

(** One line across one call of [readButtons]: the call returns the line's
    event and the button was polled with an event; or it returns something
    else and the button was left alone or polled without an event. *)
Lemma readButtons_line hw bs k b :
  length bs = 6%nat -> bs !! k = Some b ->
  length (fst (readButtons hw bs)) = 6%nat
  /\ ((event_of_index k = Some (snd (readButtons hw bs))
       /\ snd (poll_one hw b) = true
       /\ fst (readButtons hw bs) !! k = Some (fst (poll_one hw b))
       /\ forall j b', (j < k)%nat -> bs !! j = Some b' ->
                       snd (poll_one hw b') = false)
      \/ (event_of_index k <> Some (snd (readButtons hw bs))
          /\ (fst (readButtons hw bs) !! k = Some b
              /\ (exists j b', (j < k)%nat /\ bs !! j = Some b'
                               /\ snd (poll_one hw b') = true)
              \/ snd (poll_one hw b) = false
                 /\ fst (readButtons hw bs) !! k = Some (fst (poll_one hw b))))).
Proof.
  intros Hlen Hk. rewrite readButtons_poll_rest by assumption. cbn [fst snd].
  destruct (poll_rest_spec hw bs 0) as [Hl Hspec].
  split; [lia|].
  assert (Hk6 : (k < 6)%nat) by (rewrite <- Hlen; eapply lookup_lt_Some; eauto).
  destruct (event_of_index_lt k Hk6) as (ek & Hek & Hnone).
  destruct (snd (poll_rest hw bs 0)) as [j|]; cbn [event_at].
  - destruct Hspec as (k0 & b0 & -> & Hk0 & Hf & Hk0' & Hbefore & Hafter).
    cbn [Nat.add].
    assert (Hk06 : (k0 < 6)%nat) by (rewrite <- Hlen; eapply lookup_lt_Some; eauto).
    destruct (event_of_index_lt k0 Hk06) as (e0 & He0 & _). rewrite He0.
    destruct (lt_eq_lt_dec k k0) as [[Hlt | ->] | Hgt].
    + right. split.
      * intros E. rewrite <- He0 in E.
        destruct (event_of_index k) eqn:E1; [|discriminate].
        pose proof (event_of_index_inj k k0 s E1 (eq_sym E)). lia.
      * right. apply (Hbefore k b Hlt Hk).
    + left. assert (b0 = b) as -> by congruence.
      split; [exact He0|]. split; [exact Hf|]. split; [exact Hk0'|].
      intros j b' Hj Hb'. apply (Hbefore j b' Hj Hb').
    + right. split.
      * intros E. rewrite <- He0 in E.
        destruct (event_of_index k) eqn:E1; [|discriminate].
        pose proof (event_of_index_inj k k0 s E1 (eq_sym E)). lia.
      * left. split; [rewrite Hafter by lia; exact Hk|].
        exists k0, b0. split; [lia|]. split; assumption.
  - right. split; [congruence|]. right. apply (Hspec k b Hk).
Qed.

(** *** Polling again and again *)

Lemma pollButtons_cons hw polls bs :
  snd (pollButtons (hw :: polls) bs)
  = snd (readButtons hw bs) :: snd (pollButtons polls (fst (readButtons hw bs))).
Proof.
  cbn [pollButtons]. destruct (readButtons hw bs) as [bs' e]. cbn [fst snd].
  destruct (pollButtons polls bs'). reflexivity.
Qed.

Lemma paced_in_order t polls : paced_from t polls -> in_order polls.
Proof. destruct polls as [|hw rest]; [trivial | intros [_ H]; exact H]. Qed.

Lemma paced_earlier t t' polls : t' <= t -> paced_from t polls -> paced_from t' polls.
Proof.
  destruct polls as [|hw rest]; [trivial|]. intros Ht [H Hrest].
  split; [lia | exact Hrest].
Qed.

(** A settled line returns no event within [DEBOUNCE_DELAY] of [te]. *)
Lemma no_event_before_delay k e te : forall polls bs t b,
  event_of_index k = Some e ->
  length bs = 6%nat -> bs !! k = Some b ->
  te <= t -> settled te t b -> paced_from t polls ->
  forall j q,
    snd (pollButtons polls bs) !! j = Some e -> polls !! j = Some q ->
    DEBOUNCE_DELAY < uptime_ms q - te.
Proof.
  induction polls as [|hw rest IH]; intros bs t b He Hlen Hk Hte Hs Hp j q Hev Hq.
  - discriminate Hq.
  - destruct Hp as [Ht Hrest]. rewrite pollButtons_cons in Hev.
    destruct (readButtons_line hw bs k b Hlen Hk) as [Hlen' Hline].
    set (r := readButtons hw bs) in *. clearbody r.
    destruct j as [|j]; cbn in Hev, Hq.
    + injection Hq as <-. injection Hev as Hev.
      destruct Hline as [(_ & Hf & _) | (Hne & _)]; [|congruence].
      apply (poll_one_fires_late te t hw b Hs Ht Hf).
    + assert (Hnext : exists b', fst r !! k = Some b'
                                 /\ settled te (uptime_ms hw) b').
      { destruct Hline as [(_ & Hf & Hb' & _) | (_ & [(Hb' & _) | (Hf & Hb')])].
        - eexists. split; [exact Hb'|]. left.
          apply (poll_one_fired_pressed hw b Hf).
        - exists b. split; [exact Hb'|]. apply (settled_later te t); assumption.
        - eexists. split; [exact Hb'|].
          apply (poll_one_stays_settled te t); assumption. }
      destruct Hnext as (b' & Hb' & Hs').
      apply (IH (fst r) (uptime_ms hw) b' He Hlen' Hb'
                ltac:(lia) Hs' Hrest j q Hev Hq).
Qed.

(** Two events of one line are more than [DEBOUNCE_DELAY] ms apart. *)
Lemma events_apart k e : forall polls bs i j p q,
  event_of_index k = Some e ->
  length bs = 6%nat -> in_order polls -> (i < j)%nat ->
  snd (pollButtons polls bs) !! i = Some e -> polls !! i = Some p ->
  snd (pollButtons polls bs) !! j = Some e -> polls !! j = Some q ->
  DEBOUNCE_DELAY < uptime_ms q - uptime_ms p.
Proof.
  induction polls as [|hw rest IH]; intros bs i j p q He Hlen Hord Hij Hi Hp Hj Hq.
  - discriminate Hp.
  - rewrite pollButtons_cons in Hi, Hj. cbn [in_order] in Hord.
    assert (Hk6 : (k < 6)%nat) by (eapply event_of_index_Some; eauto).
    destruct (lookup_lt_is_Some_2 bs k ltac:(lia)) as [b Hk].
    destruct (readButtons_line hw bs k b Hlen Hk) as [Hlen' Hline].
    set (r := readButtons hw bs) in *. clearbody r.
    destruct j as [|j]; [lia|]. cbn in Hj, Hq.
    destruct i as [|i]; cbn in Hi, Hp.
    + injection Hp as <-. injection Hi as Hi.
      destruct Hline as [(_ & Hf & Hb' & _) | (Hne & _)]; [|congruence].
      assert (Hs : settled (uptime_ms hw) (uptime_ms hw) (fst (poll_one hw b))).
      { left. apply (poll_one_fired_pressed hw b Hf). }
      apply (no_event_before_delay k e (uptime_ms hw) rest
               (fst r) (uptime_ms hw) _ He Hlen' Hb'
               ltac:(lia) Hs Hord j q Hj Hq).
    + apply (IH (fst r) i j p q He Hlen'
               (paced_in_order _ _ Hord) ltac:(lia) Hi Hp Hj Hq).
Qed.

(** A line that is registered as pressed returns no event while it keeps
    reading LOW. *)
Lemma no_event_while_held k e : forall polls bs b,
  event_of_index k = Some e ->
  length bs = 6%nat -> bs !! k = Some b -> pressed b = true ->
  forall j,
    (forall m q, (m <= j)%nat -> polls !! m = Some q -> digitalRead q (pin b) = LOW) ->
    snd (pollButtons polls bs) !! j <> Some e.
Proof.
  induction polls as [|hw rest IH]; intros bs b He Hlen Hk Hpr j Hlow Hev.
  - discriminate Hev.
  - rewrite pollButtons_cons in Hev.
    destruct (readButtons_line hw bs k b Hlen Hk) as [Hlen' Hline].
    pose proof (Hlow 0%nat hw ltac:(lia) eq_refl) as Hhw.
    destruct (poll_one_held hw b Hpr Hhw) as [Hnf Hpr'].
    set (r := readButtons hw bs) in *. clearbody r.
    destruct j as [|j]; cbn in Hev.
    + injection Hev as Hev.
      destruct Hline as [(_ & Hf & _) | (Hne & _)]; congruence.
    + assert (Hnext : exists b', fst r !! k = Some b'
                                 /\ pressed b' = true /\ pin b' = pin b).
      { destruct Hline as [(_ & Hf & _) | (_ & [(Hb' & _) | (_ & Hb')])].
        - congruence.
        - exists b. auto.
        - eexists. split; [exact Hb'|]. split; [exact Hpr' | apply poll_one_pin]. }
      destruct Hnext as (b' & Hb' & Hp' & Hpin).
      apply (IH (fst r) b' He Hlen' Hb' Hp' j); [|exact Hev].
      intros m q Hm Hq. rewrite Hpin. apply (Hlow (S m) q); [lia | exact Hq].
Qed.

(** Between two events of one line, the line has read HIGH at some poll:
    a line held LOW returns one event only. *)
Lemma events_need_release k e : forall polls bs b i j,
  event_of_index k = Some e ->
  length bs = 6%nat -> bs !! k = Some b -> (i < j)%nat ->
  snd (pollButtons polls bs) !! i = Some e ->
  snd (pollButtons polls bs) !! j = Some e ->
  ~ (forall m q, (i < m <= j)%nat -> polls !! m = Some q ->
                 digitalRead q (pin b) = LOW).
Proof.
  induction polls as [|hw rest IH]; intros bs b i j He Hlen Hk Hij Hi Hj Hlow.
  - discriminate Hi.
  - rewrite pollButtons_cons in Hi, Hj.
    destruct (readButtons_line hw bs k b Hlen Hk) as [Hlen' Hline].
    set (r := readButtons hw bs) in *. clearbody r.
    destruct j as [|j]; [lia|]. cbn in Hj.
    destruct i as [|i]; cbn in Hi.
    + injection Hi as Hi.
      destruct Hline as [(_ & Hf & Hb' & _) | (Hne & _)]; [|congruence].
      destruct (poll_one_fired_pressed hw b Hf) as [Hpr _].
      apply (no_event_while_held k e rest (fst r) _ He
               Hlen' Hb' Hpr j); [|exact Hj].
      intros m q Hm Hq. rewrite poll_one_pin.
      apply (Hlow (S m) q); [lia | exact Hq].
    + assert (Hnext : exists b', fst r !! k = Some b'
                                 /\ pin b' = pin b).
      { destruct Hline as [(_ & _ & Hb' & _) | (_ & [(Hb' & _) | (_ & Hb')])].
        - eexists. split; [exact Hb' | apply poll_one_pin].
        - exists b. auto.
        - eexists. split; [exact Hb' | apply poll_one_pin]. }
      destruct Hnext as (b' & Hb' & Hpin).
      apply (IH (fst r) b' i j He Hlen' Hb' ltac:(lia) Hi Hj).
      intros m q Hm Hq. rewrite Hpin. apply (Hlow (S m) q); [lia | exact Hq].
Qed.

(** *** A press from its first poll to its event *)

(** A call of [readButtons] keeps the pin of every line. *)
Lemma readButtons_keeps_pins hw bs j b'' :
  length bs = 6%nat -> fst (readButtons hw bs) !! j = Some b'' ->
  exists b', bs !! j = Some b' /\ pin b'' = pin b'.
Proof.
  intros Hlen Hj.
  destruct (lookup_lt_is_Some_2 bs 0 ltac:(lia)) as [b0 Hb0].
  destruct (readButtons_line hw bs 0 b0 Hlen Hb0) as [Hlen' _].
  assert (Hj6 : (j < 6)%nat) by (rewrite <- Hlen'; eapply lookup_lt_Some; eauto).
  destruct (lookup_lt_is_Some_2 bs j ltac:(lia)) as [b' Hb'].
  exists b'. split; [exact Hb'|].
  destruct (readButtons_line hw bs j b' Hlen Hb')
    as [_ [(_ & _ & H & _) | (_ & [(H & _) | (_ & H)])]];
    rewrite H in Hj; injection Hj as <-; auto using poll_one_pin.
Qed.

Lemma front_idle_next k hw polls bs :
  length bs = 6%nat -> front_idle k bs (hw :: polls) ->
  front_idle k (fst (readButtons hw bs)) polls.
Proof.
  intros Hlen Hidle j b'' Hj Hb'' q Hq.
  destruct (readButtons_keeps_pins hw bs j b'' Hlen Hb'') as (b' & Hb' & ->).
  apply (Hidle j b' Hj Hb'). right. exact Hq.
Qed.

(** With the lines in front idle, line [k] is polled: the call returns its
    event exactly when its turn of the loop does, and leaves the button as
    that turn leaves it. *)
Lemma readButtons_front_idle hw polls bs k b :
  length bs = 6%nat -> bs !! k = Some b -> front_idle k bs (hw :: polls) ->
  length (fst (readButtons hw bs)) = 6%nat
  /\ fst (readButtons hw bs) !! k = Some (fst (poll_one hw b))
  /\ (snd (poll_one hw b) = true ->
      event_of_index k = Some (snd (readButtons hw bs)))
  /\ (snd (poll_one hw b) = false ->
      event_of_index k <> Some (snd (readButtons hw bs))).
Proof.
  intros Hlen Hk Hidle.
  destruct (readButtons_line hw bs k b Hlen Hk)
    as [Hlen' [(He & Hf & Hb' & _)
              | (Hne & [(_ & j & b' & Hj & Hb' & Hf) | (Hf & Hb')])]].
  - split; [exact Hlen'|]. split; [exact Hb'|]. split; [auto | congruence].
  - exfalso. destruct (poll_one_fired_pressed hw b' Hf) as [_ Hlow].
    rewrite (Hidle j b' Hj Hb' hw) in Hlow by left. discriminate Hlow.
  - split; [exact Hlen'|]. split; [exact Hb'|]. split; [congruence | auto].
Qed.

(** The first poll that reads an idle, unregistered line LOW stamps the
    change and returns nothing for the line. *)
Lemma poll_one_press_seen hw b :
  pressed b = false -> lastState b = HIGH -> digitalRead hw (pin b) = LOW ->
  snd (poll_one hw b) = false
  /\ pressed (fst (poll_one hw b)) = false
  /\ lastState (fst (poll_one hw b)) = LOW
  /\ lastDebounceTime (fst (poll_one hw b)) = CInt.uwrap (uptime_ms hw).
Proof.
  open_button b. intros -> -> ->. poll_cases. repeat split.
Qed.

(** A line seen LOW since [t0] and not registered yet: its turn returns the
    event as soon as more than [DEBOUNCE_DELAY] ms have passed, and changes
    nothing before. *)
Lemma poll_one_counting hw b t0 :
  pressed b = false -> lastState b = LOW ->
  lastDebounceTime b = CInt.uwrap t0 ->
  digitalRead hw (pin b) = LOW -> 0 <= uptime_ms hw - t0 < 2 ^ 32 ->
  snd (poll_one hw b) = (DEBOUNCE_DELAY <? uptime_ms hw - t0)
  /\ (snd (poll_one hw b) = false -> fst (poll_one hw b) = b).
Proof.
  intros Hp Hl Ht Hd Hgap.
  assert (Hsub : CInt.usub (millis hw) (lastDebounceTime b) = uptime_ms hw - t0).
  { rewrite Ht. unfold millis, CInt.usub, CInt.uwrap.
    rewrite <- Zminus_mod. apply Z.mod_small. lia. }
  open_button b. subst pr ls. rewrite Hd. poll_cases. rewrite Hsub.
  destruct (DEBOUNCE_DELAY <? uptime_ms hw - t0); poll_cases;
    split; try reflexivity; intros H; try discriminate H; reflexivity.
Qed.

Lemma first_after_later t0 hw polls m :
  uptime_ms hw - t0 <= DEBOUNCE_DELAY ->
  first_after t0 (hw :: polls) (S m) <-> first_after t0 polls m.
Proof.
  intros Hearly. split.
  - intros (p & Hp & Hlate & Hfirst). exists p. split; [exact Hp|].
    split; [exact Hlate|]. intros m' p' Hm' Hp'.
    apply (Hfirst (S m') p'); [lia | exact Hp'].
  - intros (p & Hp & Hlate & Hfirst). exists p. split; [exact Hp|].
    split; [exact Hlate|]. intros m' p' Hm' Hp'.
    destruct m' as [|m']; cbn in Hp'.
    + injection Hp' as <-. exact Hearly.
    + apply (Hfirst m' p'); [lia | exact Hp'].
Qed.

Lemma counting_press k e t0 : forall polls bs b t,
  event_of_index k = Some e ->
  length bs = 6%nat -> bs !! k = Some b ->
  pressed b = false -> lastState b = LOW ->
  lastDebounceTime b = CInt.uwrap t0 ->
  t0 <= t -> paced_from t polls ->
  (forall q, q ∈ polls -> uptime_ms q - t0 < 2 ^ 32) ->
  (forall q, q ∈ polls -> digitalRead q (pin b) = LOW) ->
  front_idle k bs polls ->
  forall m, snd (pollButtons polls bs) !! m = Some e <-> first_after t0 polls m.
Proof.
  induction polls as [|hw rest IH];
    intros bs b t He Hlen Hk Hp Hl Hldt Ht0 Hpaced Hwrap Hlow Hidle m.
  - split; [intros H; discriminate H | intros (p & H & _); discriminate H].
  - destruct Hpaced as [Ht Hrest].
    destruct (readButtons_front_idle hw rest bs k b Hlen Hk Hidle)
      as (Hlen' & Hb' & Hyes & Hno).
    pose proof (front_idle_next k hw rest bs Hlen Hidle) as Hidle'.
    destruct (poll_one_counting hw b t0 Hp Hl Hldt) as [Hf Hsame];
      [apply Hlow; left | split; [lia | apply Hwrap; left] |].
    rewrite pollButtons_cons.
    set (r := readButtons hw bs) in *. clearbody r.
    destruct (DEBOUNCE_DELAY <? uptime_ms hw - t0) eqn:Hlate.
    + apply Z.ltb_lt in Hlate. specialize (Hyes Hf).
      destruct (poll_one_fired_pressed hw b Hf) as [Hpr _].
      destruct m as [|m]; cbn [lookup list_lookup].
      * split; [|intros _; congruence].
        intros _. exists hw. split; [reflexivity|]. split; [exact Hlate|].
        intros m' p' Hm'. lia.
      * split.
        -- intros Hev. exfalso.
           apply (no_event_while_held k e rest (fst r) _ He Hlen' Hb' Hpr m);
             [|exact Hev].
           intros m' q _ Hq. rewrite poll_one_pin. apply Hlow. right.
           apply list_elem_of_lookup. eauto.
        -- intros (p & _ & _ & Hfirst). exfalso.
           specialize (Hfirst 0%nat hw ltac:(lia) eq_refl). lia.
    + apply Z.ltb_ge in Hlate. specialize (Hno Hf). rewrite (Hsame Hf) in Hb'.
      destruct m as [|m]; cbn [lookup list_lookup].
      * split; [intros H; congruence|].
        intros (p & Hp0 & Hl0 & _). injection Hp0 as <-. lia.
      * rewrite first_after_later by exact Hlate.
        apply (IH (fst r) b (uptime_ms hw) He Hlen' Hb' Hp Hl Hldt);
          [lia | exact Hrest | | | exact Hidle'].
        -- intros q Hq. apply Hwrap. right. exact Hq.
        -- intros q Hq. apply Hlow. right. exact Hq.
Qed.

(** A press of an idle line, held LOW with the lines in front idle, is
    reported at the first poll more than [DEBOUNCE_DELAY] ms after the poll
    that saw it first, and at no other. *)
Lemma held_press_reported_once k e p0 rest bs b :
  event_of_index k = Some e ->
  length bs = 6%nat -> bs !! k = Some b ->
  pressed b = false -> lastState b = HIGH ->
  in_order (p0 :: rest) ->
  (forall q, q ∈ rest -> uptime_ms q - uptime_ms p0 < 2 ^ 32) ->
  (forall q, q ∈ p0 :: rest -> digitalRead q (pin b) = LOW) ->
  front_idle k bs (p0 :: rest) ->
  forall m, snd (pollButtons (p0 :: rest) bs) !! m = Some e
            <-> first_after (uptime_ms p0) (p0 :: rest) m.
Proof.
  intros He Hlen Hk Hp Hl Hord Hwrap Hlow Hidle m.
  destruct (readButtons_front_idle p0 rest bs k b Hlen Hk Hidle)
    as (Hlen' & Hb' & _ & Hno).
  pose proof (front_idle_next k p0 rest bs Hlen Hidle) as Hidle'.
  destruct (poll_one_press_seen p0 b Hp Hl) as (Hf & Hp' & Hl' & Hldt);
    [apply Hlow; left|].
  specialize (Hno Hf).
  rewrite pollButtons_cons.
  set (r := readButtons p0 bs) in *. clearbody r.
  destruct m as [|m]; cbn [lookup list_lookup].
  - split; [intros H; congruence|].
    intros (p & Hp0 & Hl0 & _). injection Hp0 as <-.
    unfold DEBOUNCE_DELAY in Hl0. lia.
  - rewrite first_after_later by (unfold DEBOUNCE_DELAY; lia).
    apply (counting_press k e (uptime_ms p0) rest (fst r) _ (uptime_ms p0)
             He Hlen' Hb' Hp' Hl' Hldt); [lia | exact Hord | exact Hwrap | |exact Hidle'].
    intros q Hq. rewrite poll_one_pin. apply Hlow. right. exact Hq.
Qed.

(** A registered line read HIGH more than [DEBOUNCE_DELAY] ms after its
    last change is released: the registration is cleared and the call does
    not return the line's event. *)
Lemma release_is_registered hw bs k b :
  length bs = 6%nat -> bs !! k = Some b ->
  pressed b = true -> lastState b = HIGH -> digitalRead hw (pin b) = HIGH ->
  DEBOUNCE_DELAY < CInt.usub (millis hw) (lastDebounceTime b) ->
  (forall j b', (j < k)%nat -> bs !! j = Some b' -> press_edge hw b' = false) ->
  event_of_index k <> Some (snd (readButtons hw bs))
  /\ exists b', fst (readButtons hw bs) !! k = Some b'
       /\ pressed b' = false /\ lastState b' = HIGH /\ pin b' = pin b.
Proof.
  intros Hlen Hk Hp Hl Hd Hlate Hfront.
  assert (Hone : poll_one hw b = (with_pressed false b, false)).
  { apply Z.ltb_lt in Hlate. open_button b. subst pr ls. rewrite Hd. poll_cases.
    rewrite Hlate. poll_cases. reflexivity. }
  destruct (readButtons_line hw bs k b Hlen Hk)
    as [_ [(_ & Hf & _) | (Hne & [(_ & j & b' & Hj & Hb' & Hf) | (_ & Hb')])]].
  - rewrite Hone in Hf. discriminate Hf.
  - rewrite poll_one_fires, (Hfront j b' Hj Hb') in Hf. discriminate Hf.
  - split; [exact Hne|]. rewrite Hone in Hb'. cbn [fst] in Hb'.
    exists (with_pressed false b). split; [exact Hb'|].
    split; [reflexivity|]. split; [exact Hl | reflexivity].
Qed.

(** *** The claim *)

Lemma first_press_edge_wins hw bs k b :
  length bs = 6%nat -> bs !! k = Some b -> press_edge hw b = true ->
  (forall j b', (j < k)%nat -> bs !! j = Some b' -> press_edge hw b' = false) ->
  event_of_index k = Some (snd (readButtons hw bs)).
Proof.
  intros Hlen Hk Hedge Hfirst.
  destruct (readButtons_line hw bs k b Hlen Hk)
    as [_ [(He & _) | (_ & [(_ & j & b' & Hj & Hb' & Hf) | (Hf & _)])]].
  - exact He.
  - rewrite poll_one_fires, (Hfirst j b' Hj Hb') in Hf. discriminate Hf.
  - rewrite poll_one_fires, Hedge in Hf. discriminate Hf.
Qed.

Lemma no_press_edge_no_event hw bs :
  length bs = 6%nat ->
  (forall k b, bs !! k = Some b -> press_edge hw b = false) ->
  snd (readButtons hw bs) = EVENT_NONE.
Proof.
  intros Hlen Hnone. rewrite readButtons_poll_rest by assumption. cbn [snd].
  destruct (poll_rest_spec hw bs 0) as [_ Hspec].
  destruct (snd (poll_rest hw bs 0)) as [j|]; [|reflexivity].
  destruct Hspec as (k & b & _ & Hk & Hf & _).
  rewrite poll_one_fires, (Hnone k b Hk) in Hf. discriminate Hf.
Qed.

Lemma event_means_press_edge hw bs k b :
  length bs = 6%nat -> bs !! k = Some b ->
  event_of_index k = Some (snd (readButtons hw bs)) ->
  press_edge hw b = true /\ digitalRead hw (pin b) = LOW.
Proof.
  intros Hlen Hk He.
  destruct (readButtons_line hw bs k b Hlen Hk) as [_ [(_ & Hf & _) | (Hne & _)]];
    [|congruence].
  split; [rewrite <- poll_one_fires; exact Hf|].
  apply (poll_one_fired_pressed hw b Hf).
Qed.

(** A press edge on a line behind the winning one is not consumed: the
    button is left as it was, for the next poll to see. *)
Lemma later_press_edge_deferred hw bs k b j b' :
  length bs = 6%nat -> bs !! k = Some b ->
  (j < k)%nat -> bs !! j = Some b' -> press_edge hw b' = true ->
  fst (readButtons hw bs) !! k = Some b.
Proof.
  intros Hlen Hk Hj Hb' Hedge. rewrite readButtons_poll_rest by assumption.
  cbn [fst]. destruct (poll_rest_spec hw bs 0) as [_ Hspec].
  destruct (snd (poll_rest hw bs 0)) as [j0|].
  - destruct Hspec as (k0 & b0 & _ & Hk0 & Hf & _ & Hbefore & Hafter).
    destruct (Nat.lt_ge_cases j k0) as [Hlt | Hge].
    + destruct (Hbefore j b' Hlt Hb') as [Hnf _].
      rewrite poll_one_fires, Hedge in Hnf. discriminate Hnf.
    + rewrite Hafter by lia. exact Hk.
  - destruct (Hspec j b' Hb') as [Hnf _].
    rewrite poll_one_fires, Hedge in Hnf. discriminate Hnf.
Qed.

(** C3, as the code has it.  One call of [Controller::readButtons] returns
    one event: that of the first of the six lines, in the order Up, Down,
    Left, Right, Select1, Select2, that shows a press edge, and [EVENT_NONE]
    when no line does; a press edge behind the first is kept for the next
    poll; the line of a returned event reads LOW, so a release returns
    nothing.  Over any sequence of polls in the order of the clock, two
    events of one line are more than 50 ms apart, and the line has read HIGH
    at a poll between them.  A press of an idle, unregistered line that is
    held LOW while the lines in front of it idle HIGH (the polls in the
    order of the clock and less than 2^32 ms after the first) is reported
    exactly once: at the first poll more than 50 ms after the poll that saw
    it first, and at no other.  A registered line read HIGH more than 50 ms
    after its last change, with no press edge in front, is idle and
    unregistered again after the call, which does not return its event.  In
    particular two presses of Up 10 ms apart, the second one held, return
    [EVENT_UP] once, and nothing on release; a press, a release and a press,
    each lasting 100 ms, return [EVENT_UP] twice. *)
Theorem readButtons_one_event_per_press :
  (forall hw bs, length bs = 6%nat ->
     (forall k b, bs !! k = Some b -> press_edge hw b = true ->
        (forall j b', (j < k)%nat -> bs !! j = Some b' -> press_edge hw b' = false) ->
        event_of_index k = Some (snd (readButtons hw bs)))
     /\ ((forall k b, bs !! k = Some b -> press_edge hw b = false) ->
         snd (readButtons hw bs) = EVENT_NONE)
     /\ (forall k b, bs !! k = Some b ->
           event_of_index k = Some (snd (readButtons hw bs)) ->
           press_edge hw b = true /\ digitalRead hw (pin b) = LOW)
     /\ (forall k b j b', bs !! k = Some b -> (j < k)%nat ->
           bs !! j = Some b' -> press_edge hw b' = true ->
           fst (readButtons hw bs) !! k = Some b))
  /\ (forall polls bs k e i j p q,
        event_of_index k = Some e -> length bs = 6%nat -> in_order polls ->
        (i < j)%nat ->
        snd (pollButtons polls bs) !! i = Some e -> polls !! i = Some p ->
        snd (pollButtons polls bs) !! j = Some e -> polls !! j = Some q ->
        50 < uptime_ms q - uptime_ms p)
  /\ (forall polls bs k e b i j,
        event_of_index k = Some e -> length bs = 6%nat -> bs !! k = Some b ->
        (i < j)%nat ->
        snd (pollButtons polls bs) !! i = Some e ->
        snd (pollButtons polls bs) !! j = Some e ->
        ~ (forall m q, (i < m <= j)%nat -> polls !! m = Some q ->
                       digitalRead q (pin b) = LOW))
  /\ (forall k e p0 rest bs b,
        event_of_index k = Some e -> length bs = 6%nat -> bs !! k = Some b ->
        pressed b = false -> lastState b = HIGH ->
        in_order (p0 :: rest) ->
        (forall q, q ∈ rest -> uptime_ms q - uptime_ms p0 < 2 ^ 32) ->
        (forall q, q ∈ p0 :: rest -> digitalRead q (pin b) = LOW) ->
        front_idle k bs (p0 :: rest) ->
        forall m, snd (pollButtons (p0 :: rest) bs) !! m = Some e
                  <-> first_after (uptime_ms p0) (p0 :: rest) m)
  /\ (forall hw bs k b,
        length bs = 6%nat -> bs !! k = Some b ->
        pressed b = true -> lastState b = HIGH ->
        digitalRead hw (pin b) = HIGH ->
        50 < CInt.usub (millis hw) (lastDebounceTime b) ->
        (forall j b', (j < k)%nat -> bs !! j = Some b' -> press_edge hw b' = false) ->
        event_of_index k <> Some (snd (readButtons hw bs))
        /\ exists b', fst (readButtons hw bs) !! k = Some b'
             /\ pressed b' = false /\ lastState b' = HIGH /\ pin b' = pin b)
  /\ snd (pollButtons two_presses_10ms_apart initializeButtons)
     = replicate 13 EVENT_NONE ++ EVENT_UP :: replicate 26 EVENT_NONE
  /\ snd (pollButtons press_release_press initializeButtons)
     = replicate 11 EVENT_NONE ++ EVENT_UP :: replicate 39 EVENT_NONE
       ++ EVENT_UP :: replicate 8 EVENT_NONE.
Proof.
  split; [|split; [|split; [|split; [|split; [|split]]]]].
  - intros hw bs Hlen. split; [|split; [|split]].
    + intros k b. apply first_press_edge_wins. exact Hlen.
    + apply no_press_edge_no_event. exact Hlen.
    + intros k b. apply event_means_press_edge. exact Hlen.
    + intros k b j b' Hk. apply later_press_edge_deferred; assumption.
  - intros polls bs k e i j p q. apply events_apart.
  - intros polls bs k e b i j. apply events_need_release.
  - intros k e p0 rest bs b. apply held_press_reported_once.
  - intros hw bs k b. apply release_is_registered.
  - vm_compute. reflexivity.
  - vm_compute. reflexivity.
Qed.

Lemma readButtons_one_event_per_press_witness :
  event_of_index 0 = Some (snd (readButtons (up_line 1065 LOW) up_low_since_1010))
  /\ 50 < 1255 - 1055
  /\ ~ (forall m q, (11 < m <= 51)%nat -> press_release_press !! m = Some q ->
                    digitalRead q BTN_UP_PIN = LOW)
  /\ snd (pollButtons up_held initializeButtons) !! 6%nat = Some EVENT_UP
  /\ pressed <$> fst (readButtons (up_line 1160 HIGH) up_released_at_1100) !! 0%nat
     = Some false.
Proof.
  destruct readButtons_one_event_per_press
    as (Hcall & Hwindow & Hrelease & Hheld & Hrearm & _).
  split; [|split; [|split; [|split]]].
  - destruct (Hcall (up_line 1065 LOW) up_low_since_1010 eq_refl) as [Hfirst _].
    apply (Hfirst 0%nat (mkButton BTN_UP_PIN LOW 1010 false) eq_refl eq_refl).
    intros j b' Hj. lia.
  - apply (Hwindow press_release_press initializeButtons 0%nat EVENT_UP
                   11%nat 51%nat (up_line 1055 LOW) (up_line 1255 LOW)
                   eq_refl eq_refl);
      [ cbn; repeat split; lia | lia
      | reflexivity | reflexivity | reflexivity | reflexivity ].
  - apply (Hrelease press_release_press initializeButtons 0%nat EVENT_UP
                    (mkButton BTN_UP_PIN HIGH 0 false) 11%nat 51%nat
                    eq_refl eq_refl eq_refl);
      [ lia | reflexivity | reflexivity ].
  - apply (Hheld 0%nat EVENT_UP (up_line 1000 LOW)
                 (map (fun n : nat => up_line (1000 + 10 * Z.of_nat n) LOW) (seq 1 9))
                 initializeButtons (mkButton BTN_UP_PIN HIGH 0 false)
                 eq_refl eq_refl eq_refl eq_refl eq_refl).
    + cbn. repeat split; lia.
    + intros q Hq. apply list_elem_of_fmap in Hq as (n & -> & Hn).
      apply elem_of_seq in Hn. cbn [uptime_ms up_line]. lia.
    + intros q Hq. apply elem_of_cons in Hq as [-> | Hq]; [reflexivity|].
      apply list_elem_of_fmap in Hq as (n & -> & _). reflexivity.
    + intros j b' Hj. lia.
    + exists (up_line 1060 LOW). split; [reflexivity|].
      split; [cbn; unfold DEBOUNCE_DELAY; lia|].
      intros m' p' Hm' Hp'. unfold DEBOUNCE_DELAY.
      do 6 (destruct m' as [|m']; [injection Hp' as <-; cbn; lia|]). lia.
  - destruct (Hrearm (up_line 1160 HIGH) up_released_at_1100
                0%nat (mkButton BTN_UP_PIN HIGH 1100 true)
                eq_refl eq_refl eq_refl eq_refl eq_refl)
      as (_ & b' & Hb' & Hp' & _).
    + reflexivity.
    + intros j b' Hj. lia.
    + rewrite Hb'. cbn. rewrite Hp'. reflexivity.
Defined.

(** C3 fails as the specification words it: a press edge may yield no
    event.  Up and Down are pressed together at 1000 ms and released
    together at 1070, polled every 10 ms: at 1060 the Down line shows a
    press edge as well, but the call returns at Up's event and never gets
    to it, and at 1070 the press is gone; Down is never returned.  And two
    presses of Up 10 ms apart, the second released after 30 ms, return no
    event at all. *)
Lemma press_edge_without_event :
  up_and_down_held !! 6%nat = Some (up_down_lines 1060 LOW LOW)
  /\ fst (pollButtons (take 6 up_and_down_held) initializeButtons) !! 1%nat
     = Some (mkButton BTN_DOWN_PIN LOW 1000 false)
  /\ press_edge (up_down_lines 1060 LOW LOW) (mkButton BTN_DOWN_PIN LOW 1000 false)
     = true
  /\ snd (pollButtons up_and_down_held initializeButtons)
     = replicate 6 EVENT_NONE ++ EVENT_UP :: replicate 13 EVENT_NONE
  /\ snd (pollButtons two_short_presses initializeButtons)
     = replicate 40 EVENT_NONE.
Proof. repeat split. Qed.

End Debounce.

Section Combinators.

Context (R : World -> World -> Prop).
Hypothesis R_refl : forall w, R w w.
Hypothesis R_trans : forall w1 w2 w3, R w1 w2 -> R w2 w3 -> R w1 w3.

Lemma relates_ret {A} (a : A) : relates R (ret a).
Proof. intros w. apply R_refl. Qed.

Lemma relates_bind {A B} (c : M A) (k : A -> M B) :
  relates R c -> (forall a, relates R (k a)) -> relates R (bind c k).
Proof.
  intros Hc Hk w. unfold exec, bind. cbn.
  apply (R_trans w (snd (c w))); [apply Hc | apply Hk].
Qed.

Lemma relates_each (h : SystemEvent -> M unit) :
  (forall e, relates R (h e)) -> forall events, relates R (each h events).
Proof.
  intros Hh. induction events as [|e rest IH].
  - apply relates_ret.
  - cbn [each]. apply relates_bind; [apply Hh | intros _; exact IH].
Qed.

End Combinators.

Section FlagDiscipline.

Implicit Types (w : World) (e : SystemEvent).

Lemma change_flagged_refl w : change_flagged w w.
Proof. split; [intros H; exact H | left; split; reflexivity]. Qed.

Lemma change_flagged_trans w1 w2 w3 :
  change_flagged w1 w2 -> change_flagged w2 w3 -> change_flagged w1 w3.
Proof.
  unfold change_flagged, flag_kept.
  intros [K1 C1] [K2 C2]. split; [auto|].
  destruct C2 as [[Hi Hs] | Hf]; [|right; exact Hf].
  destruct C1 as [[Hi1 Hs1] | Hf1].
  - left. split; congruence.
  - right. auto.
Qed.

Ltac flagged_op :=
  intros w; unfold change_flagged, flag_kept; run;
  destruct (sem_grants w (sem_calls w)); cbn;
  try (split; [intros H; exact H | left; split; reflexivity]).

Lemma getMenuIndex_flagged : relates change_flagged getMenuIndex.
Proof. flagged_op. Qed.

Lemma getCurrentState_flagged : relates change_flagged getCurrentState.
Proof. flagged_op. Qed.

Lemma hasStateChanged_flagged : relates change_flagged hasStateChanged.
Proof. flagged_op. Qed.

Lemma incrementMenuIndex_flagged : relates change_flagged incrementMenuIndex.
Proof. flagged_op. split; [reflexivity | right; reflexivity]. Qed.

Lemma decrementMenuIndex_flagged : relates change_flagged decrementMenuIndex.
Proof. flagged_op. split; [reflexivity | right; reflexivity]. Qed.

Lemma setMenuIndex_flagged index : relates change_flagged (setMenuIndex index).
Proof.
  flagged_op. destruct ((0 <=? index) && (index <? m_menuLength)); cbn.
  - split; [reflexivity | right; reflexivity].
  - split; [intros H; exact H | left; split; reflexivity].
Qed.

Lemma setState_flagged s : relates change_flagged (setState s).
Proof.
  flagged_op. destruct (negb (SystemState_eqb (m_currentState (model w)) s)); cbn.
  - split; [reflexivity | right; reflexivity].
  - split; [intros H; exact H | left; split; reflexivity].
Qed.

Lemma setCurrentTime_flagged dt : relates change_flagged (setCurrentTime dt).
Proof.
  intros w. unfold change_flagged, flag_kept. run.
  split; [intros H; exact H | left; split; reflexivity].
Qed.

Lemma Serial_out_flagged o : relates change_flagged (Serial_out o).
Proof.
  intros w. unfold change_flagged, flag_kept. run.
  split; [intros H; exact H | left; split; reflexivity].
Qed.

Lemma rtc_now_flagged : relates change_flagged rtc_now.
Proof.
  intros w. unfold change_flagged, flag_kept. run.
  split; [intros H; exact H | left; split; reflexivity].
Qed.

Ltac compose_flagged :=
  repeat first
    [ apply getMenuIndex_flagged | apply getCurrentState_flagged
    | apply hasStateChanged_flagged | apply incrementMenuIndex_flagged
    | apply decrementMenuIndex_flagged | apply setMenuIndex_flagged
    | apply setState_flagged | apply setCurrentTime_flagged
    | apply Serial_out_flagged | apply rtc_now_flagged
    | apply (relates_ret change_flagged change_flagged_refl)
    | apply (relates_bind change_flagged change_flagged_trans); [|intros ?] ].

Lemma handleMenuState_flagged e : relates change_flagged (handleMenuState e).
Proof.
  destruct e; cbn [handleMenuState]; compose_flagged.
  destruct a as [|p|p]; try destruct p as [p|p|]; try destruct p as [p|p|];
    compose_flagged.
Qed.

Lemma handleEvent_flagged e : relates change_flagged (handleEvent e).
Proof.
  unfold handleEvent. compose_flagged.
  destruct a.
  - apply handleMenuState_flagged.
  - destruct e; cbn [handleSettingsState]; compose_flagged.
  - destruct e; cbn [handleAboutState]; compose_flagged.
  - destruct e; cbn [handleConfirmExitState]; compose_flagged.
Qed.

Lemma call_flagged c :
  c <> Call_clearStateChanged -> relates change_flagged (call c).
Proof.
  intros Hc. destruct c; try congruence; cbn [call]; unfold getCurrentMenuItem;
    compose_flagged.
Qed.

Lemma calls_flagged cs :
  Call_clearStateChanged ∉ cs -> relates change_flagged (calls cs).
Proof.
  induction cs as [|c rest IH]; intros Hnot.
  - apply (relates_ret change_flagged change_flagged_refl).
  - cbn [calls].
    apply (relates_bind change_flagged change_flagged_trans).
    + apply call_flagged. intros ->. apply Hnot. left.
    + intros _. apply IH. intros Hin. apply Hnot. right. exact Hin.
Qed.

(** X1.  Once the changed flag is set it stays set: no operation of [Model]
    other than [clearStateChanged] lowers it, in any order and under any
    answers of the scheduler, and no event handled by the controller does. *)
Theorem changed_flag_stays_set (cs : list ModelCall) (events : list SystemEvent) w :
  m_stateChanged (model w) = true ->
  (Call_clearStateChanged ∉ cs -> m_stateChanged (model (exec (calls cs) w)) = true)
  /\ m_stateChanged (model (exec (handleEvents events) w)) = true.
Proof.
  intros Hset. split.
  - intros Hnot. apply (calls_flagged cs Hnot w). exact Hset.
  - apply (relates_each change_flagged change_flagged_refl change_flagged_trans
             handleEvent handleEvent_flagged events w).
    exact Hset.
Qed.

Lemma changed_flag_stays_set_witness :
  m_stateChanged
    (model (exec (calls [Call_setState STATE_MENU; Call_getMenuIndex;
                         Call_setMenuIndex 9; Call_hasStateChanged])
                 (world_of (model_at 1 STATE_MENU true) granted_once))) = true.
Proof.
  refine (proj1 (changed_flag_stays_set
                   [Call_setState STATE_MENU; Call_getMenuIndex;
                    Call_setMenuIndex 9; Call_hasStateChanged] []
                   (world_of (model_at 1 STATE_MENU true) granted_once)
                   eq_refl) _).
  intros Hin. repeat (apply elem_of_cons in Hin as [Hin | Hin]; [discriminate Hin|]).
  inversion Hin.
Defined.

(** X2.  No change goes unflagged: whenever one operation of [Model], or one
    event handled by the controller, leaves the menu index or the state
    different from what it was, the changed flag is set afterwards. *)
Theorem every_change_is_flagged w :
  (forall c,
     m_menuIndex (model (exec (call c) w)) <> m_menuIndex (model w)
     \/ m_currentState (model (exec (call c) w)) <> m_currentState (model w) ->
     m_stateChanged (model (exec (call c) w)) = true)
  /\ (forall e,
        m_menuIndex (model (exec (handleEvent e) w)) <> m_menuIndex (model w)
        \/ m_currentState (model (exec (handleEvent e) w)) <> m_currentState (model w) ->
        m_stateChanged (model (exec (handleEvent e) w)) = true).
Proof.
  split.
  - intros c Hdiff.
    assert (c = Call_clearStateChanged \/ c <> Call_clearStateChanged)
      as [-> | Hc] by (destruct c; auto; right; discriminate).
    + exfalso. revert Hdiff. cbn [call]. run.
      destruct (sem_grants w (sem_calls w)); cbn; intros [H | H]; congruence.
    + destruct (call_flagged c Hc w) as [_ [[Hi Hs] | Hf]].
      * destruct Hdiff; congruence.
      * exact Hf.
  - intros e Hdiff. destruct (handleEvent_flagged e w) as [_ [[Hi Hs] | Hf]].
    + destruct Hdiff; congruence.
    + exact Hf.
Qed.

Lemma every_change_is_flagged_witness :
  m_stateChanged
    (model (exec (handleEvent EVENT_DOWN)
                 (world_of (model_at 3 STATE_MENU false) uncontended))) = true.
Proof.
  refine (proj2 (every_change_is_flagged
                   (world_of (model_at 3 STATE_MENU false) uncontended))
                EVENT_DOWN _).
  left. vm_compute. discriminate.
Defined.

End FlagDiscipline.

Section Contention.

Implicit Types (w : World) (e : SystemEvent).

Lemma never_granted_asked w : never_granted w -> never_granted (asked w).
Proof. intros H k. apply H. Qed.

Lemma never_granted_next w : never_granted w -> refused_next w.
Proof. intros H. apply H. Qed.

(** X3.  A lock that cannot be had drops the operation and corrupts nothing.
    Every mutex-guarded operation of [Model] leaves model and console alone
    when its request is refused.  With every request refused, an event given
    to [handleEvent] changes neither menu index, state nor changed flag; only
    Select1 still stores the RTC's time, through [setCurrentTime], which
    takes no lock. *)
Theorem contention_drops_the_operation w :
  (forall c, refused_next w -> (forall dt, c <> Call_setCurrentTime dt) ->
     model (exec (call c) w) = model w /\ serial (exec (call c) w) = serial w)
  /\ (forall e, never_granted w ->
        m_menuIndex (model (exec (handleEvent e) w)) = m_menuIndex (model w)
        /\ m_currentState (model (exec (handleEvent e) w)) = m_currentState (model w)
        /\ m_stateChanged (model (exec (handleEvent e) w)) = m_stateChanged (model w)
        /\ m_currentTime (model (exec (handleEvent e) w))
           = match e with
             | EVENT_SELECT1 => rtc w
             | _ => m_currentTime (model w)
             end).
Proof.
  split.
  - intros c Hr Hc. destruct c; cbn [call]; try (exfalso; eapply Hc; reflexivity);
      run; rewrite Hr; split; reflexivity.
  - intros e Hn.
    pose proof (Hn (sem_calls w)) as H0. pose proof (Hn (S (sem_calls w))) as H1.
    unfold handleEvent, handleMenuState. run. rewrite H0. cbn.
    destruct e; cbn; rewrite ?H1; cbn; repeat split; reflexivity.
Qed.

Lemma contention_drops_the_operation_witness :
  model (exec (call Call_incrementMenuIndex)
              (world_of (model_at 2 STATE_MENU false) contended))
  = model_at 2 STATE_MENU false
  /\ m_currentState
       (model (exec (handleEvent EVENT_LEFT)
                    (world_of (model_at 2 STATE_ABOUT false) contended)))
     = STATE_ABOUT.
Proof.
  split.
  - refine (proj1 (proj1 (contention_drops_the_operation
                            (world_of (model_at 2 STATE_MENU false) contended))
                         Call_incrementMenuIndex eq_refl _)).
    intros dt. discriminate.
  - refine (proj1 (proj2 (proj2 (contention_drops_the_operation
                            (world_of (model_at 2 STATE_ABOUT false) contended))
                         EVENT_LEFT _))).
    intros k. reflexivity.
Defined.

End Contention.

Section SchedulerMovesOn.

Implicit Types (w : World) (e : SystemEvent).

Lemma moves_on_refl w : moves_on w w.
Proof. split; [reflexivity | lia]. Qed.

Lemma moves_on_trans w1 w2 w3 : moves_on w1 w2 -> moves_on w2 w3 -> moves_on w1 w3.
Proof. intros [G1 C1] [G2 C2]. split; [congruence | lia]. Qed.

Lemma take_moves_on : relates moves_on xSemaphoreTake_state.
Proof. intros w. split; [reflexivity | cbn; lia]. Qed.

Lemma get_model_moves_on : relates moves_on get_model.
Proof. intros w. apply moves_on_refl. Qed.

Lemma modify_model_moves_on f : relates moves_on (modify_model f).
Proof. intros w. split; [reflexivity | cbn; lia]. Qed.

Lemma Serial_out_moves_on o : relates moves_on (Serial_out o).
Proof. intros w. split; [reflexivity | cbn; lia]. Qed.

Lemma rtc_now_moves_on : relates moves_on rtc_now.
Proof. intros w. apply moves_on_refl. Qed.

Ltac compose_moves_on :=
  repeat first
    [ apply take_moves_on | apply get_model_moves_on
    | apply modify_model_moves_on | apply Serial_out_moves_on
    | apply rtc_now_moves_on
    | apply (relates_ret moves_on moves_on_refl)
    | apply (relates_bind moves_on moves_on_trans); [|intros ?]
    | match goal with
      | |- relates _ (if ?b then _ else _) => destruct b
      | |- relates _ (match ?x with _ => _ end) => destruct x
      end ].

Lemma handleEvent_moves_on e : relates moves_on (handleEvent e).
Proof.
  unfold handleEvent, handleMenuState, handleSettingsState, handleAboutState,
    handleConfirmExitState, getCurrentState, getMenuIndex, setState,
    incrementMenuIndex, decrementMenuIndex, setCurrentTime, xSemaphoreGive_state.
  destruct e; compose_moves_on.
Qed.

Lemma always_granted_moves_on w w' :
  moves_on w w' -> always_granted w -> always_granted w'.
Proof. intros [G C] H k Hk. rewrite G. apply H. lia. Qed.

End SchedulerMovesOn.

Section RoundTrips.

Implicit Types (w : World) (e : SystemEvent).

Lemma mod4_step_back i : 0 <= i < 4 -> ((i + 1) mod 4 - 1) mod 4 = i.
Proof.
  intros H.
  assert (i = 0 \/ i = 1 \/ i = 2 \/ i = 3) as [->|[->|[->| ->]]] by lia;
    reflexivity.
Qed.

Lemma mod4_back_step i : 0 <= i < 4 -> ((i - 1) mod 4 + 1) mod 4 = i.
Proof.
  intros H.
  assert (i = 0 \/ i = 1 \/ i = 2 \/ i = 3) as [->|[->|[->| ->]]] by lia;
    reflexivity.
Qed.

Lemma mod4_range x : menu_index_in_range
                       (with_stateChanged true (with_menuIndex (x mod 4) Model.init)).
Proof.
  unfold menu_index_in_range. rewrite m_menuLength_is_4. cbn.
  apply Z.mod_pos_bound. lia.
Qed.

Lemma increment_exec w :
  always_granted w -> menu_index_in_range (model w) ->
  always_granted (exec incrementMenuIndex w)
  /\ menu_index_in_range (model (exec incrementMenuIndex w))
  /\ m_menuIndex (model (exec incrementMenuIndex w)) = (m_menuIndex (model w) + 1) mod 4.
Proof.
  intros Hg Hr. rewrite incrementMenuIndex_granted by auto using always_granted_next.
  split; [apply always_granted_put, always_granted_asked, Hg|].
  split; [|reflexivity].
  unfold menu_index_in_range. rewrite m_menuLength_is_4. cbn.
  apply Z.mod_pos_bound. lia.
Qed.

Lemma decrement_exec w :
  always_granted w -> menu_index_in_range (model w) ->
  always_granted (exec decrementMenuIndex w)
  /\ menu_index_in_range (model (exec decrementMenuIndex w))
  /\ m_menuIndex (model (exec decrementMenuIndex w)) = (m_menuIndex (model w) - 1) mod 4.
Proof.
  intros Hg Hr. rewrite decrementMenuIndex_granted by auto using always_granted_next.
  split; [apply always_granted_put, always_granted_asked, Hg|].
  split; [|reflexivity].
  unfold menu_index_in_range. rewrite m_menuLength_is_4. cbn.
  apply Z.mod_pos_bound. lia.
Qed.

(** X4.  The menu index moves on a circle of four: with the mutex granted,
    an increment followed by a decrement, or a decrement followed by an
    increment, brings the index back, and so do four increments or four
    decrements in a row. *)
Theorem menu_index_moves_on_a_circle w :
  always_granted w -> menu_index_in_range (model w) ->
  m_menuIndex (model (exec (incrementMenuIndex ;;; decrementMenuIndex) w))
  = m_menuIndex (model w)
  /\ m_menuIndex (model (exec (decrementMenuIndex ;;; incrementMenuIndex) w))
     = m_menuIndex (model w)
  /\ m_menuIndex
       (model (exec (incrementMenuIndex ;;; incrementMenuIndex ;;;
                     incrementMenuIndex ;;; incrementMenuIndex) w))
     = m_menuIndex (model w)
  /\ m_menuIndex
       (model (exec (decrementMenuIndex ;;; decrementMenuIndex ;;;
                     decrementMenuIndex ;;; decrementMenuIndex) w))
     = m_menuIndex (model w).
Proof.
  intros Hg Hr.
  assert (Hr4 : 0 <= m_menuIndex (model w) < 4)
    by (unfold menu_index_in_range in Hr; rewrite m_menuLength_is_4 in Hr; exact Hr).
  destruct (increment_exec w Hg Hr) as (Hg1 & Hr1 & E1).
  destruct (decrement_exec w Hg Hr) as (Hg1' & Hr1' & E1').
  split; [|split; [|split]].
  - change (exec (incrementMenuIndex ;;; decrementMenuIndex) w)
      with (exec decrementMenuIndex (exec incrementMenuIndex w)).
    destruct (decrement_exec _ Hg1 Hr1) as (_ & _ & ->). rewrite E1.
    apply mod4_step_back, Hr4.
  - change (exec (decrementMenuIndex ;;; incrementMenuIndex) w)
      with (exec incrementMenuIndex (exec decrementMenuIndex w)).
    destruct (increment_exec _ Hg1' Hr1') as (_ & _ & ->). rewrite E1'.
    apply mod4_back_step, Hr4.
  - change (exec (incrementMenuIndex ;;; incrementMenuIndex ;;;
                  incrementMenuIndex ;;; incrementMenuIndex) w)
      with (exec incrementMenuIndex
              (exec incrementMenuIndex
                 (exec incrementMenuIndex (exec incrementMenuIndex w)))).
    destruct (increment_exec _ Hg1 Hr1) as (Hg2 & Hr2 & E2).
    destruct (increment_exec _ Hg2 Hr2) as (Hg3 & Hr3 & E3).
    destruct (increment_exec _ Hg3 Hr3) as (_ & _ & ->).
    rewrite E3, E2, E1.
    assert (m_menuIndex (model w) = 0 \/ m_menuIndex (model w) = 1
            \/ m_menuIndex (model w) = 2 \/ m_menuIndex (model w) = 3)
      as [->|[->|[->| ->]]] by lia; reflexivity.
  - change (exec (decrementMenuIndex ;;; decrementMenuIndex ;;;
                  decrementMenuIndex ;;; decrementMenuIndex) w)
      with (exec decrementMenuIndex
              (exec decrementMenuIndex
                 (exec decrementMenuIndex (exec decrementMenuIndex w)))).
    destruct (decrement_exec _ Hg1' Hr1') as (Hg2 & Hr2 & E2).
    destruct (decrement_exec _ Hg2 Hr2) as (Hg3 & Hr3 & E3).
    destruct (decrement_exec _ Hg3 Hr3) as (_ & _ & ->).
    rewrite E3, E2, E1'.
    assert (m_menuIndex (model w) = 0 \/ m_menuIndex (model w) = 1
            \/ m_menuIndex (model w) = 2 \/ m_menuIndex (model w) = 3)
      as [->|[->|[->| ->]]] by lia; reflexivity.
Qed.

Lemma menu_index_moves_on_a_circle_witness :
  m_menuIndex
    (model (exec (incrementMenuIndex ;;; decrementMenuIndex)
                 (world_of (model_at 3 STATE_MENU false) uncontended))) = 3.
Proof.
  refine (proj1 (menu_index_moves_on_a_circle
                   (world_of (model_at 3 STATE_MENU false) uncontended)
                   (uncontended_always_granted _) _)).
  unfold menu_index_in_range. rewrite m_menuLength_is_4. cbn. lia.
Defined.

(** Left or Select2 in a sub-screen, mutex granted: back to Menu. *)
Lemma back_to_menu w e :
  always_granted w -> m_currentState (model w) <> STATE_MENU ->
  e = EVENT_LEFT \/ e = EVENT_SELECT2 ->
  model (exec (handleEvent e) w)
  = with_stateChanged true (with_currentState STATE_MENU (model w)).
Proof.
  intros Hg Hs He.
  pose proof (Hg (sem_calls w) ltac:(lia)) as H0.
  pose proof (Hg (S (sem_calls w)) ltac:(lia)) as H1.
  unfold handleEvent, handleSettingsState, handleAboutState,
    handleConfirmExitState. run. rewrite H0. cbn.
  destruct (m_currentState (model w)) eqn:E; [congruence | | |];
    destruct He as [-> | ->]; cbn; rewrite H1; cbn; rewrite E; reflexivity.
Qed.

(** X5.  Entering a sub-screen and leaving it again is a round trip: from the
    Menu state at index 1, 2 or 3, Select1 followed by Left or Select2, with
    the mutex granted throughout, ends in the Menu state at the same index,
    having passed through Settings, About or ConfirmExit. *)
Theorem sub_screen_round_trip w back :
  always_granted w -> m_currentState (model w) = STATE_MENU ->
  1 <= m_menuIndex (model w) <= 3 ->
  back = EVENT_LEFT \/ back = EVENT_SELECT2 ->
  m_currentState (model (exec (handleEvent EVENT_SELECT1) w))
  = match m_menuIndex (model w) with
    | 1 => STATE_SETTINGS
    | 2 => STATE_ABOUT
    | _ => STATE_CONFIRM_EXIT
    end
  /\ m_currentState (model (exec (handleEvents [EVENT_SELECT1; back]) w)) = STATE_MENU
  /\ m_menuIndex (model (exec (handleEvents [EVENT_SELECT1; back]) w))
     = m_menuIndex (model w).
Proof.
  intros Hg Hs Hi Hback.
  destruct (select1_in_menu w Hg Hs) as (_ & S1 & S2 & S3).
  change (exec (handleEvents [EVENT_SELECT1; back]) w)
    with (exec (handleEvent back) (exec (handleEvent EVENT_SELECT1) w)).
  assert (Hg' : always_granted (exec (handleEvent EVENT_SELECT1) w)).
  { apply (always_granted_moves_on w); [apply handleEvent_moves_on | exact Hg]. }
  assert (m_menuIndex (model w) = 1 \/ m_menuIndex (model w) = 2
          \/ m_menuIndex (model w) = 3) as [E | [E | E]] by lia; rewrite E;
    [ pose proof (S1 E) as Hm | pose proof (S2 E) as Hm | pose proof (S3 E) as Hm ];
    (split; [rewrite Hm; reflexivity|]);
    rewrite (back_to_menu _ back Hg') by (try rewrite Hm; auto; discriminate);
    rewrite Hm; cbn; auto.
Qed.

Lemma sub_screen_round_trip_witness :
  m_currentState
    (model (exec (handleEvents [EVENT_SELECT1; EVENT_SELECT2])
                 (world_of (model_at 3 STATE_MENU false) uncontended))) = STATE_MENU
  /\ m_menuIndex
       (model (exec (handleEvents [EVENT_SELECT1; EVENT_SELECT2])
                    (world_of (model_at 3 STATE_MENU false) uncontended))) = 3.
Proof.
  refine (proj2 (sub_screen_round_trip
                   (world_of (model_at 3 STATE_MENU false) uncontended)
                   EVENT_SELECT2 (uncontended_always_granted _) eq_refl _ _)).
  - cbn. lia.
  - right. reflexivity.
Defined.

(** X6.  Outside the Menu state the menu index is out of reach: when the
    controller reads a state other than Menu (the read being granted), no
    event changes the menu index, whatever the scheduler answers afterwards,
    and the state afterwards is the same state or Menu. *)
Theorem sub_screens_never_move_the_index w e :
  granted_next w -> m_currentState (model w) <> STATE_MENU ->
  m_menuIndex (model (exec (handleEvent e) w)) = m_menuIndex (model w)
  /\ (m_currentState (model (exec (handleEvent e) w)) = m_currentState (model w)
      \/ m_currentState (model (exec (handleEvent e) w)) = STATE_MENU).
Proof.
  intros Hg Hs. unfold exec, handleEvent, bind.
  rewrite granted_getCurrentState by assumption. cbn [fst snd].
  assert (Hback : relates only_to_menu (setState STATE_MENU)).
  { intros w0. unfold only_to_menu. run.
    destruct (sem_grants w0 (sem_calls w0)); cbn; [|auto].
    destruct (negb (SystemState_eqb (m_currentState (model w0)) STATE_MENU));
      cbn; auto. }
  assert (Hout : forall o, relates only_to_menu (Serial_out o)).
  { intros o w0. unfold only_to_menu. run. auto. }
  assert (Hrefl : forall w0, only_to_menu w0 w0) by (intros w0; split; auto).
  assert (Htrans : forall w1 w2 w3,
             only_to_menu w1 w2 -> only_to_menu w2 w3 -> only_to_menu w1 w3).
  { intros w1 w2 w3 [I1 S1] [I2 S2]. split; [congruence|].
    destruct S2 as [S2 | S2]; [|auto]. destruct S1 as [S1 | S1]; [left | right];
      congruence. }
  assert (Hall : relates only_to_menu
                   match m_currentState (model w) with
                   | STATE_MENU => ret tt
                   | STATE_SETTINGS => handleSettingsState e
                   | STATE_ABOUT => handleAboutState e
                   | STATE_CONFIRM_EXIT => handleConfirmExitState e
                   end).
  { destruct (m_currentState (model w)), e;
      cbn [handleSettingsState handleAboutState handleConfirmExitState];
      repeat first
        [ apply Hback | apply Hout | apply (relates_ret only_to_menu Hrefl)
        | apply (relates_bind only_to_menu Htrans); [|intros ?] ]. }
  destruct (m_currentState (model w)) eqn:E; [congruence | | |];
    destruct (Hall (asked w)) as [Hi Hst]; unfold exec in Hi, Hst;
    cbn [model asked] in Hi, Hst; rewrite E in Hst; split; assumption.
Qed.

Lemma sub_screens_never_move_the_index_witness :
  m_menuIndex
    (model (exec (handleEvent EVENT_UP)
                 (world_of (model_at 2 STATE_ABOUT false) granted_once))) = 2.
Proof.
  refine (proj1 (sub_screens_never_move_the_index
                   (world_of (model_at 2 STATE_ABOUT false) granted_once)
                   EVENT_UP eq_refl _)).
  discriminate.
Defined.

End RoundTrips.

Section DebounceMore.

Local Close Scope string_scope.

Implicit Types (hw : Board) (b : ButtonConfig) (bs : list ButtonConfig).

(** Whatever [readButtons] returns is [EVENT_NONE] or the event of one of
    the six lines. *)
Lemma readButtons_event_of_a_line hw bs :
  length bs = 6%nat ->
  snd (readButtons hw bs) = EVENT_NONE
  \/ exists k, event_of_index k = Some (snd (readButtons hw bs)).
Proof.
  intros Hlen. rewrite readButtons_poll_rest by assumption. cbn [snd].
  destruct (snd (poll_rest hw bs 0)) as [j|]; [|left; reflexivity].
  cbn [event_at]. destruct (event_of_index j) eqn:E; [|left; reflexivity].
  right. exists j. exact E.
Qed.

(** A line that reads HIGH at every poll never returns its event. *)
Lemma no_event_without_low k e : forall polls bs b,
  event_of_index k = Some e ->
  length bs = 6%nat -> bs !! k = Some b ->
  (forall hw, hw ∈ polls -> digitalRead hw (pin b) = HIGH) ->
  e ∉ snd (pollButtons polls bs).
Proof.
  induction polls as [|hw rest IH]; intros bs b He Hlen Hk Hhigh Hin.
  - cbn in Hin. inversion Hin.
  - rewrite pollButtons_cons in Hin.
    destruct (readButtons_line hw bs k b Hlen Hk) as [Hlen' Hline].
    pose proof (Hhigh hw ltac:(left)) as Hhw.
    set (r := readButtons hw bs) in *. clearbody r.
    apply elem_of_cons in Hin as [Hin | Hin].
    + destruct Hline as [(_ & Hf & _) | (Hne & _)]; [|congruence].
      destruct (poll_one_fired_pressed hw b Hf) as [_ Hlow].
      rewrite Hhw in Hlow. discriminate Hlow.
    + assert (Hnext : exists b', fst r !! k = Some b' /\ pin b' = pin b).
      { destruct Hline as [(_ & _ & Hb' & _) | (_ & [(Hb' & _) | (_ & Hb')])].
        - eexists. split; [exact Hb' | apply poll_one_pin].
        - exists b. auto.
        - eexists. split; [exact Hb' | apply poll_one_pin]. }
      destruct Hnext as (b' & Hb' & Hpin).
      apply (IH (fst r) b' He Hlen' Hb'); [|exact Hin].
      intros hw' Hhw'. rewrite Hpin. apply Hhigh. right. exact Hhw'.
Qed.

Lemma pollButtons_length polls : forall bs,
  length bs = 6%nat -> length (fst (pollButtons polls bs)) = 6%nat.
Proof.
  induction polls as [|hw rest IH]; intros bs Hlen; [exact Hlen|].
  cbn [pollButtons].
  pose proof (IH (fst (readButtons hw bs))) as IH'.
  destruct (lookup_lt_is_Some_2 bs 0 ltac:(lia)) as [b Hb].
  destruct (readButtons_line hw bs 0 b Hlen Hb) as [Hlen' _].
  destruct (readButtons hw bs) as [bs' e]. cbn [fst] in *.
  specialize (IH' Hlen'). destruct (pollButtons rest bs'). exact IH'.
Qed.

Lemma pollButtons_events_of_lines : forall polls bs e,
  length bs = 6%nat -> e ∈ snd (pollButtons polls bs) ->
  e = EVENT_NONE \/ exists k, event_of_index k = Some e.
Proof.
  induction polls as [|hw rest IH]; intros bs e Hlen Hin.
  - cbn in Hin. inversion Hin.
  - rewrite pollButtons_cons in Hin.
    destruct (lookup_lt_is_Some_2 bs 0 ltac:(lia)) as [b Hb].
    destruct (readButtons_line hw bs 0 b Hlen Hb) as [Hlen' _].
    pose proof (readButtons_event_of_a_line hw bs Hlen) as Hev.
    set (r := readButtons hw bs) in *. clearbody r.
    apply elem_of_cons in Hin as [-> | Hin]; [exact Hev|].
    apply (IH (fst r) e Hlen' Hin).
Qed.

(** X7.  No press, no event.  A line that reads HIGH at every poll never
    returns its event, whatever its button holds and whatever the other
    lines do; so a board whose six lines idle HIGH returns [EVENT_NONE] at
    every poll, at any times, from any button array. *)
Theorem idle_lines_stay_silent (polls : list Board) bs :
  length bs = 6%nat ->
  (forall k b e, event_of_index k = Some e -> bs !! k = Some b ->
     (forall hw, hw ∈ polls -> digitalRead hw (pin b) = HIGH) ->
     e ∉ snd (pollButtons polls bs))
  /\ ((forall hw b, hw ∈ polls -> b ∈ bs -> digitalRead hw (pin b) = HIGH) ->
      Forall (fun e => e = EVENT_NONE) (snd (pollButtons polls bs))).
Proof.
  intros Hlen. split.
  - intros k b e He Hk Hhigh. apply (no_event_without_low k e polls bs b); assumption.
  - intros Hidle. apply Forall_forall. intros e Hin.
    destruct (pollButtons_events_of_lines polls bs e Hlen Hin) as [-> | [k He]];
      [reflexivity|].
    exfalso.
    assert (Hk6 : (k < 6)%nat) by (eapply event_of_index_Some; eauto).
    destruct (lookup_lt_is_Some_2 bs k ltac:(lia)) as [b Hk].
    apply (no_event_without_low k e polls bs b He Hlen Hk); [|exact Hin].
    intros hw Hhw. apply Hidle; [exact Hhw|].
    apply list_elem_of_lookup. eauto.
Qed.

Lemma idle_lines_stay_silent_witness :
  EVENT_DOWN ∉ snd (pollButtons press_release_press initializeButtons).
Proof.
  refine (proj1 (idle_lines_stay_silent press_release_press initializeButtons
                   eq_refl)
                1%nat (mkButton BTN_DOWN_PIN HIGH 0 false) EVENT_DOWN
                eq_refl eq_refl _).
  intros hw Hhw. unfold press_release_press in Hhw.
  apply list_elem_of_fmap in Hhw as (n & -> & _). reflexivity.
Defined.

(** X8.  A press that lasts is reported.  Let no line show a press edge at
    one poll, at which an unregistered line that read HIGH before reads LOW;
    let it still read LOW at the next poll, more than 50 ms (and less than
    2^32 ms) later, with no press edge on a line before it.  Then the next
    poll returns the event of that line. *)
Theorem lasting_press_is_reported hw1 hw2 bs k b :
  length bs = 6%nat -> bs !! k = Some b ->
  pressed b = false -> lastState b = HIGH ->
  digitalRead hw1 (pin b) = LOW -> digitalRead hw2 (pin b) = LOW ->
  50 < uptime_ms hw2 - uptime_ms hw1 < 2 ^ 32 ->
  (forall j b', bs !! j = Some b' -> press_edge hw1 b' = false) ->
  (forall j b', (j < k)%nat -> fst (readButtons hw1 bs) !! j = Some b' ->
                press_edge hw2 b' = false) ->
  snd (readButtons hw1 bs) = EVENT_NONE
  /\ event_of_index k = Some (snd (readButtons hw2 (fst (readButtons hw1 bs)))).
Proof.
  intros Hlen Hk Hp Hl Hd1 Hd2 Hgap Hquiet1 Hquiet2.
  split; [apply no_press_edge_no_event; assumption|].
  destruct (readButtons_line hw1 bs k b Hlen Hk) as [Hlen' Hline].
  assert (Hb1 : fst (readButtons hw1 bs) !! k = Some (fst (poll_one hw1 b))).
  { destruct Hline as [(_ & _ & Hb' & _) | (_ & [(_ & j & b' & _ & Hb' & Hf) | (_ & Hb')])].
    - exact Hb'.
    - rewrite poll_one_fires, (Hquiet1 j b' Hb') in Hf. discriminate Hf.
    - exact Hb'. }
  apply (first_press_edge_wins hw2 _ k (fst (poll_one hw1 b)) Hlen' Hb1);
    [|exact Hquiet2].
  destruct b as [p ls ldt pr]. cbn in Hp, Hl, Hd1, Hd2. subst pr ls.
  unfold press_edge, poll_one, HIGH, LOW in *. cbn [pin lastState] in *.
  rewrite Hd1.
  cbn [Bool.eqb negb andb fst snd pin lastState pressed lastDebounceTime
       with_lastState with_lastDebounceTime with_pressed].
  rewrite usub_self. change (DEBOUNCE_DELAY <? 0) with false.
  cbn [Bool.eqb negb andb fst snd pin lastState pressed lastDebounceTime
       with_lastState with_lastDebounceTime with_pressed].
  rewrite Hd2. cbn [negb andb]. apply Z.ltb_lt.
  unfold millis, CInt.usub, CInt.uwrap. rewrite <- Zminus_mod.
  rewrite Z.mod_small by lia. unfold DEBOUNCE_DELAY. lia.
Qed.

Lemma lasting_press_is_reported_witness :
  event_of_index 0
  = Some (snd (readButtons (up_line 1060 LOW)
                 (fst (readButtons (up_line 1000 LOW) initializeButtons)))).
Proof.
  refine (proj2 (lasting_press_is_reported (up_line 1000 LOW) (up_line 1060 LOW)
                   initializeButtons 0%nat (mkButton BTN_UP_PIN HIGH 0 false)
                   eq_refl eq_refl eq_refl eq_refl eq_refl eq_refl _ _ _)).
  - split; reflexivity.
  - intros j b' Hb'.
    do 6 (destruct j as [|j]; [injection Hb' as <-; reflexivity|]).
    discriminate Hb'.
  - intros j b' Hj. lia.
Defined.

End DebounceMore.

Section EventBits.

Implicit Types (s : Synchronization.t) (v mask bits : Z).

Lemma single_bit_set n v :
  0 <= n -> bit_is_set (BIT n) v <-> Z.testbit v n = true.
Proof.
  intros Hn. unfold bit_is_set, BIT. rewrite Z.shiftl_1_l. split.
  - intros H.
    assert (E : Z.testbit (Z.land v (2 ^ n)) n = Z.testbit (2 ^ n) n)
      by (rewrite H; reflexivity).
    rewrite Z.land_spec, Z.pow2_bits_true in E by lia.
    rewrite andb_true_r in E. exact E.
  - intros H. apply Z.bits_inj'. intros m Hm. rewrite Z.land_spec.
    destruct (Z.eq_dec m n) as [-> | Hne].
    + rewrite Z.pow2_bits_true, H by lia. reflexivity.
    + rewrite Z.pow2_bits_false by lia. apply andb_false_r.
Qed.

Lemma bit_is_set_lor mask v bits :
  bit_is_set mask v -> bit_is_set mask (Z.lor v bits).
Proof.
  unfold bit_is_set. intros H. apply Z.bits_inj'. intros n Hn.
  rewrite Z.land_spec, Z.lor_spec.
  assert (E : Z.testbit (Z.land v mask) n = Z.testbit mask n)
    by (rewrite H; reflexivity).
  rewrite Z.land_spec in E.
  destruct (Z.testbit v n), (Z.testbit bits n), (Z.testbit mask n);
    cbn in *; congruence.
Qed.

Lemma setEventBits_bits bits s :
  m_eventGroup (setEventBits bits s)
  = (fun v => Z.lor v bits) <$> m_eventGroup s.
Proof.
  unfold setEventBits. destruct (m_eventGroup s) eqn:E; cbn; rewrite ?E; reflexivity.
Qed.

Lemma signal_bits x sc :
  m_eventGroup (fst (signal x sc))
  = (fun v => Z.lor v (bits_of x)) <$> m_eventGroup (fst sc).
Proof.
  destruct x; cbn [signal notifyDisplayReady notifyControllerReady
                   signalShutdown fst bits_of]; apply setEventBits_bits.
Qed.

End EventBits.

Section Signalling.

Implicit Types (s : Synchronization.t) (v mask bits : Z) (xs : list Signal).

Lemma signals_cons x xs sc : signals (x :: xs) sc = signals xs (signal x sc).
Proof. reflexivity. Qed.

Lemma signal_keeps_set_bits x sc mask :
  bit_is_set mask (getCurrentBits (fst sc)) ->
  bit_is_set mask (getCurrentBits (fst (signal x sc))).
Proof.
  unfold getCurrentBits. rewrite signal_bits.
  destruct (m_eventGroup (fst sc)); cbn; [apply bit_is_set_lor | trivial].
Qed.

(** X9.  Event bits only grow under signalling: a bit that is set in the
    event group is still set after any sequence of [notifyDisplayReady],
    [notifyControllerReady], [signalShutdown] and [setEventBits] calls, and
    the group exists afterwards exactly if it existed before.  Only
    [clearEventBits] and [cleanup] take a bit away. *)
Theorem event_bits_only_grow xs : forall sc mask,
  (bit_is_set mask (getCurrentBits (fst sc)) ->
   bit_is_set mask (getCurrentBits (fst (signals xs sc))))
  /\ (m_eventGroup (fst (signals xs sc)) = None <-> m_eventGroup (fst sc) = None).
Proof.
  induction xs as [|x rest IH]; intros sc mask.
  - split; [trivial | reflexivity].
  - rewrite signals_cons. destruct (IH (signal x sc) mask) as [Hkeep Hex].
    split.
    + intros H. apply Hkeep, signal_keeps_set_bits, H.
    + rewrite Hex, signal_bits. destruct (m_eventGroup (fst sc)); cbn;
        split; congruence.
Qed.

Lemma event_bits_only_grow_witness :
  bit_is_set CONTROLLER_READY_BIT
    (getCurrentBits
       (fst (signals [NotifyDisplayReady true; SetEventBits 9; SignalShutdown false]
                     (setEventBits CONTROLLER_READY_BIT sync_up, [])))).
Proof.
  refine (proj1 (event_bits_only_grow
                   [NotifyDisplayReady true; SetEventBits 9; SignalShutdown false]
                   (setEventBits CONTROLLER_READY_BIT sync_up, [])
                   CONTROLLER_READY_BIT) _).
  reflexivity.
Defined.

Lemma signals_testbit n xs : forall sc v,
  0 <= n -> m_eventGroup (fst sc) = Some v ->
  exists v', m_eventGroup (fst (signals xs sc)) = Some v'
             /\ Z.testbit v' n
                = Z.testbit v n || existsb (fun x => Z.testbit (bits_of x) n) xs.
Proof.
  induction xs as [|x rest IH]; intros sc v Hn Hv.
  - exists v. split; [exact Hv|]. cbn. rewrite orb_false_r. reflexivity.
  - rewrite signals_cons.
    assert (Hv' : m_eventGroup (fst (signal x sc)) = Some (Z.lor v (bits_of x)))
      by (rewrite signal_bits, Hv; reflexivity).
    destruct (IH (signal x sc) _ Hn Hv') as (v' & E & Hbit).
    exists v'. split; [exact E|]. rewrite Hbit, Z.lor_spec. cbn [existsb].
    rewrite orb_assoc. reflexivity.
Qed.

Lemma existsb_ext_in {A} (f g : A -> bool) (p : A -> bool) (l : list A) :
  forallb p l = true -> (forall x, p x = true -> f x = g x) ->
  existsb f l = existsb g l.
Proof.
  intros Hall Hfg. induction l as [|a l IH]; [reflexivity|].
  cbn in *. apply andb_prop in Hall as [Ha Hl].
  rewrite (Hfg a Ha), (IH Hl). reflexivity.
Qed.

(** X10.  The readiness handshake completes exactly when both sides have
    notified: on an initialised [Synchronization] object, after any sequence
    of notifications and shutdown signals, [waitForSystemReady] returns
    [true] (for any timeout, the group being left alone while it waits)
    if and only if [notifyDisplayReady] and [notifyControllerReady] are both
    among the calls. *)
Theorem handshake_needs_both_notifications xs (console : list SerialOut)
        (timeout : nat) :
  forallb is_notification xs = true ->
  waitForSystemReady (fst (signals xs (sync_up, console)))
                     FreeRTOS.undisturbed timeout = true
  <-> existsb is_display_ready xs = true /\ existsb is_controller_ready xs = true.
Proof.
  intros Hnot. rewrite waitForSystemReady_spec.
  destruct (signals_testbit 1 xs (sync_up, console) 0 ltac:(lia) eq_refl)
    as (v1 & E1 & Hd).
  destruct (signals_testbit 2 xs (sync_up, console) 0 ltac:(lia) eq_refl)
    as (v2 & E2 & Hc).
  assert (v2 = v1) as -> by congruence.
  rewrite Z.bits_0 in Hd, Hc. cbn [orb] in Hd, Hc.
  rewrite (existsb_ext_in _ is_display_ready is_notification xs Hnot) in Hd
    by (intros [] H; try reflexivity; discriminate H).
  rewrite (existsb_ext_in _ is_controller_ready is_notification xs Hnot) in Hc
    by (intros [] H; try reflexivity; discriminate H).
  unfold FreeRTOS.undisturbed. split.
  - intros (bits & t & Hb & _ & Hcb & Hdb).
    assert (bits = v1) as -> by congruence.
    apply (single_bit_set 2) in Hcb; [|lia].
    apply (single_bit_set 1) in Hdb; [|lia].
    split; congruence.
  - intros [Hdx Hcx]. exists v1, 0%nat.
    split; [exact E1|]. split; [lia|]. split.
    + apply (single_bit_set 2); [lia | congruence].
    + apply (single_bit_set 1); [lia | congruence].
Qed.

Lemma handshake_needs_both_notifications_witness :
  waitForSystemReady
    (fst (signals [NotifyControllerReady true; NotifyDisplayReady false]
                  (sync_up, [])))
    FreeRTOS.undisturbed 0 = true.
Proof.
  apply (handshake_needs_both_notifications
           [NotifyControllerReady true; NotifyDisplayReady false] [] 0%nat eq_refl).
  split; reflexivity.
Defined.

(** X11.  A [Synchronization] object without its primitives is inert: before
    [initialize], after a failed [initialize] and after [cleanup], signals
    leave it as it is and print nothing, the current bits read 0, both waits
    return 0 at once, and [waitForSystemReady] is [false] whatever the other
    tasks do and however long it may wait. *)
Theorem sync_without_primitives_is_inert s :
  m_eventGroup s = None -> m_serialMutex s = false ->
  (forall xs console, signals xs (s, console) = (s, console))
  /\ getCurrentBits s = 0
  /\ clearEventBits 15 s = s
  /\ (forall others bits timeout,
        waitForAllBits s others bits timeout = 0
        /\ waitForAnyBit s others bits timeout = 0
        /\ waitForSystemReady s others timeout = false)
  /\ (forall created console, negb created = true ->
        fst (fst (Synchronization.initialize created s console)) = false
        /\ m_eventGroup (snd (fst (Synchronization.initialize created s console))) = None)
  /\ (forall s', m_eventGroup (Synchronization.cleanup s') = None
                 /\ m_serialMutex (Synchronization.cleanup s') = false).
Proof.
  intros He Hs. split; [|split; [|split; [|split; [|split]]]].
  - induction xs as [|x rest IH]; intros console; [reflexivity|].
    rewrite signals_cons.
    replace (signal x (s, console)) with (s, console); [apply IH|].
    assert (Hset : forall b, setEventBits b s = s)
      by (intros b; unfold setEventBits; rewrite He; reflexivity).
    destruct x; unfold signal, notifyDisplayReady, notifyControllerReady,
                  signalShutdown; cbn [fst snd]; rewrite Hset;
      unfold safePrintln, acquireSerialMutex; rewrite ?Hs; reflexivity.
  - unfold getCurrentBits. rewrite He. reflexivity.
  - unfold clearEventBits. rewrite He. reflexivity.
  - intros others bits timeout.
    unfold waitForSystemReady, waitForAllBits, waitForAnyBit. rewrite He.
    repeat split.
  - intros created console Hc. apply negb_true_iff in Hc. subst created.
    split; reflexivity.
  - intros s'. split; reflexivity.
Qed.

Lemma sync_without_primitives_is_inert_witness :
  signals [NotifyDisplayReady true; NotifyControllerReady true]
          (Synchronization.init, [])
  = (Synchronization.init, []).
Proof.
  refine (proj1 (sync_without_primitives_is_inert Synchronization.init
                   eq_refl eq_refl) _ _).
Defined.

End Signalling.

Section StartUp.

Implicit Types (env : Main.Startup) (g : Main.Globals).

Lemma shutdown_bit_test v :
  negb (Z.land v SYSTEM_SHUTDOWN_BIT =? 0) = true
  <-> bit_is_set SYSTEM_SHUTDOWN_BIT v.
Proof.
  rewrite (single_bit_set 3 v) by lia. rewrite negb_true_iff, Z.eqb_neq.
  change SYSTEM_SHUTDOWN_BIT with (2 ^ 3). split.
  - intros H. destruct (Z.testbit v 3) eqn:E; [reflexivity|]. exfalso. apply H.
    apply Z.bits_inj'. intros m Hm. rewrite Z.land_spec, Z.bits_0.
    destruct (Z.eq_dec m 3) as [-> | Hne].
    + rewrite E. reflexivity.
    + rewrite Z.pow2_bits_false by lia. apply andb_false_r.
  - intros H E.
    assert (T : Z.testbit (Z.land v (2 ^ 3)) 3 = Z.testbit 0 3)
      by (rewrite E; reflexivity).
    rewrite Z.land_spec, H, Z.bits_0 in T. discriminate T.
Qed.

(** [setup] gets as far as its wait exactly when the eight steps succeed;
    both ready bits are then set and nothing else has happened. *)
Lemma at_wait_spec env :
  if all_steps_succeed env then
    exists g, Main.at_wait env = Some g
              /\ Main.g_sync g
                 = {| m_eventGroup :=
                        Some (Z.lor (Z.lor 0 CONTROLLER_READY_BIT) DISPLAY_READY_BIT);
                      m_serialMutex := true |}
              /\ Main.g_systemInitialized g = false /\ Main.halted g = false
  else
    Main.at_wait env = None
    /\ Main.g_systemInitialized (Main.setup env) = false
    /\ Main.halted (Main.setup env) = false
    /\ torn_down (Main.setup env)
    /\ Println "Cleanup complete" ∈ Main.console (Main.setup env)
    /\ (Println "Component initialization failed!" ∈ Main.console (Main.setup env)
        \/ Println "Task startup failed!" ∈ Main.console (Main.setup env)).
Proof.
  destruct env as [sc mi ci oi li cs os ls sg oth rf].
  unfold all_steps_succeed. cbn [Main.sync_created Main.model_initialized
    Main.controller_initialized Main.oled_initialized Main.lcd_initialized
    Main.controller_started Main.oled_started Main.lcd_started].
  assert (Hin : forall (x : SerialOut) l, x ∈ l <-> In x l)
    by (intros; apply list_elem_of_In).
  destruct sc; [|cbn; rewrite !Hin; cbn; unfold torn_down; cbn; tauto].
  destruct mi; [|cbn; rewrite !Hin; cbn; unfold torn_down; cbn; tauto].
  destruct ci; [|cbn; rewrite !Hin; cbn; unfold torn_down; cbn; tauto].
  destruct oi; [|cbn; rewrite !Hin; cbn; unfold torn_down; cbn; tauto].
  destruct li; [|cbn; rewrite !Hin; cbn; unfold torn_down; cbn; tauto].
  destruct cs; [|cbn; rewrite !Hin; cbn; unfold torn_down; cbn; tauto].
  destruct os;
    [|destruct sg; cbn; rewrite !Hin; cbn; unfold torn_down; cbn; tauto].
  destruct ls;
    [|destruct sg; cbn; rewrite !Hin; cbn; unfold torn_down; cbn; tauto].
  destruct sg; cbn; eexists; repeat split.
Qed.

(** X12.  When [setup] declares the system operational.
    [g_systemInitialized] is [true] after [setup] exactly when all five
    components initialise, all three tasks start, and both ready bits are in
    the event group at some tick of the 5000-tick wait; the group holds
    exactly those two bits when the wait begins, so if no other task touches
    it the wait cannot time out and the eight steps alone decide. *)
Theorem setup_operational_iff env :
  (Main.g_systemInitialized (Main.setup env) = true
   <-> all_steps_succeed env = true
       /\ exists t, (t <= 5000)%nat
            /\ bit_is_set CONTROLLER_READY_BIT
                 (Main.others env t (Z.lor CONTROLLER_READY_BIT DISPLAY_READY_BIT))
            /\ bit_is_set DISPLAY_READY_BIT
                 (Main.others env t (Z.lor CONTROLLER_READY_BIT DISPLAY_READY_BIT)))
  /\ (Main.others env = FreeRTOS.undisturbed ->
      Main.g_systemInitialized (Main.setup env) = all_steps_succeed env).
Proof.
  assert (Hmain :
    Main.g_systemInitialized (Main.setup env) = true
    <-> all_steps_succeed env = true
        /\ exists t, (t <= 5000)%nat
             /\ bit_is_set CONTROLLER_READY_BIT
                  (Main.others env t (Z.lor CONTROLLER_READY_BIT DISPLAY_READY_BIT))
             /\ bit_is_set DISPLAY_READY_BIT
                  (Main.others env t (Z.lor CONTROLLER_READY_BIT DISPLAY_READY_BIT))).
  { pose proof (at_wait_spec env) as H.
    destruct (all_steps_succeed env).
    - destruct H as (g & Hat & Hsync & Hflag & _).
      rewrite (setup_after_wait env g Hat). cbn zeta.
      pose proof (waitForSystemReady_spec (Main.g_sync g) (Main.others env)
                    (FreeRTOS.pdMS_TO_TICKS 5000)) as Hw.
      rewrite Hsync in Hw. cbn [m_eventGroup] in Hw.
      change (FreeRTOS.pdMS_TO_TICKS 5000) with 5000%nat in *.
      rewrite Hsync.
      destruct (waitForSystemReady _ (Main.others env) 5000) eqn:E.
      + split.
        * intros _. split; [reflexivity|].
          destruct (proj1 Hw eq_refl) as (bits & t & Hb & Ht & Hc & Hd).
          injection Hb as <-. exists t. auto.
        * intros _. destruct (Main.rtc_found env); reflexivity.
      + split.
        * destruct (Main.rtc_found env); cbn; rewrite Hflag; discriminate.
        * intros [_ (t & Ht & Hc & Hd)].
          assert (false = true); [|discriminate].
          apply Hw. eexists _, t. split; [reflexivity|]. auto.
    - destruct H as (_ & Hflag & _). rewrite Hflag.
      split; [discriminate | intros [H _]; discriminate H]. }
  split; [exact Hmain|].
  intros Hund. destruct (all_steps_succeed env) eqn:Hall.
  - apply Hmain. split; [reflexivity|]. exists 0%nat. rewrite Hund.
    split; [lia|]. split; reflexivity.
  - destruct (Main.g_systemInitialized (Main.setup env)) eqn:E; [|reflexivity].
    destruct (proj1 Hmain eq_refl) as [E' _]. discriminate E'.
Qed.

Lemma setup_operational_iff_witness :
  Main.g_systemInitialized (Main.setup (all_well FreeRTOS.undisturbed)) = true.
Proof.
  rewrite (proj2 (setup_operational_iff (all_well FreeRTOS.undisturbed)) eq_refl).
  reflexivity.
Defined.





(** X15.  Shutdown is terminal.  On a running system whose event group
    exists, [signalShutdown] followed by a turn of the status task tears the
    system down: [g_systemInitialized] becomes false, the components and the
    synchronisation primitives are released, and no later turn brings the
    system back.  Without the shutdown bit a turn of the status task leaves
    flag, components and event group as they are. *)
Theorem shutdown_is_terminal g (granted grantedTurn : bool)
        (highWaterMark messageCount : Z) :
  Main.halted g = false -> Main.g_systemInitialized g = true ->
  (m_eventGroup (Main.g_sync g) <> None ->
   let signalled :=
     Main.with_sync
       (fst (signalShutdown granted (Main.g_sync g) (Main.console g)))
       (snd (signalShutdown granted (Main.g_sync g) (Main.console g))) g in
   let after :=
     Main.turn (Main.StatusTurn highWaterMark messageCount grantedTurn) signalled in
   Main.g_systemInitialized after = false
   /\ torn_down after
   /\ forall turns, Main.g_systemInitialized (Main.run turns after) = false)
  /\ (~ bit_is_set SYSTEM_SHUTDOWN_BIT (getCurrentBits (Main.g_sync g)) ->
      let after :=
        Main.turn (Main.StatusTurn highWaterMark messageCount grantedTurn) g in
      Main.g_systemInitialized after = true
      /\ Main.g_sync after = Main.g_sync g
      /\ Main.g_controller after = Main.g_controller g
      /\ Main.g_oledView after = Main.g_oledView g
      /\ Main.g_lcdView after = Main.g_lcdView g).
Proof.
  intros Hh Hflag. split.
  - intros Hgroup signalled after.
    assert (Hbit : negb (Z.land (getCurrentBits (Main.g_sync signalled))
                                SYSTEM_SHUTDOWN_BIT =? 0) = true).
    { apply shutdown_bit_test. subst signalled. cbn [Main.g_sync Main.with_sync].
      unfold signalShutdown, getCurrentBits, setEventBits. cbn [fst].
      destruct (m_eventGroup (Main.g_sync g)) as [v|]; [|congruence].
      cbn [m_eventGroup]. apply (single_bit_set 3); [lia|].
      rewrite Z.lor_spec. change (Z.testbit SYSTEM_SHUTDOWN_BIT 3) with true.
      apply orb_true_r. }
    assert (Hafter : Main.g_systemInitialized after = false /\ torn_down after).
    { subst after. unfold Main.turn, Main.systemStatusTask_iteration.
      subst signalled. cbn [Main.halted Main.with_sync Main.g_systemInitialized].
      rewrite Hh, Hflag.
      cbn [Main.halted Main.with_sync Main.g_systemInitialized] in Hbit.
      destruct (highWaterMark <? 100), (8 <? messageCount);
        cbn [Main.safePrintln Main.safePrintf Main.with_sync Main.g_sync] in *;
        rewrite Hbit; unfold torn_down; cbn; tauto. }
    destruct Hafter as [Hf Htd]. split; [exact Hf|]. split; [exact Htd|].
    intros turns. apply run_keeps_uninitialized, Hf.
  - intros Hno after. subst after.
    unfold Main.turn, Main.systemStatusTask_iteration. rewrite Hh, Hflag.
    assert (Hbit : negb (Z.land (getCurrentBits (Main.g_sync g))
                                SYSTEM_SHUTDOWN_BIT =? 0) = false).
    { destruct (negb _) eqn:E; [|reflexivity].
      apply shutdown_bit_test in E. contradiction. }
    destruct (highWaterMark <? 100), (8 <? messageCount);
      cbn [Main.safePrintln Main.safePrintf Main.with_sync Main.g_sync];
      rewrite Hbit; cbn; auto.
Qed.

Lemma shutdown_is_terminal_witness :
  Main.g_systemInitialized
    (Main.turn (Main.StatusTurn 500 0 true)
       (Main.with_sync
          (fst (signalShutdown true
                  (Main.g_sync (Main.setup (all_well FreeRTOS.undisturbed)))
                  (Main.console (Main.setup (all_well FreeRTOS.undisturbed)))))
          (snd (signalShutdown true
                  (Main.g_sync (Main.setup (all_well FreeRTOS.undisturbed)))
                  (Main.console (Main.setup (all_well FreeRTOS.undisturbed)))))
          (Main.setup (all_well FreeRTOS.undisturbed)))) = false.
Proof.
  refine (proj1 (proj1 (shutdown_is_terminal
                          (Main.setup (all_well FreeRTOS.undisturbed))
                          true true 500 0 eq_refl eq_refl) _)).
  discriminate.
Defined.

End StartUp.

(** ** The task manager *)

Section TaskLoops.

Local Close Scope string_scope.

Lemma live_rebuildFilteredList tm :
  live (TaskManager.rebuildFilteredList tm) = live tm.
Proof. reflexivity. Qed.

Lemma live_lookup tm i :
  (Z.to_nat (TaskManager.taskCount tm) <= length (TaskManager.tasks tm))%nat ->
  Z.of_nat i < TaskManager.taskCount tm ->
  exists task, TaskManager.tasks tm !! i = Some task /\ live tm !! i = Some task
               /\ drop i (live tm) = task :: drop (S i) (live tm).
Proof.
  intros Hlen Hi.
  destruct (lookup_lt_is_Some_2 (TaskManager.tasks tm) i) as [task Ht]; [lia|].
  assert (Hl : live tm !! i = Some task).
  { unfold live. rewrite lookup_take_lt by lia. exact Ht. }
  exists task. split; [exact Ht|]. split; [exact Hl|].
  apply drop_S. exact Hl.
Qed.

Lemma live_length tm :
  (Z.to_nat (TaskManager.taskCount tm) <= length (TaskManager.tasks tm))%nat ->
  length (live tm) = Z.to_nat (TaskManager.taskCount tm).
Proof. intros H. unfold live. rewrite length_take. lia. Qed.

Lemma find_loop_spec tm taskId n i :
  (Z.to_nat (TaskManager.taskCount tm) <= length (TaskManager.tasks tm))%nat ->
  (Z.to_nat (TaskManager.taskCount tm) - i <= n)%nat ->
  TaskManager.find_loop n i taskId tm =
    match list_find (fun task => TaskManager.id task = taskId) (drop i (live tm)) with
    | Some (k, _) => Z.of_nat (i + k)
    | None => TaskManager.MAX_TASKS
    end.
Proof.
  intros Hlen. revert i. induction n as [|n IH]; intros i Hn.
  - rewrite drop_ge by (rewrite live_length by exact Hlen; lia). reflexivity.
  - cbn [TaskManager.find_loop].
    destruct (Z.of_nat i <? TaskManager.taskCount tm) eqn:E.
    + apply Z.ltb_lt in E.
      destruct (live_lookup tm i Hlen E) as (task & Ht & _ & Hd).
      rewrite Ht, Hd. cbn [list_find].
      destruct (decide (TaskManager.id task = taskId)) as [Heq|Hne].
      * apply Z.eqb_eq in Heq. rewrite Heq. f_equal. lia.
      * apply Z.eqb_neq in Hne. rewrite Hne. rewrite IH by lia.
        destruct (list_find _ (drop (S i) (live tm))) as [[k x]|]; cbn; [|reflexivity].
        f_equal. lia.
    + apply Z.ltb_ge in E.
      rewrite drop_ge by (rewrite live_length by exact Hlen; lia). reflexivity.
Qed.

Lemma shift_loop_length n i count ts :
  length (TaskManager.shift_loop n i count ts) = length ts.
Proof.
  revert i ts. induction n as [|n IH]; intros i ts; [reflexivity|].
  cbn [TaskManager.shift_loop].
  destruct (Z.of_nat i <? count - 1); [|reflexivity].
  destruct (ts !! S i); [|reflexivity].
  rewrite IH, length_insert. reflexivity.
Qed.

Lemma shift_loop_spec count ts n i :
  (Z.to_nat count <= length ts)%nat ->
  Z.of_nat i < count ->
  (Z.to_nat count - 1 - i <= n)%nat ->
  take (Z.to_nat count - 1) (TaskManager.shift_loop n i count ts) =
    take i ts ++ take (Z.to_nat count - 1 - i) (drop (S i) ts)
  /\ drop (Z.to_nat count) (TaskManager.shift_loop n i count ts) =
       drop (Z.to_nat count) ts.
Proof.
  revert i ts. induction n as [|n IH]; intros i ts Hlen Hi Hn.
  - cbn [TaskManager.shift_loop].
    replace (Z.to_nat count - 1 - i)%nat with 0%nat by lia.
    replace (Z.to_nat count - 1)%nat with i by lia.
    rewrite take_0, app_nil_r. split; reflexivity.
  - cbn [TaskManager.shift_loop].
    destruct (Z.of_nat i <? count - 1) eqn:E.
    + apply Z.ltb_lt in E.
      destruct (lookup_lt_is_Some_2 ts (S i)) as [next Hnext]; [lia|].
      rewrite Hnext.
      destruct (IH (S i) (<[i:=next]> ts)) as [IH1 IH2];
        [rewrite length_insert; lia|lia|lia|].
      rewrite IH1, IH2. split.
      * assert (Hi' : <[i:=next]> ts !! i = Some next)
          by (apply list_lookup_insert_eq; lia).
        rewrite (take_S_r _ _ _ Hi'), take_insert_ge by lia.
        rewrite drop_insert_lt by lia.
        rewrite (drop_S _ _ _ Hnext).
        replace (Z.to_nat count - 1 - i)%nat with (S (Z.to_nat count - 1 - S i)) by lia.
        rewrite firstn_cons, <- app_assoc. reflexivity.
      * apply drop_insert_lt. lia.
    + apply Z.ltb_ge in E.
      replace (Z.to_nat count - 1 - i)%nat with 0%nat by lia.
      replace (Z.to_nat count - 1)%nat with i by lia.
      rewrite take_0, app_nil_r. split; reflexivity.
Qed.

Lemma delete_live count (ts : list TaskManager.Task) i :
  (i < Z.to_nat count)%nat ->
  take i ts ++ take (Z.to_nat count - 1 - i) (drop (S i) ts) =
    delete i (take (Z.to_nat count) ts).
Proof.
  intros Hi. rewrite delete_take_drop, take_take, skipn_firstn_comm.
  replace (i `min` Z.to_nat count)%nat with i by lia.
  replace (Z.to_nat count - S i)%nat with (Z.to_nat count - 1 - i)%nat by lia.
  reflexivity.
Qed.

(** The number of completed tasks of a list. *)
Lemma completed_loop_spec tm n i acc :
  (Z.to_nat (TaskManager.taskCount tm) <= length (TaskManager.tasks tm))%nat ->
  (Z.to_nat (TaskManager.taskCount tm) - i <= n)%nat ->
  0 <= acc ->
  acc + Z.of_nat (length (drop i (live tm))) < 256 ->
  TaskManager.completed_loop n i acc tm =
    acc + Z.of_nat (length (List.filter TaskManager.isComplete (drop i (live tm)))).
Proof.
  intros Hlen. revert i acc. induction n as [|n IH]; intros i acc Hn Hacc Hsmall.
  - rewrite drop_ge by (rewrite live_length by exact Hlen; lia). cbn. lia.
  - cbn [TaskManager.completed_loop].
    destruct (Z.of_nat i <? TaskManager.taskCount tm) eqn:E.
    + apply Z.ltb_lt in E.
      destruct (live_lookup tm i Hlen E) as (task & Ht & _ & Hd).
      rewrite Ht. rewrite Hd in Hsmall |- *. cbn [length List.filter] in Hsmall |- *.
      destruct (TaskManager.isComplete task).
      * unfold TaskManager.u8. rewrite Z.mod_small by lia.
        rewrite IH by lia. cbn [length]. lia.
      * rewrite IH by lia. reflexivity.
    + apply Z.ltb_ge in E.
      rewrite drop_ge by (rewrite live_length by exact Hlen; lia). cbn. lia.
Qed.

Lemma all_loop_spec tm n i acc :
  (Z.to_nat (TaskManager.taskCount tm) <= length (TaskManager.tasks tm))%nat ->
  TaskManager.taskCount tm <= 30 ->
  TaskManager.filterActive tm = false ->
  TaskManager.filteredCount tm = TaskManager.taskCount tm ->
  (Z.to_nat (TaskManager.taskCount tm) - i <= n)%nat ->
  TaskManager.all_loop n i tm acc = acc ++ drop i (live tm).
Proof.
  intros Hlen H30 Hf Hfc. revert i acc. induction n as [|n IH]; intros i acc Hn.
  - rewrite drop_ge by (rewrite live_length by exact Hlen; lia).
    rewrite app_nil_r. reflexivity.
  - cbn [TaskManager.all_loop]. rewrite Hfc.
    destruct (Z.of_nat i <? TaskManager.taskCount tm) eqn:E.
    + pose proof E as E'. apply Z.ltb_lt in E.
      destruct (live_lookup tm i Hlen E) as (task & Ht & _ & Hd).
      unfold TaskManager.getTaskByIndex. rewrite Hf.
      unfold TaskManager.u8. rewrite Z.mod_small by lia.
      rewrite E', Nat2Z.id, Ht, IH by lia.
      rewrite Hd, <- app_assoc. reflexivity.
    + apply Z.ltb_ge in E.
      rewrite drop_ge by (rewrite live_length by exact Hlen; lia).
      rewrite app_nil_r. reflexivity.
Qed.

End TaskLoops.

Section BubbleSort.

Local Close Scope string_scope.

Variable sortType : TaskManager.SortBy.

Let swap := TaskManager.shouldSwap sortType.

Lemma swap_placed_before a b : swap a b = false <-> placed_before sortType a b.
Proof.
  unfold swap, TaskManager.shouldSwap, placed_before.
  destruct sortType.
  - rewrite Z.ltb_ge. reflexivity.
  - destruct (TaskManager.isComplete a), (TaskManager.isComplete b); cbn;
      split; intros H; try reflexivity; try discriminate; auto.
    discriminate (H eq_refl).
  - rewrite Z.ltb_ge. reflexivity.
  - split; auto.
Qed.

Lemma swap_total a b : swap a b = true -> swap b a = false.
Proof.
  unfold swap, TaskManager.shouldSwap. destruct sortType.
  - rewrite Z.ltb_lt, Z.ltb_ge. lia.
  - destruct (TaskManager.isComplete a), (TaskManager.isComplete b); cbn; congruence.
  - rewrite Z.ltb_lt, Z.ltb_ge. lia.
  - discriminate.
Qed.

Lemma swap_refl a : swap a a = false.
Proof.
  destruct (swap a a) eqn:E; [|reflexivity].
  pose proof (swap_total _ _ E). congruence.
Qed.

Lemma swap_trans a b c : swap a b = false -> swap b c = false -> swap a c = false.
Proof.
  unfold swap, TaskManager.shouldSwap. destruct sortType.
  - rewrite !Z.ltb_ge. lia.
  - destruct (TaskManager.isComplete a), (TaskManager.isComplete b),
      (TaskManager.isComplete c); cbn; congruence.
  - rewrite !Z.ltb_ge. lia.
  - reflexivity.
Qed.

Lemma sink_app k x l1 l2 :
  length l1 = k -> sink swap k x (l1 ++ l2) = sink swap k x l1 ++ l2.
Proof.
  revert x l1. induction k as [|k IH]; intros x l1 Hl.
  - destruct l1; [|discriminate]. reflexivity.
  - destruct l1 as [|y r]; [discriminate|]. cbn in Hl |- *.
    destruct (swap x y); rewrite IH by lia; reflexivity.
Qed.

Lemma sink_max k x l :
  length l = k ->
  exists front z,
    sink swap k x l = front ++ [z]
    /\ front ++ [z] ≡ₚ x :: l
    /\ Forall (fun w => swap w z = false) (x :: l).
Proof.
  revert x l. induction k as [|k IH]; intros x l Hl.
  - destruct l; [|discriminate]. exists [], x. cbn.
    split; [reflexivity|]. split; [reflexivity|].
    constructor; [apply swap_refl|constructor].
  - destruct l as [|y r]; [discriminate|]. cbn in Hl. cbn [sink].
    destruct (swap x y) eqn:E.
    + destruct (IH x r) as (front & z & Hs & Hp & Hall); [lia|].
      exists (y :: front), z. rewrite Hs.
      split; [reflexivity|]. split.
      * cbn. rewrite Hp. apply perm_swap.
      * inversion Hall as [|? ? Hx Hr]; subst.
        constructor; [exact Hx|]. constructor; [|exact Hr].
        apply swap_trans with x; [apply swap_total; exact E|exact Hx].
    + destruct (IH y r) as (front & z & Hs & Hp & Hall); [lia|].
      exists (x :: front), z. rewrite Hs.
      split; [reflexivity|]. split.
      * cbn. rewrite Hp. reflexivity.
      * inversion Hall as [|? ? Hy Hr]; subst.
        constructor; [|constructor; [exact Hy|exact Hr]].
        apply swap_trans with y; [exact E|exact Hy].
Qed.

Lemma swapTasks_adjacent pre x y r :
  TaskManager.swapTasks (length pre) (S (length pre)) (pre ++ x :: y :: r) =
    pre ++ y :: x :: r.
Proof.
  unfold TaskManager.swapTasks.
  rewrite (list_lookup_middle pre (y :: r) x (length pre) eq_refl).
  replace (S (length pre)) with (length pre + 1)%nat by lia.
  rewrite lookup_app_r by lia.
  replace (length pre + 1 - length pre)%nat with 1%nat by lia. cbn [lookup list_lookup].
  rewrite (insert_app_r_alt pre _ (length pre)) by lia.
  rewrite (insert_app_r_alt pre _ (length pre + 1)) by lia.
  rewrite Nat.sub_diag.
  replace (length pre + 1 - length pre)%nat with 1%nat by lia. reflexivity.
Qed.

Lemma sort_inner_spec n k pre x rest bound :
  (k <= n)%nat -> (k <= length rest)%nat ->
  bound = Z.of_nat (length pre + k) ->
  TaskManager.sort_inner n (length pre) bound sortType (pre ++ x :: rest) =
    pre ++ sink swap k x rest.
Proof.
  revert k pre x rest. induction n as [|n IH]; intros k pre x rest Hn Hk Hb.
  - replace k with 0%nat by lia. reflexivity.
  - cbn [TaskManager.sort_inner].
    destruct k as [|k].
    + replace (Z.of_nat (length pre) <? bound) with false
        by (symmetry; apply Z.ltb_ge; lia).
      reflexivity.
    + replace (Z.of_nat (length pre) <? bound) with true
        by (symmetry; apply Z.ltb_lt; lia).
      destruct rest as [|y r]; [cbn in Hk; lia|]. cbn in Hk.
      rewrite (list_lookup_middle pre (y :: r) x (length pre) eq_refl).
      replace ((pre ++ x :: y :: r) !! S (length pre)) with (Some y).
      2:{ replace (S (length pre)) with (length pre + 1)%nat by lia.
          rewrite lookup_app_r by lia.
          replace (length pre + 1 - length pre)%nat with 1%nat by lia. reflexivity. }
      cbn [sink]. fold swap.
      destruct (swap x y).
      * rewrite swapTasks_adjacent.
        replace (pre ++ y :: x :: r) with ((pre ++ [y]) ++ x :: r)
          by (rewrite <- app_assoc; reflexivity).
        replace (S (length pre)) with (length (pre ++ [y]))
          by (rewrite length_app; cbn; lia).
        rewrite (IH k) by (rewrite ?length_app; cbn; lia).
        rewrite <- app_assoc. reflexivity.
      * replace (pre ++ x :: y :: r) with ((pre ++ [x]) ++ y :: r)
          by (rewrite <- app_assoc; reflexivity).
        replace (S (length pre)) with (length (pre ++ [x]))
          by (rewrite length_app; cbn; lia).
        rewrite (IH k) by (rewrite ?length_app; cbn; lia).
        rewrite <- app_assoc. reflexivity.
Qed.

Lemma sort_outer_spec n unsorted sorted tail count :
  (length unsorted - 1 <= n)%nat ->
  count <= 256 ->
  count = Z.of_nat (length unsorted + length sorted) ->
  StronglySorted (fun a b => swap a b = false) sorted ->
  Forall (fun u => Forall (fun s => swap u s = false) sorted) unsorted ->
  exists l,
    TaskManager.sort_outer n (length sorted) count sortType
      (unsorted ++ sorted ++ tail) = l ++ tail
    /\ l ≡ₚ unsorted ++ sorted
    /\ StronglySorted (fun a b => swap a b = false) l.
Proof.
  revert unsorted sorted. induction n as [|n IH];
    intros unsorted sorted Hn H256 Hc Hs Hab.
  - exists (unsorted ++ sorted). cbn [TaskManager.sort_outer].
    split; [rewrite <- app_assoc; reflexivity|]. split; [reflexivity|].
    destruct unsorted as [|u [|u' r]]; [exact Hs| |cbn in Hn; lia].
    cbn. constructor; [exact Hs|]. inversion Hab; subst. assumption.
  - cbn [TaskManager.sort_outer].
    destruct unsorted as [|x [|y r]].
    + exists sorted. 
      replace (Z.of_nat (length sorted) <? count - 1) with false
        by (symmetry; apply Z.ltb_ge; cbn in Hc; lia).
      split; [reflexivity|]. split; [reflexivity|exact Hs].
    + exists (x :: sorted).
      replace (Z.of_nat (length sorted) <? count - 1) with false
        by (symmetry; apply Z.ltb_ge; cbn in Hc; lia).
      split; [reflexivity|]. split; [reflexivity|].
      constructor; [exact Hs|]. inversion Hab; subst. assumption.
    + replace (Z.of_nat (length sorted) <? count - 1) with true
        by (symmetry; apply Z.ltb_lt; cbn in Hc; lia).
      pose proof (sort_inner_spec 256 (length (y :: r)) [] x
                    ((y :: r) ++ sorted ++ tail)
                    (count - Z.of_nat (length sorted) - 1)) as Hinner.
      change (@nil TaskManager.Task ++ x :: (y :: r) ++ sorted ++ tail)
        with (x :: (y :: r) ++ sorted ++ tail) in Hinner.
      change (length (@nil TaskManager.Task)) with 0%nat in Hinner.
      change ((x :: y :: r) ++ sorted ++ tail)
        with (x :: (y :: r) ++ sorted ++ tail).
      rewrite Hinner;
        [|cbn [length] in Hc |- *; lia|rewrite length_app; lia
         |cbn [length] in Hc |- *; lia].
      clear Hinner.
      rewrite sink_app by reflexivity.
      destruct (sink_max (length (y :: r)) x (y :: r) eq_refl)
        as (front & z & Hsink & Hperm & Hmax).
      rewrite Hsink. cbn [app].
      assert (Hlen : length front = length (y :: r)).
      { apply Permutation_length in Hperm. rewrite length_app in Hperm.
        cbn in Hperm |- *. lia. }
      assert (Hz : z ∈ x :: y :: r).
      { rewrite <- Hperm. apply elem_of_app. right. apply list_elem_of_singleton.
        reflexivity. }
      assert (Hfront : forall u, u ∈ front -> u ∈ x :: y :: r).
      { intros u Hu. rewrite <- Hperm. apply elem_of_app. left. exact Hu. }
      rewrite Forall_forall in Hab, Hmax.
      destruct (IH front (z :: sorted)) as (l & Hl & Hp & Hsorted).
      * cbn in Hn, Hlen. lia.
      * exact H256.
      * cbn in Hc, Hlen |- *. lia.
      * constructor; [exact Hs|]. apply Hab. exact Hz.
      * apply Forall_forall. intros u Hu. constructor.
        -- apply Hmax. apply Hfront. exact Hu.
        -- apply Hab. apply Hfront. exact Hu.
      * exists l. split.
        -- rewrite <- Hl. cbn [length].
           replace ((front ++ [z]) ++ sorted ++ tail)
             with (front ++ (z :: sorted) ++ tail)
             by (rewrite <- app_assoc; reflexivity).
           reflexivity.
        -- split; [|exact Hsorted].
           rewrite Hp.
           change (front ++ z :: sorted) with (front ++ [z] ++ sorted).
           rewrite app_assoc, Hperm. reflexivity.
Qed.

(** What [sort_outer] does to the array: the tasks in use are permuted
    into order, the rest is left alone. *)
Lemma sort_outer_sorts count ts :
  0 <= count <= 30 -> (Z.to_nat count <= length ts)%nat ->
  exists l,
    TaskManager.sort_outer 256 0 count sortType ts = l ++ drop (Z.to_nat count) ts
    /\ l ≡ₚ take (Z.to_nat count) ts
    /\ StronglySorted (placed_before sortType) l.
Proof.
  intros H0 Hlen.
  destruct (sort_outer_spec 256 (take (Z.to_nat count) ts) [] (drop (Z.to_nat count) ts) count)
    as (l & Hl & Hp & Hs).
  - rewrite length_take. lia.
  - lia.
  - rewrite length_take. cbn. lia.
  - constructor.
  - apply Forall_forall. intros. constructor.
  - exists l. rewrite app_nil_l, take_drop in Hl.
    split; [exact Hl|]. split; [rewrite app_nil_r in Hp; exact Hp|].
    clear -Hs. induction Hs as [|a l Hs IH Ha]; constructor; [exact IH|].
    eapply Forall_impl; [exact Ha|]. intros b Hb. apply swap_placed_before. exact Hb.
Qed.

End BubbleSort.

Section TaskEffects.

Local Close Scope string_scope.

Implicit Types (tm : TaskManager.t) (task : TaskManager.Task).

Lemma tasks_ok_room tm :
  tasks_ok tm ->
  (Z.to_nat (TaskManager.taskCount tm) <= length (TaskManager.tasks tm))%nat.
Proof. intros (Hlen & Hc & _). lia. Qed.

Lemma substring_length n s : (String.length (substring 0 n s) <= n)%nat.
Proof.
  revert s. induction n as [|n IH]; intros s.
  - destruct s; cbn; lia.
  - destruct s as [|c s]; cbn; [lia|]. specialize (IH s). lia.
Qed.

Lemma substring_short n s : (String.length s <= n)%nat -> substring 0 n s = s.
Proof.
  revert s. induction n as [|n IH]; intros s Hs.
  - destruct s; [reflexivity | cbn in Hs; lia].
  - destruct s as [|c s]; [reflexivity|]. cbn in Hs |- *. rewrite IH by lia.
    reflexivity.
Qed.

Lemma length_zero_empty s : (String.length s =? 0)%nat = true <-> s = EmptyString.
Proof.
  destruct s; cbn; split; intros H; try reflexivity; discriminate H.
Qed.

(** *** What each operation does to the tasks in use *)

Lemma findTaskIndex_spec taskId tm :
  tasks_ok tm ->
  TaskManager.findTaskIndex taskId tm =
    match list_find (fun task => TaskManager.id task = TaskManager.u16 taskId)
                    (live tm) with
    | Some (k, _) => Z.of_nat k
    | None => TaskManager.MAX_TASKS
    end.
Proof.
  intros Hok. pose proof (tasks_ok_room tm Hok) as Hroom.
  destruct Hok as (_ & Hc & _).
  unfold TaskManager.findTaskIndex.
  rewrite (find_loop_spec tm _ 256 0 Hroom) by lia.
  rewrite drop_0. destruct (list_find _ _) as [[k x]|]; reflexivity.
Qed.

Lemma getTask_Some taskId tm i :
  tasks_ok tm ->
  TaskManager.getTask taskId tm = Some i <->
  exists task, live tm !! i = Some task
    /\ TaskManager.id task = TaskManager.u16 taskId
    /\ forall j y, live tm !! j = Some y -> (j < i)%nat ->
         TaskManager.id y <> TaskManager.u16 taskId.
Proof.
  intros Hok. pose proof (tasks_ok_room tm Hok) as Hroom.
  pose proof (live_length tm Hroom) as Hlive.
  unfold TaskManager.getTask. rewrite (findTaskIndex_spec taskId tm Hok).
  destruct Hok as (_ & Hc & _).
  destruct (list_find _ _) as [[k x]|] eqn:E.
  - apply list_find_Some in E as (Hk & Hid & Hfirst).
    pose proof (lookup_lt_Some _ _ _ Hk) as Hlt.
    replace (Z.of_nat k <? TaskManager.taskCount tm) with true
      by (symmetry; apply Z.ltb_lt; lia).
    rewrite Nat2Z.id. split.
    + intros [= <-]. exists x. split; [exact Hk|]. split; [exact Hid|].
      intros j y Hj Hlt'. apply (Hfirst j y Hj Hlt').
    + intros (task & Hi & Hid' & Hfirst').
      f_equal. destruct (lt_eq_lt_dec k i) as [[Hlt'|Heq]|Hgt]; [|exact Heq|].
      * exfalso. apply (Hfirst' k x Hk Hlt'). exact Hid.
      * exfalso. apply (Hfirst i task Hi Hgt). exact Hid'.
  - apply list_find_None in E.
    replace (TaskManager.MAX_TASKS <? TaskManager.taskCount tm) with false
      by (symmetry; apply Z.ltb_ge; unfold TaskManager.MAX_TASKS; lia).
    split; [discriminate|].
    intros (task & Hi & Hid & _). exfalso.
    rewrite Forall_forall in E. apply (E task); [|exact Hid].
    apply list_elem_of_lookup. eauto.
Qed.

Lemma getTask_None taskId tm :
  tasks_ok tm ->
  TaskManager.getTask taskId tm = None <->
  Forall (fun task => TaskManager.id task <> TaskManager.u16 taskId) (live tm).
Proof.
  intros Hok. pose proof (tasks_ok_room tm Hok) as Hroom.
  pose proof (live_length tm Hroom) as Hlive.
  unfold TaskManager.getTask. rewrite (findTaskIndex_spec taskId tm Hok).
  destruct Hok as (_ & Hc & _).
  destruct (list_find _ _) as [[k x]|] eqn:E.
  - apply list_find_Some in E as (Hk & Hid & Hfirst).
    pose proof (lookup_lt_Some _ _ _ Hk) as Hlt.
    replace (Z.of_nat k <? TaskManager.taskCount tm) with true
      by (symmetry; apply Z.ltb_lt; lia).
    split; [discriminate|]. intros Hall. exfalso.
    rewrite Forall_forall in Hall. apply (Hall x); [|exact Hid].
    apply list_elem_of_lookup. eauto.
  - apply list_find_None in E.
    replace (TaskManager.MAX_TASKS <? TaskManager.taskCount tm) with false
      by (symmetry; apply Z.ltb_ge; unfold TaskManager.MAX_TASKS; lia).
    split; [intros _; exact E | reflexivity].
Qed.

(** The slot [getTask] returns is in use. *)
Lemma getTask_slot taskId tm i :
  tasks_ok tm -> TaskManager.getTask taskId tm = Some i ->
  exists task, TaskManager.tasks tm !! i = Some task /\ live tm !! i = Some task
    /\ Z.of_nat i < TaskManager.taskCount tm.
Proof.
  intros Hok Hg. apply (getTask_Some taskId tm i Hok) in Hg as (task & Hi & _).
  exists task. pose proof (lookup_lt_Some _ _ _ Hi) as Hlt.
  rewrite (live_length tm (tasks_ok_room tm Hok)) in Hlt.
  split; [|split; [exact Hi | lia]].
  unfold live in Hi. rewrite lookup_take_lt in Hi by lia. exact Hi.
Qed.

Lemma live_insert tm slot task :
  (slot < Z.to_nat (TaskManager.taskCount tm))%nat ->
  live (TaskManager.rebuildFilteredList
          (TaskManager.with_tasks (<[slot := task]> (TaskManager.tasks tm)) tm))
  = <[slot := task]> (live tm).
Proof.
  intros Hslot. unfold live. cbn [TaskManager.rebuildFilteredList
    TaskManager.with_tasks TaskManager.tasks TaskManager.taskCount].
  apply take_insert_lt. exact Hslot.
Qed.

Lemma addTask_rejects title priority category tm :
  title = None \/ title = Some EmptyString \/ 30 <= TaskManager.taskCount tm ->
  TaskManager.addTask title priority category tm = (false, tm).
Proof.
  unfold TaskManager.addTask. intros [-> | [-> | Hfull]]; [reflexivity| |].
  - rewrite orb_true_r. reflexivity.
  - destruct title as [s|]; [|reflexivity].
    replace (TaskManager.MAX_TASKS <=? TaskManager.taskCount tm) with true
      by (symmetry; apply Z.leb_le; exact Hfull).
    reflexivity.
Qed.

Lemma addTask_accepts s priority category tm :
  tasks_ok tm -> s <> EmptyString -> TaskManager.taskCount tm < 30 ->
  exists task,
    fst (TaskManager.addTask (Some s) priority category tm) = true
    /\ live (snd (TaskManager.addTask (Some s) priority category tm))
       = live tm ++ [task]
    /\ TaskManager.taskCount (snd (TaskManager.addTask (Some s) priority category tm))
       = TaskManager.taskCount tm + 1
    /\ TaskManager.nextId (snd (TaskManager.addTask (Some s) priority category tm))
       = TaskManager.u16 (TaskManager.nextId tm + 1)
    /\ length (TaskManager.tasks
                 (snd (TaskManager.addTask (Some s) priority category tm)))
       = length (TaskManager.tasks tm)
    /\ TaskManager.filterActive
         (snd (TaskManager.addTask (Some s) priority category tm))
       = TaskManager.filterActive tm
    /\ TaskManager.id task = TaskManager.nextId tm
    /\ TaskManager.isComplete task = false
    /\ TaskManager.title task = substring 0 31 s
    /\ TaskManager.priority task
       = (if (1 <=? TaskManager.u8 priority) && (TaskManager.u8 priority <=? 5)
          then TaskManager.u8 priority else 3)
    /\ TaskManager.category task
       = (if TaskManager.u8 category <=? 3 then TaskManager.u8 category else 0).
Proof.
  intros Hok Hs Hroom. pose proof (tasks_ok_room tm Hok) as Hfit.
  destruct Hok as (Hlen & Hc & _).
  unfold TaskManager.addTask.
  replace (TaskManager.MAX_TASKS <=? TaskManager.taskCount tm) with false
    by (symmetry; apply Z.leb_gt; exact Hroom).
  replace (String.length s =? 0)%nat with false
    by (symmetry; apply not_true_iff_false; rewrite length_zero_empty; exact Hs).
  cbn [orb fst snd].
  eexists. split; [reflexivity|]. split.
  { unfold live. cbn [TaskManager.rebuildFilteredList TaskManager.with_tasks
      TaskManager.with_nextId TaskManager.with_taskCount TaskManager.tasks
      TaskManager.taskCount].
    unfold TaskManager.u8. rewrite Z.mod_small by lia.
    replace (Z.to_nat (TaskManager.taskCount tm + 1))
      with (S (Z.to_nat (TaskManager.taskCount tm))) by lia.
    erewrite take_S_r by (apply list_lookup_insert_eq; lia).
    rewrite take_insert_ge by lia. reflexivity. }
  cbn [TaskManager.rebuildFilteredList TaskManager.with_tasks
      TaskManager.with_nextId TaskManager.with_taskCount TaskManager.tasks
      TaskManager.taskCount TaskManager.nextId TaskManager.filterActive
      TaskManager.id TaskManager.isComplete TaskManager.title
      TaskManager.priority TaskManager.category].
  split; [unfold TaskManager.u8; apply Z.mod_small; lia|].
  split; [reflexivity|]. split; [apply length_insert|].
  split; [reflexivity|]. split; [reflexivity|]. split; [reflexivity|].
  split; [reflexivity|]. split.
  - fold (TaskManager.u8 priority).
    destruct (Z.ltb_spec (TaskManager.u8 priority) 1),
      (Z.ltb_spec 5 (TaskManager.u8 priority)),
      (Z.leb_spec 1 (TaskManager.u8 priority)),
      (Z.leb_spec (TaskManager.u8 priority) 5); cbn [orb andb];
      try reflexivity; lia.
  - fold (TaskManager.u8 category).
    destruct (Z.ltb_spec 3 (TaskManager.u8 category)),
      (Z.leb_spec (TaskManager.u8 category) 3); try reflexivity; lia.
Qed.

Lemma deleteTask_missing taskId tm :
  tasks_ok tm -> TaskManager.getTask taskId tm = None ->
  TaskManager.deleteTask taskId tm = (false, tm).
Proof.
  intros Hok Hg. unfold TaskManager.getTask in Hg. unfold TaskManager.deleteTask.
  destruct (TaskManager.findTaskIndex taskId tm <? TaskManager.taskCount tm) eqn:E;
    [discriminate Hg|].
  apply Z.ltb_ge in E.
  replace (TaskManager.taskCount tm <=? TaskManager.findTaskIndex taskId tm)
    with true by (symmetry; apply Z.leb_le; exact E).
  reflexivity.
Qed.

Lemma deleteTask_found taskId tm i :
  tasks_ok tm -> TaskManager.getTask taskId tm = Some i ->
  fst (TaskManager.deleteTask taskId tm) = true
  /\ live (snd (TaskManager.deleteTask taskId tm)) = delete i (live tm)
  /\ TaskManager.taskCount (snd (TaskManager.deleteTask taskId tm))
     = TaskManager.taskCount tm - 1
  /\ TaskManager.nextId (snd (TaskManager.deleteTask taskId tm))
     = TaskManager.nextId tm
  /\ length (TaskManager.tasks (snd (TaskManager.deleteTask taskId tm)))
     = length (TaskManager.tasks tm)
  /\ TaskManager.filterActive (snd (TaskManager.deleteTask taskId tm))
     = TaskManager.filterActive tm.
Proof.
  intros Hok Hg. pose proof (tasks_ok_room tm Hok) as Hfit.
  destruct (getTask_slot taskId tm i Hok Hg) as (task & _ & _ & Hi).
  destruct Hok as (Hlen & Hc & _).
  unfold TaskManager.getTask in Hg. unfold TaskManager.deleteTask.
  destruct (TaskManager.findTaskIndex taskId tm <? TaskManager.taskCount tm) eqn:E;
    [|discriminate Hg].
  injection Hg as Hg. apply Z.ltb_lt in E.
  replace (TaskManager.taskCount tm <=? TaskManager.findTaskIndex taskId tm)
    with false by (symmetry; apply Z.leb_gt; exact E).
  rewrite Hg. cbn [fst snd].
  cbn [TaskManager.rebuildFilteredList TaskManager.with_tasks
      TaskManager.with_taskCount TaskManager.tasks
      TaskManager.taskCount TaskManager.nextId TaskManager.filterActive].
  assert (Hu : TaskManager.u8 (TaskManager.taskCount tm - 1)
               = TaskManager.taskCount tm - 1)
    by (unfold TaskManager.u8; apply Z.mod_small; lia).
  split; [reflexivity|]. split.
  { unfold live. cbn [TaskManager.rebuildFilteredList TaskManager.with_tasks
      TaskManager.with_taskCount TaskManager.tasks TaskManager.taskCount].
    rewrite Hu.
    replace (Z.to_nat (TaskManager.taskCount tm - 1))
      with (Z.to_nat (TaskManager.taskCount tm) - 1)%nat by lia.
    destruct (shift_loop_spec (TaskManager.taskCount tm) (TaskManager.tasks tm)
                256 i Hfit Hi ltac:(lia)) as [Hshift _].
    rewrite Hshift. apply delete_live. lia. }
  split; [exact Hu|]. split; [reflexivity|].
  split; [apply shift_loop_length | reflexivity].
Qed.

Lemma toggleTaskComplete_missing taskId tm :
  TaskManager.getTask taskId tm = None ->
  TaskManager.toggleTaskComplete taskId tm = (false, tm).
Proof. intros H. unfold TaskManager.toggleTaskComplete. rewrite H. reflexivity. Qed.

Lemma toggleTaskComplete_found taskId tm i :
  tasks_ok tm -> TaskManager.getTask taskId tm = Some i ->
  exists task,
    live tm !! i = Some task
    /\ TaskManager.id task = TaskManager.u16 taskId
    /\ TaskManager.toggleTaskComplete taskId tm
       = (true,
          TaskManager.rebuildFilteredList
            (TaskManager.with_tasks
               (<[i := TaskManager.with_isComplete
                         (negb (TaskManager.isComplete task)) task]>
                  (TaskManager.tasks tm)) tm)).
Proof.
  intros Hok Hg.
  destruct (getTask_slot taskId tm i Hok Hg) as (task & Ht & Hl & _).
  pose proof (proj1 (getTask_Some taskId tm i Hok) Hg) as (task' & Hl' & Hid & _).
  assert (task' = task) as -> by congruence.
  exists task. split; [exact Hl|]. split; [exact Hid|].
  unfold TaskManager.toggleTaskComplete. rewrite Hg, Ht. reflexivity.
Qed.

Lemma editTask_missing taskId newTitle newPriority newCategory tm :
  TaskManager.getTask taskId tm = None ->
  TaskManager.editTask taskId newTitle newPriority newCategory tm = (false, tm).
Proof. intros H. unfold TaskManager.editTask. rewrite H. reflexivity. Qed.

Lemma editTask_found taskId newTitle newPriority newCategory tm i :
  tasks_ok tm -> TaskManager.getTask taskId tm = Some i ->
  exists task task',
    live tm !! i = Some task
    /\ TaskManager.editTask taskId newTitle newPriority newCategory tm
       = (true,
          TaskManager.rebuildFilteredList
            (TaskManager.with_tasks (<[i := task']> (TaskManager.tasks tm)) tm))
    /\ TaskManager.id task' = TaskManager.id task
    /\ TaskManager.isComplete task' = TaskManager.isComplete task
    /\ TaskManager.title task'
       = match newTitle with
         | Some s => substring 0 31 s
         | None => TaskManager.title task
         end
    /\ TaskManager.priority task'
       = (if (1 <=? TaskManager.u8 newPriority) && (TaskManager.u8 newPriority <=? 5)
          then TaskManager.u8 newPriority else TaskManager.priority task)
    /\ TaskManager.category task'
       = (if TaskManager.u8 newCategory <=? 3
          then TaskManager.u8 newCategory else TaskManager.category task).
Proof.
  intros Hok Hg.
  destruct (getTask_slot taskId tm i Hok Hg) as (task & Ht & Hl & _).
  exists task. eexists. split; [exact Hl|].
  split; [unfold TaskManager.editTask; rewrite Hg, Ht; reflexivity|].
  destruct newTitle as [s|];
    destruct ((1 <=? TaskManager.u8 newPriority) && (TaskManager.u8 newPriority <=? 5));
    destruct (TaskManager.u8 newCategory <=? 3); repeat split.
Qed.

Lemma sortTasks_live sortType tm :
  tasks_ok tm ->
  live (TaskManager.sortTasks sortType tm) ≡ₚ live tm
  /\ StronglySorted (placed_before sortType) (live (TaskManager.sortTasks sortType tm))
  /\ length (TaskManager.tasks (TaskManager.sortTasks sortType tm))
     = length (TaskManager.tasks tm)
  /\ drop (Z.to_nat (TaskManager.taskCount tm))
          (TaskManager.tasks (TaskManager.sortTasks sortType tm))
     = drop (Z.to_nat (TaskManager.taskCount tm)) (TaskManager.tasks tm).
Proof.
  intros Hok. pose proof (tasks_ok_room tm Hok) as Hfit.
  destruct Hok as (Hlen & Hc & _).
  destruct (sort_outer_sorts sortType (TaskManager.taskCount tm)
              (TaskManager.tasks tm) Hc Hfit) as (l & Hl & Hp & Hs).
  assert (Hll : length l = Z.to_nat (TaskManager.taskCount tm)).
  { rewrite (Permutation_length Hp), length_take. lia. }
  unfold live, TaskManager.sortTasks.
  cbn [TaskManager.rebuildFilteredList TaskManager.with_tasks TaskManager.tasks
       TaskManager.taskCount].
  rewrite Hl.
  rewrite take_app_length' by (symmetry; exact Hll).
  split; [exact Hp|]. split; [exact Hs|]. split.
  - rewrite length_app, length_drop. lia.
  - rewrite drop_app_length' by (symmetry; exact Hll). reflexivity.
Qed.

(** *** The invariant *)

Lemma task_ok_forall_insert l i task task' :
  Forall task_ok l -> l !! i = Some task ->
  TaskManager.id task' = TaskManager.id task ->
  1 <= TaskManager.priority task' <= 5 ->
  0 <= TaskManager.category task' <= 3 ->
  (String.length (TaskManager.title task') <= 31)%nat ->
  Forall task_ok (<[i := task']> l).
Proof.
  intros Hall Hi Hid Hp Hc Ht. apply Forall_insert; [exact Hall|].
  rewrite Forall_forall in Hall.
  destruct (Hall task) as (_ & _ & _ & Hidr); [apply list_elem_of_lookup; eauto|].
  unfold task_ok. rewrite Hid. repeat split; lia.
Qed.

Lemma u8_range z : 0 <= TaskManager.u8 z < 256.
Proof. unfold TaskManager.u8. apply Z.mod_pos_bound. lia. Qed.

Lemma u16_range z : 0 <= TaskManager.u16 z < 2 ^ 16.
Proof. unfold TaskManager.u16. apply Z.mod_pos_bound. lia. Qed.

Lemma task_call_filteredCount c tm :
  TaskManager.filteredCount tm = TaskManager.taskCount tm ->
  TaskManager.filteredCount (task_call c tm)
  = TaskManager.taskCount (task_call c tm).
Proof.
  intros H. destruct c as [title ? ? | ? | ? | ? ? ? ? | ? | ]; cbn [task_call].
  - unfold TaskManager.addTask. destruct title; [|exact H].
    destruct (_ || _); [exact H | reflexivity].
  - unfold TaskManager.deleteTask. destruct (_ <=? _); [exact H | reflexivity].
  - unfold TaskManager.toggleTaskComplete.
    destruct (TaskManager.getTask _ _); [|exact H].
    destruct (_ !! _); [reflexivity | exact H].
  - unfold TaskManager.editTask.
    destruct (TaskManager.getTask _ _); [|exact H].
    destruct (_ !! _); [reflexivity | exact H].
  - reflexivity.
  - reflexivity.
Qed.

Lemma task_call_ok c tm : tasks_ok tm -> tasks_ok (task_call c tm).
Proof.
  intros Hok. pose proof Hok as (Hlen & Hc & Hn & Hf & Hfc & Hall).
  destruct c as [title priority category | taskId | taskId
                | taskId newTitle newPriority newCategory | sortType | ];
    cbn [task_call].
  - (* addTask *)
    destruct title as [s|]; [|rewrite addTask_rejects by auto; exact Hok].
    destruct (String.eqb_spec s EmptyString) as [-> | Hs];
      [rewrite addTask_rejects by auto; exact Hok|].
    destruct (Z_lt_le_dec (TaskManager.taskCount tm) 30) as [Hroom | Hfull];
      [|rewrite addTask_rejects by auto; exact Hok].
    destruct (addTask_accepts s priority category tm Hok Hs Hroom)
      as (task & _ & Hl & Hc' & Hn' & Hlen' & Hf' & Hid & _ & Ht & Hp & Hcat).
    set (tm' := snd (TaskManager.addTask (Some s) priority category tm)) in *.
    unfold tasks_ok. rewrite Hl, Hc', Hn', Hlen', Hf'.
    split; [exact Hlen|]. split; [lia|]. split; [apply u16_range|].
    split; [exact Hf|].
    split; [rewrite <- Hc';
            apply (task_call_filteredCount (Call_addTask (Some s) priority category));
            exact Hfc|].
    apply Forall_app. split; [exact Hall|]. constructor; [|constructor].
    pose proof (u8_range priority). pose proof (u8_range category).
    unfold task_ok. rewrite Hp, Hcat, Ht, Hid.
    split; [|split; [|split; [apply substring_length | exact Hn]]].
    + destruct (Z.leb_spec 1 (TaskManager.u8 priority)),
        (Z.leb_spec (TaskManager.u8 priority) 5); cbn [andb]; lia.
    + destruct (Z.leb_spec (TaskManager.u8 category) 3); lia.
  - (* deleteTask *)
    destruct (TaskManager.getTask taskId tm) as [i|] eqn:Hg;
      [|rewrite deleteTask_missing by assumption; exact Hok].
    destruct (deleteTask_found taskId tm i Hok Hg)
      as (_ & Hl & Hc' & Hn' & Hlen' & Hf').
    destruct (getTask_slot taskId tm i Hok Hg) as (_ & _ & _ & Hi).
    set (tm' := snd (TaskManager.deleteTask taskId tm)) in *.
    unfold tasks_ok. rewrite Hl, Hc', Hn', Hlen', Hf'.
    split; [exact Hlen|]. split; [lia|]. split; [exact Hn|].
    split; [exact Hf|].
    split; [rewrite <- Hc';
            apply (task_call_filteredCount (Call_deleteTask taskId)); exact Hfc|].
    apply Forall_delete. exact Hall.
  - (* toggleTaskComplete *)
    destruct (TaskManager.getTask taskId tm) as [i|] eqn:Hg;
      [|rewrite toggleTaskComplete_missing by assumption; exact Hok].
    destruct (toggleTaskComplete_found taskId tm i Hok Hg) as (task & Hi & _ & ->).
    destruct (getTask_slot taskId tm i Hok Hg) as (_ & _ & _ & Hlt).
    cbn [snd]. unfold tasks_ok. rewrite live_insert by lia.
    cbn [TaskManager.rebuildFilteredList TaskManager.with_tasks TaskManager.tasks
         TaskManager.taskCount TaskManager.nextId TaskManager.filterActive
         TaskManager.filteredCount].
    rewrite length_insert.
    split; [exact Hlen|]. split; [lia|]. split; [exact Hn|].
    split; [exact Hf|]. split; [reflexivity|].
    rewrite Forall_forall in Hall.
    destruct (Hall task) as (Hp & Hcat & Ht & _); [apply list_elem_of_lookup; eauto|].
    apply (task_ok_forall_insert _ i task); auto.
    apply Forall_forall. exact Hall.
  - (* editTask *)
    destruct (TaskManager.getTask taskId tm) as [i|] eqn:Hg;
      [|rewrite editTask_missing by assumption; exact Hok].
    destruct (editTask_found taskId newTitle newPriority newCategory tm i Hok Hg)
      as (task & task' & Hi & -> & Hid & _ & Ht & Hp & Hcat).
    destruct (getTask_slot taskId tm i Hok Hg) as (_ & _ & _ & Hlt).
    cbn [snd]. unfold tasks_ok. rewrite live_insert by lia.
    cbn [TaskManager.rebuildFilteredList TaskManager.with_tasks TaskManager.tasks
         TaskManager.taskCount TaskManager.nextId TaskManager.filterActive
         TaskManager.filteredCount].
    rewrite length_insert.
    split; [exact Hlen|]. split; [lia|]. split; [exact Hn|].
    split; [exact Hf|]. split; [reflexivity|].
    pose proof Hall as Hall'. rewrite Forall_forall in Hall'.
    destruct (Hall' task) as (Hp0 & Hcat0 & Ht0 & _); [apply list_elem_of_lookup; eauto|].
    apply (task_ok_forall_insert _ i task); auto.
    + rewrite Hp. destruct (Z.leb_spec 1 (TaskManager.u8 newPriority)),
        (Z.leb_spec (TaskManager.u8 newPriority) 5); cbn [andb]; lia.
    + rewrite Hcat. pose proof (u8_range newCategory).
      destruct (Z.leb_spec (TaskManager.u8 newCategory) 3); lia.
    + rewrite Ht. destruct newTitle; [apply substring_length | exact Ht0].
  - (* sortTasks *)
    destruct (sortTasks_live sortType tm Hok) as (Hp & _ & Hlen' & _).
    unfold tasks_ok. rewrite Hlen', Hp.
    split; [exact Hlen|]. split; [exact Hc|]. split; [exact Hn|].
    split; [exact Hf|]. split; [reflexivity | exact Hall].
  - (* reset *)
    unfold tasks_ok, live. cbn [TaskManager.reset TaskManager.tasks
      TaskManager.taskCount TaskManager.nextId TaskManager.filterActive
      TaskManager.filteredCount].
    split; [exact Hlen|]. split; [lia|]. split; [lia|].
    split; [reflexivity|]. split; [reflexivity|]. constructor.
Qed.

Lemma create_ok uninitialised : tasks_ok (TaskManager.create uninitialised).
Proof.
  unfold tasks_ok, live. cbn. repeat split; try lia. constructor.
Qed.

Lemma task_calls_ok cs : forall tm, tasks_ok tm -> tasks_ok (task_calls cs tm).
Proof.
  induction cs as [|c cs IH]; intros tm Hok; [exact Hok|].
  apply (IH (task_call c tm)). apply task_call_ok. exact Hok.
Qed.

End TaskEffects.

Section TaskManagerProperties.

Local Close Scope string_scope.

Implicit Types (tm : TaskManager.t) (task : TaskManager.Task).

Lemma new_manager_ok : tasks_ok new_manager.
Proof. apply create_ok. Qed.

Lemma three_tasks_ok : tasks_ok three_tasks.
Proof. apply task_calls_ok, new_manager_ok. Qed.

(** X16.  The invariant of the task manager.  Whatever is called on it, in
    any order and with any arguments, a task manager keeps its array of 30
    slots with between 0 and 30 of them in use, the filter off and the
    filtered count equal to the task count, and every task in use has a
    priority from 1 to 5, a category from 0 to 3, a title of at most 31
    characters and an id that fits 16 bits. *)
Theorem task_manager_invariant (cs : list TaskCall) (uninitialised : list Z) :
  tasks_ok (task_calls cs (TaskManager.create uninitialised)).
Proof. apply task_calls_ok, create_ok. Qed.

(** X17.  [addTask] appends or rejects.  It returns [true] exactly when the
    title is present and not empty and fewer than 30 tasks are in use; a
    rejected call leaves the manager as it was; an accepted one appends one
    task behind the tasks in use, all of which it keeps: open, with the id
    [nextId], the first 31 characters of the title (all of it if it has no
    more), the priority given if that is from 1 to 5 and 3 otherwise, the
    category given if that is from 0 to 3 and 0 otherwise. *)
Theorem addTask_appends_or_rejects title priority category tm :
  tasks_ok tm ->
  0 <= priority < 256 -> 0 <= category < 256 ->
  (fst (TaskManager.addTask title priority category tm) = true
   <-> exists s, title = Some s /\ s <> EmptyString /\ TaskManager.taskCount tm < 30)
  /\ (fst (TaskManager.addTask title priority category tm) = false ->
      snd (TaskManager.addTask title priority category tm) = tm)
  /\ (forall s, title = Some s ->
      fst (TaskManager.addTask title priority category tm) = true ->
      exists task,
        live (snd (TaskManager.addTask title priority category tm))
        = live tm ++ [task]
        /\ TaskManager.id task = TaskManager.nextId tm
        /\ TaskManager.isComplete task = false
        /\ TaskManager.title task = substring 0 31 s
        /\ ((String.length s <= 31)%nat -> TaskManager.title task = s)
        /\ (1 <= priority <= 5 -> TaskManager.priority task = priority)
        /\ (~ 1 <= priority <= 5 -> TaskManager.priority task = 3)
        /\ (category <= 3 -> TaskManager.category task = category)
        /\ (3 < category -> TaskManager.category task = 0)).
Proof.
  intros Hok Hp Hc.
  assert (Hcases :
            (exists s, title = Some s /\ s <> EmptyString
                       /\ TaskManager.taskCount tm < 30)
            \/ (title = None \/ title = Some EmptyString
                \/ 30 <= TaskManager.taskCount tm)).
  { destruct title as [s|]; [|auto].
    destruct (String.eqb_spec s EmptyString) as [-> | Hs]; [auto|].
    destruct (Z_lt_le_dec (TaskManager.taskCount tm) 30); [left; eauto | auto]. }
  destruct Hcases as [(s & -> & Hs & Hroom) | Hrej].
  - destruct (addTask_accepts s priority category tm Hok Hs Hroom)
      as (task & Hfst & Hl & _ & _ & _ & _ & Hid & Hopen & Ht & Hpr & Hcat).
    split; [split; [intros _; eauto | intros _; exact Hfst]|].
    split; [rewrite Hfst; discriminate|].
    intros s' [= <-] _. exists task.
    split; [exact Hl|]. split; [exact Hid|]. split; [exact Hopen|].
    split; [exact Ht|].
    unfold TaskManager.u8 in Hpr, Hcat.
    rewrite Z.mod_small in Hpr, Hcat by lia.
    split; [intros Hshort; rewrite Ht; apply substring_short; exact Hshort|].
    rewrite Hpr, Hcat.
    destruct (Z.leb_spec 1 priority), (Z.leb_spec priority 5),
      (Z.leb_spec category 3); cbn [andb];
      repeat split; intros; try reflexivity; lia.
  - rewrite (addTask_rejects title priority category tm Hrej). cbn [fst snd].
    split; [split; [discriminate|]|].
    + intros (s & -> & Hs & Hroom).
      destruct Hrej as [H | [H | H]]; [discriminate H | congruence | lia].
    + split; [reflexivity|]. intros s _ H. discriminate H.
Qed.

Lemma addTask_appends_or_rejects_witness :
  fst (TaskManager.addTask (Some "Pay rent"%string) 4 1 three_tasks) = true
  /\ fst (TaskManager.addTask (Some EmptyString) 4 1 three_tasks) = false.
Proof.
  destruct (addTask_appends_or_rejects (Some "Pay rent"%string) 4 1 three_tasks
              three_tasks_ok ltac:(lia) ltac:(lia)) as [Hyes _].
  destruct (addTask_appends_or_rejects (Some EmptyString) 4 1 three_tasks
              three_tasks_ok ltac:(lia) ltac:(lia)) as [Hno _].
  split.
  - apply Hyes. eexists. split; [reflexivity|]. split; [discriminate|].
    vm_compute. reflexivity.
  - apply not_true_iff_false. intros H. apply Hno in H as (s & [= <-] & Hs & _).
    apply Hs. reflexivity.
Defined.

(** *** Ids *)

Lemma fmap_id_insert (l : list TaskManager.Task) i task task' :
  l !! i = Some task -> TaskManager.id task' = TaskManager.id task ->
  TaskManager.id <$> <[i := task']> l = TaskManager.id <$> l.
Proof.
  intros Hi Hid. rewrite list_fmap_insert. apply list_insert_id.
  rewrite list_lookup_fmap, Hi, Hid. reflexivity.
Qed.

Lemma ids_fresh_insert tm i task task' :
  ids_fresh tm -> live tm !! i = Some task ->
  (i < Z.to_nat (TaskManager.taskCount tm))%nat ->
  TaskManager.id task' = TaskManager.id task ->
  ids_fresh (TaskManager.rebuildFilteredList
               (TaskManager.with_tasks (<[i := task']> (TaskManager.tasks tm)) tm)).
Proof.
  intros (H1 & Hnd & Hall) Hi Hlt Hid. unfold ids_fresh.
  rewrite live_insert by exact Hlt.
  rewrite (fmap_id_insert _ i task task' Hi Hid).
  split; [exact H1|]. split; [exact Hnd|].
  apply Forall_insert; [exact Hall|]. rewrite Hid.
  rewrite Forall_forall in Hall. apply Hall. apply list_elem_of_lookup. eauto.
Qed.

Lemma task_call_fresh c tm :
  tasks_ok tm -> ids_fresh tm -> TaskManager.nextId tm < 65535 ->
  ids_fresh (task_call c tm)
  /\ TaskManager.nextId (task_call c tm) <= TaskManager.nextId tm + 1.
Proof.
  intros Hok Hfresh Hn. pose proof Hfresh as (H1 & Hnd & Hall).
  assert (Hsame : ids_fresh tm /\ TaskManager.nextId tm <= TaskManager.nextId tm + 1)
    by (split; [exact Hfresh | lia]).
  destruct c as [title priority category | taskId | taskId
                | taskId newTitle newPriority newCategory | sortType | ];
    cbn [task_call].
  - destruct title as [s|]; [|rewrite addTask_rejects by auto; exact Hsame].
    destruct (String.eqb_spec s EmptyString) as [-> | Hs];
      [rewrite addTask_rejects by auto; exact Hsame|].
    destruct (Z_lt_le_dec (TaskManager.taskCount tm) 30) as [Hroom | Hfull];
      [|rewrite addTask_rejects by auto; exact Hsame].
    destruct (addTask_accepts s priority category tm Hok Hs Hroom)
      as (task & _ & Hl & _ & Hn' & _ & _ & Hid & _).
    unfold TaskManager.u16 in Hn'. rewrite Z.mod_small in Hn' by lia.
    unfold ids_fresh. rewrite Hl, Hn'. split; [|lia].
    split; [lia|]. split.
    + rewrite fmap_app. apply NoDup_app. split; [exact Hnd|]. split.
      * intros x Hx Hx'. apply list_elem_of_singleton in Hx'. subst x.
        apply list_elem_of_fmap in Hx as (y & Hy & Hin).
        rewrite Forall_forall in Hall. specialize (Hall y Hin). cbn in Hy. lia.
      * apply NoDup_singleton.
    + apply Forall_app. split.
      * eapply Forall_impl; [exact Hall|]. intros y Hy. cbn in Hy |- *. lia.
      * constructor; [lia | constructor].
  - destruct (TaskManager.getTask taskId tm) as [i|] eqn:Hg;
      [|rewrite deleteTask_missing by assumption; exact Hsame].
    destruct (deleteTask_found taskId tm i Hok Hg) as (_ & Hl & _ & Hn' & _).
    unfold ids_fresh. rewrite Hl, Hn'. split; [|lia].
    split; [exact H1|]. split.
    + rewrite list_fmap_delete. eapply sublist_NoDup; [exact Hnd|].
      apply sublist_delete.
    + apply Forall_delete. exact Hall.
  - destruct (TaskManager.getTask taskId tm) as [i|] eqn:Hg;
      [|rewrite toggleTaskComplete_missing by assumption; exact Hsame].
    destruct (toggleTaskComplete_found taskId tm i Hok Hg) as (task & Hi & _ & ->).
    destruct (getTask_slot taskId tm i Hok Hg) as (_ & _ & _ & Hlt).
    cbn [snd]. split; [|cbn; lia].
    apply (ids_fresh_insert tm i task); [exact Hfresh | exact Hi | lia | reflexivity].
  - destruct (TaskManager.getTask taskId tm) as [i|] eqn:Hg;
      [|rewrite editTask_missing by assumption; exact Hsame].
    destruct (editTask_found taskId newTitle newPriority newCategory tm i Hok Hg)
      as (task & task' & Hi & -> & Hid & _).
    destruct (getTask_slot taskId tm i Hok Hg) as (_ & _ & _ & Hlt).
    cbn [snd]. split; [|cbn; lia].
    apply (ids_fresh_insert tm i task); [exact Hfresh | exact Hi | lia | exact Hid].
  - destruct (sortTasks_live sortType tm Hok) as (Hp & _).
    split; [|cbn; lia]. unfold ids_fresh. rewrite Hp.
    split; [exact H1|]. split; [exact Hnd | exact Hall].
  - split; [|cbn; lia]. unfold ids_fresh, live. cbn.
    split; [lia|]. split; constructor.
Qed.

Lemma task_calls_fresh cs : forall tm k,
  tasks_ok tm -> ids_fresh tm ->
  TaskManager.nextId tm <= 1 + Z.of_nat k ->
  Z.of_nat k + Z.of_nat (length cs) < 65535 ->
  ids_fresh (task_calls cs tm).
Proof.
  induction cs as [|c cs IH]; intros tm k Hok Hfresh Hn Hk; [exact Hfresh|].
  cbn [length] in Hk.
  destruct (task_call_fresh c tm Hok Hfresh ltac:(lia)) as [Hfresh' Hn'].
  apply (IH (task_call c tm) (S k)); [apply task_call_ok; exact Hok
                                     | exact Hfresh' | lia | lia].
Qed.


Lemma three_tasks_fresh : ids_fresh three_tasks.
Proof.
  apply (task_calls_fresh _ new_manager 0).
  - apply new_manager_ok.
  - unfold ids_fresh, live. cbn. split; [lia|]. split; constructor.
  - cbn. lia.
  - cbn. lia.
Qed.


(** *** Looking a task up *)

Lemma task_id_u16 tm task :
  tasks_ok tm -> task ∈ live tm ->
  TaskManager.u16 (TaskManager.id task) = TaskManager.id task.
Proof.
  intros (_ & _ & _ & _ & _ & Hall) Hin. rewrite Forall_forall in Hall.
  destruct (Hall task Hin) as (_ & _ & _ & Hid).
  unfold TaskManager.u16. apply Z.mod_small. exact Hid.
Qed.

Lemma getTask_unique tm i task :
  tasks_ok tm -> NoDup (TaskManager.id <$> live tm) ->
  live tm !! i = Some task ->
  TaskManager.getTask (TaskManager.id task) tm = Some i.
Proof.
  intros Hok Hnd Hi. apply (getTask_Some _ tm i Hok). exists task.
  assert (Hin : task ∈ live tm) by (apply list_elem_of_lookup; eauto).
  rewrite (task_id_u16 tm task Hok Hin).
  split; [exact Hi|]. split; [reflexivity|].
  intros j y Hj Hlt Heq.
  assert (j = i); [|lia].
  apply (NoDup_lookup _ j i (TaskManager.id task) Hnd);
    rewrite list_lookup_fmap; [rewrite Hj; cbn; rewrite Heq | rewrite Hi];
    reflexivity.
Qed.

(** X19.  [getTask] finds a task by its id.  The slot it returns is in use
    and holds a task with the id asked for (taken as a 16-bit number); it
    returns no slot exactly when no task in use has that id; and when the
    ids in use are distinct, every task in use is found under its id, at its
    own slot. *)
Theorem getTask_finds_by_id taskId tm :
  tasks_ok tm ->
  (forall i, TaskManager.getTask taskId tm = Some i ->
     exists task, TaskManager.tasks tm !! i = Some task /\ live tm !! i = Some task
       /\ TaskManager.id task = TaskManager.u16 taskId)
  /\ (TaskManager.getTask taskId tm = None
      <-> forall task, task ∈ live tm -> TaskManager.id task <> TaskManager.u16 taskId)
  /\ (NoDup (TaskManager.id <$> live tm) ->
      forall i task, live tm !! i = Some task ->
        TaskManager.getTask (TaskManager.id task) tm = Some i).
Proof.
  intros Hok. split; [|split].
  - intros i Hg.
    destruct (getTask_slot taskId tm i Hok Hg) as (task & Ht & Hl & _).
    destruct (proj1 (getTask_Some taskId tm i Hok) Hg) as (task' & Hl' & Hid & _).
    exists task. split; [exact Ht|]. split; [exact Hl|]. congruence.
  - rewrite (getTask_None taskId tm Hok), Forall_forall. reflexivity.
  - intros Hnd i task. apply getTask_unique; assumption.
Qed.

Lemma getTask_finds_by_id_witness :
  TaskManager.getTask 2 three_tasks = Some 1%nat.
Proof.
  destruct (getTask_finds_by_id 2 three_tasks three_tasks_ok) as (_ & _ & H).
  apply (H (proj1 (proj2 three_tasks_fresh))
           1%nat (TaskManager.mkTask "Write report" 5 false 0 2)).
  reflexivity.
Defined.

(** *** Deleting *)

(** X20.  [deleteTask] removes the task and nothing else.  When no task in
    use has the id, it returns [false] and changes nothing.  Otherwise it
    returns [true], and the tasks in use are those before without the one at
    the slot [getTask] finds, in the same order; [nextId] is not touched, so
    the id is not given out again.  With distinct ids, the id is then no
    longer found, and every other task is still found under its id, one
    slot lower if it stood behind the deleted one. *)
Theorem deleteTask_removes_the_task taskId tm :
  tasks_ok tm ->
  (TaskManager.getTask taskId tm = None ->
   TaskManager.deleteTask taskId tm = (false, tm))
  /\ (forall i, TaskManager.getTask taskId tm = Some i ->
      fst (TaskManager.deleteTask taskId tm) = true
      /\ live (snd (TaskManager.deleteTask taskId tm)) = delete i (live tm)
      /\ TaskManager.nextId (snd (TaskManager.deleteTask taskId tm))
         = TaskManager.nextId tm
      /\ (NoDup (TaskManager.id <$> live tm) ->
          TaskManager.getTask taskId (snd (TaskManager.deleteTask taskId tm)) = None
          /\ forall j task, live tm !! j = Some task -> j <> i ->
               TaskManager.getTask (TaskManager.id task)
                 (snd (TaskManager.deleteTask taskId tm))
               = Some (if decide (j < i)%nat then j else (j - 1)%nat))).
Proof.
  intros Hok. split; [apply deleteTask_missing; exact Hok|].
  intros i Hg.
  destruct (deleteTask_found taskId tm i Hok Hg) as (Hfst & Hl & _ & Hn & _).
  pose proof (task_call_ok (Call_deleteTask taskId) tm Hok) as Hok'.
  cbn [task_call] in Hok'.
  split; [exact Hfst|]. split; [exact Hl|]. split; [exact Hn|].
  intros Hnd.
  destruct (proj1 (getTask_Some taskId tm i Hok) Hg) as (gone & Hi & Hid & _).
  assert (Hnd' : NoDup (TaskManager.id
                          <$> live (snd (TaskManager.deleteTask taskId tm)))).
  { rewrite Hl, list_fmap_delete. eapply sublist_NoDup; [exact Hnd|].
    apply sublist_delete. }
  split.
  - apply (getTask_None taskId _ Hok'). rewrite Hl. apply Forall_forall.
    intros y Hy Heq. apply list_elem_of_lookup in Hy as (j & Hj).
    rewrite list_lookup_delete in Hj.
    set (j' := if decide (j < i)%nat then j else S j) in *.
    assert (j' = i); [|subst j'; destruct (decide (j < i)%nat); lia].
    apply (NoDup_lookup _ j' i (TaskManager.u16 taskId) Hnd);
      rewrite list_lookup_fmap; [rewrite Hj; cbn; rewrite Heq | rewrite Hi; cbn; rewrite Hid];
      reflexivity.
  - intros j task Hj Hne.
    apply (getTask_unique _ _ task Hok' Hnd'). rewrite Hl, list_lookup_delete.
    destruct (decide (j < i)%nat) as [Hlt | Hge].
    + rewrite decide_True by exact Hlt. exact Hj.
    + rewrite decide_False by lia.
      replace (S (j - 1)) with j by lia. exact Hj.
Qed.

Lemma deleteTask_removes_the_task_witness :
  live (snd (TaskManager.deleteTask 2 three_tasks)) = delete 1%nat (live three_tasks)
  /\ TaskManager.getTask 2 (snd (TaskManager.deleteTask 2 three_tasks)) = None.
Proof.
  destruct (deleteTask_removes_the_task 2 three_tasks three_tasks_ok) as [_ H].
  assert (Hg : TaskManager.getTask 2 three_tasks = Some 1%nat)
    by (vm_compute; reflexivity).
  destruct (H 1%nat Hg) as (_ & Hl & _ & Hgone).
  split; [exact Hl|].
  destruct three_tasks_fresh as (_ & Hnd & _).
  destruct (Hgone Hnd) as [Hnone _]. exact Hnone.
Defined.

(** *** Completing *)

Lemma getCompletedCount_spec tm :
  tasks_ok tm ->
  TaskManager.getCompletedCount tm
  = Z.of_nat (length (List.filter TaskManager.isComplete (live tm))).
Proof.
  intros Hok. pose proof (tasks_ok_room tm Hok) as Hfit.
  pose proof (live_length tm Hfit) as Hlive.
  destruct Hok as (_ & Hc & _).
  unfold TaskManager.getCompletedCount.
  rewrite (completed_loop_spec tm 256 0 0 Hfit) by (rewrite ?drop_0; lia).
  rewrite drop_0. lia.
Qed.






(** *** Editing *)

Lemma task_eq task task' :
  TaskManager.title task' = TaskManager.title task ->
  TaskManager.priority task' = TaskManager.priority task ->
  TaskManager.isComplete task' = TaskManager.isComplete task ->
  TaskManager.category task' = TaskManager.category task ->
  TaskManager.id task' = TaskManager.id task ->
  task' = task.
Proof. destruct task, task'. cbn. intros. congruence. Qed.

(** X22.  [editTask] changes one task and keeps who it is.  It returns
    [true] exactly when [getTask] finds the id.  Whatever the arguments, the
    ids and the completion marks of the tasks in use, the task count and
    [nextId] stay as they are, and every task but the one found is left
    alone; the one found takes the first 31 characters of a title that is
    given, a priority from 1 to 5 and a category from 0 to 3, and keeps what
    it had otherwise.  Called with the defaults of its declaration (no
    title, priority 0, category 255) it leaves the task array unchanged. *)
Theorem editTask_keeps_identity taskId newTitle newPriority newCategory tm :
  tasks_ok tm ->
  0 <= newPriority < 256 -> 0 <= newCategory < 256 ->
  (fst (TaskManager.editTask taskId newTitle newPriority newCategory tm) = true
   <-> is_Some (TaskManager.getTask taskId tm))
  /\ TaskManager.id
       <$> live (snd (TaskManager.editTask taskId newTitle newPriority newCategory tm))
     = TaskManager.id <$> live tm
  /\ TaskManager.isComplete
       <$> live (snd (TaskManager.editTask taskId newTitle newPriority newCategory tm))
     = TaskManager.isComplete <$> live tm
  /\ TaskManager.taskCount
       (snd (TaskManager.editTask taskId newTitle newPriority newCategory tm))
     = TaskManager.taskCount tm
  /\ TaskManager.nextId
       (snd (TaskManager.editTask taskId newTitle newPriority newCategory tm))
     = TaskManager.nextId tm
  /\ (forall i task, TaskManager.getTask taskId tm = Some i ->
        live tm !! i = Some task ->
        (forall j, j <> i ->
           live (snd (TaskManager.editTask taskId newTitle newPriority newCategory tm))
             !! j = live tm !! j)
        /\ exists task',
             live (snd (TaskManager.editTask taskId newTitle newPriority newCategory tm))
               !! i = Some task'
             /\ TaskManager.title task'
                = match newTitle with
                  | Some s => substring 0 31 s
                  | None => TaskManager.title task
                  end
             /\ TaskManager.priority task'
                = (if (1 <=? newPriority) && (newPriority <=? 5)
                   then newPriority else TaskManager.priority task)
             /\ TaskManager.category task'
                = (if newCategory <=? 3 then newCategory
                   else TaskManager.category task))
  /\ TaskManager.tasks (snd (TaskManager.editTask taskId None 0 255 tm))
     = TaskManager.tasks tm.
Proof.
  intros Hok Hp Hc.
  assert (Hp8 : TaskManager.u8 newPriority = newPriority)
    by (unfold TaskManager.u8; apply Z.mod_small; lia).
  assert (Hc8 : TaskManager.u8 newCategory = newCategory)
    by (unfold TaskManager.u8; apply Z.mod_small; lia).
  destruct (TaskManager.getTask taskId tm) as [i|] eqn:Hg.
  - destruct (getTask_slot taskId tm i Hok Hg) as (t0 & Ht0 & Hi0 & Hlt).
    destruct (editTask_found taskId newTitle newPriority newCategory tm i Hok Hg)
      as (task & task' & Hi & E & Hid & Hdone & Htitle & Hprio & Hcat).
    assert (t0 = task) as -> by congruence.
    rewrite Hp8 in Hprio. rewrite Hc8 in Hcat.
    rewrite E. cbn [fst snd].
    rewrite live_insert by lia.
    split; [split; [eauto | reflexivity]|].
    split; [apply (fmap_id_insert _ i task); assumption|].
    split.
    { rewrite list_fmap_insert. apply list_insert_id.
      rewrite list_lookup_fmap, Hi, Hdone. reflexivity. }
    split; [reflexivity|]. split; [reflexivity|]. split.
    + intros i' task0 [= <-] Hi'. assert (task0 = task) as -> by congruence.
      split; [intros j Hj; apply list_lookup_insert_ne; lia|].
      exists task'. split; [apply list_lookup_insert_eq; eapply lookup_lt_Some; eauto|].
      split; [exact Htitle|]. split; [exact Hprio | exact Hcat].
    + destruct (editTask_found taskId None 0 255 tm i Hok Hg)
        as (task1 & task1' & Hi1 & E1 & Hid1 & Hdone1 & Htitle1 & Hprio1 & Hcat1).
      assert (task1 = task) as -> by congruence.
      rewrite E1. cbn [snd TaskManager.rebuildFilteredList TaskManager.with_tasks
                       TaskManager.tasks].
      apply list_insert_id. rewrite Ht0. f_equal. symmetry.
      apply task_eq; assumption.
  - rewrite !editTask_missing by exact Hg. cbn [fst snd].
    split; [split; [discriminate | intros [x Hx]; discriminate Hx]|].
    split; [reflexivity|]. split; [reflexivity|]. split; [reflexivity|].
    split; [reflexivity|]. split; [|reflexivity].
    intros i task H. discriminate H.
Qed.

Lemma editTask_keeps_identity_witness :
  TaskManager.id <$> live (snd (TaskManager.editTask 2 (Some "Write paper"%string) 1 9
                                   three_tasks))
  = TaskManager.id <$> live three_tasks.
Proof.
  destruct (editTask_keeps_identity 2 (Some "Write paper"%string) 1 9 three_tasks
              three_tasks_ok ltac:(lia) ltac:(lia)) as (_ & H & _).
  exact H.
Defined.

(** *** Sorting *)

Lemma StronglySorted_lookup {A} (R : A -> A -> Prop) (l : list A) :
  StronglySorted R l ->
  forall i j a b, (i < j)%nat -> l !! i = Some a -> l !! j = Some b -> R a b.
Proof.
  induction 1 as [|x l Hs IH Hx]; intros i j a b Hij Hi Hj; [discriminate Hi|].
  destruct j as [|j]; [lia|]. cbn in Hj.
  destruct i as [|i]; cbn in Hi.
  - injection Hi as <-. rewrite Forall_forall in Hx. apply Hx.
    apply list_elem_of_lookup. eauto.
  - apply (IH i j a b); [lia | exact Hi | exact Hj].
Qed.

Lemma sort_inner_creation_order n : forall j bound ts,
  TaskManager.sort_inner n j bound TaskManager.SORT_BY_CREATION_ORDER ts = ts.
Proof.
  induction n as [|n IH]; intros j bound ts; [reflexivity|].
  cbn [TaskManager.sort_inner].
  destruct (Z.of_nat j <? bound); [|reflexivity].
  destruct (ts !! j); [|apply IH]. destruct (ts !! S j); apply IH.
Qed.

Lemma sort_outer_creation_order n : forall i count ts,
  TaskManager.sort_outer n i count TaskManager.SORT_BY_CREATION_ORDER ts = ts.
Proof.
  induction n as [|n IH]; intros i count ts; [reflexivity|].
  cbn [TaskManager.sort_outer].
  destruct (Z.of_nat i <? count - 1); [|reflexivity].
  rewrite sort_inner_creation_order. apply IH.
Qed.

(** X23.  [sortTasks] sorts.  The tasks in use afterwards are the tasks in
    use before, each as often as before, in the order of the criterion:
    by priority the higher first, by status the open ones first, by
    category the lower first.  Task count and [nextId] are kept and the
    unused slots are not touched.  [SORT_BY_CREATION_ORDER] changes no slot:
    it does not bring an earlier order back. *)
Theorem sortTasks_sorts sortType tm :
  tasks_ok tm ->
  live (TaskManager.sortTasks sortType tm) ≡ₚ live tm
  /\ (forall i j a b, (i < j)%nat ->
        live (TaskManager.sortTasks sortType tm) !! i = Some a ->
        live (TaskManager.sortTasks sortType tm) !! j = Some b ->
        placed_before sortType a b)
  /\ TaskManager.taskCount (TaskManager.sortTasks sortType tm)
     = TaskManager.taskCount tm
  /\ TaskManager.nextId (TaskManager.sortTasks sortType tm) = TaskManager.nextId tm
  /\ drop (Z.to_nat (TaskManager.taskCount tm))
          (TaskManager.tasks (TaskManager.sortTasks sortType tm))
     = drop (Z.to_nat (TaskManager.taskCount tm)) (TaskManager.tasks tm)
  /\ (sortType = TaskManager.SORT_BY_CREATION_ORDER ->
      TaskManager.tasks (TaskManager.sortTasks sortType tm) = TaskManager.tasks tm).
Proof.
  intros Hok. destruct (sortTasks_live sortType tm Hok) as (Hp & Hs & _ & Hd).
  split; [exact Hp|]. split; [apply StronglySorted_lookup; exact Hs|].
  split; [reflexivity|]. split; [reflexivity|]. split; [exact Hd|].
  intros ->. unfold TaskManager.sortTasks.
  cbn [TaskManager.rebuildFilteredList TaskManager.with_tasks TaskManager.tasks].
  apply sort_outer_creation_order.
Qed.

Lemma sortTasks_sorts_witness :
  live (TaskManager.sortTasks TaskManager.SORT_BY_PRIORITY three_tasks)
  ≡ₚ live three_tasks.
Proof.
  destruct (sortTasks_sorts TaskManager.SORT_BY_PRIORITY three_tasks three_tasks_ok)
    as [H _].
  exact H.
Defined.

(** *** Counting and listing *)

Lemma filter_all (l : list TaskManager.Task) :
  length (List.filter TaskManager.isComplete l) = length l
  <-> Forall (fun task => TaskManager.isComplete task = true) l.
Proof.
  induction l as [|x l IH]; cbn [List.filter length].
  - split; [constructor | reflexivity].
  - pose proof (List.filter_length_le TaskManager.isComplete l) as Hle.
    destruct (TaskManager.isComplete x) eqn:E; cbn [length].
    + split.
      * intros H. constructor; [exact E | apply IH; lia].
      * intros H. inversion H; subst. f_equal. apply IH. assumption.
    + split; [lia|]. intros H. inversion H; subst. congruence.
Qed.

Lemma filter_none (l : list TaskManager.Task) :
  length (List.filter TaskManager.isComplete l) = 0%nat
  <-> Forall (fun task => TaskManager.isComplete task = false) l.
Proof.
  induction l as [|x l IH]; cbn [List.filter length].
  - split; [constructor | reflexivity].
  - destruct (TaskManager.isComplete x) eqn:E; cbn [length].
    + split; [lia|]. intros H. inversion H; subst. congruence.
    + split.
      * intros H. constructor; [exact E | apply IH; exact H].
      * intros H. inversion H; subst. apply IH. assumption.
Qed.

Lemma percentage_arith k n :
  0 <= k <= n -> 0 < n <= 30 ->
  0 <= TaskManager.u8 (Z.quot (k * 100) n) <= 100
  /\ TaskManager.u8 (Z.quot (k * 100) n) * n <= k * 100
     < (TaskManager.u8 (Z.quot (k * 100) n) + 1) * n
  /\ (TaskManager.u8 (Z.quot (k * 100) n) = 100 <-> k = n)
  /\ (TaskManager.u8 (Z.quot (k * 100) n) = 0 <-> k = 0).
Proof.
  intros Hk Hn.
  rewrite Z.quot_div_nonneg by lia.
  pose proof (Z.mul_div_le (k * 100) n ltac:(lia)) as H1.
  pose proof (Z.mul_succ_div_gt (k * 100) n ltac:(lia)) as H2.
  generalize dependent (k * 100 / n). intros q H1 H2.
  assert (Hq : 0 <= q <= 100).
  { split.
    - assert (0 < Z.succ q) by (apply (Z.mul_pos_cancel_l n); lia). lia.
    - assert (n * q <= n * 100) by lia.
      apply (Z.mul_le_mono_pos_l q 100 n); lia. }
  unfold TaskManager.u8. rewrite Z.mod_small by lia.
  split; [exact Hq|]. split; [lia|]. split; split; intros H.
  - rewrite H in H1. lia.
  - rewrite H in H2.
    assert (100 < Z.succ q) by (apply (Z.mul_lt_mono_pos_l n); lia). lia.
  - rewrite H in H2. lia.
  - rewrite H in H1.
    assert (q <= 0) by (apply (Z.mul_le_mono_pos_l q 0 n); lia). lia.
Qed.

(** X24.  The completion percentage.  [getCompletedCount] is the number of
    completed tasks among those in use.  [getCompletionPercentage] is 0 for
    an empty manager and otherwise the completed share of the tasks in use
    in percent, rounded down: it lies between 0 and 100, is 100 exactly when
    every task in use is completed and 0 exactly when none is. *)
Theorem completion_percentage_bounds tm :
  tasks_ok tm ->
  TaskManager.getCompletedCount tm
  = Z.of_nat (length (List.filter TaskManager.isComplete (live tm)))
  /\ 0 <= TaskManager.getCompletedCount tm <= TaskManager.taskCount tm
  /\ 0 <= TaskManager.getCompletionPercentage tm <= 100
  /\ (TaskManager.taskCount tm = 0 -> TaskManager.getCompletionPercentage tm = 0)
  /\ (0 < TaskManager.taskCount tm ->
      TaskManager.getCompletionPercentage tm * TaskManager.taskCount tm
      <= TaskManager.getCompletedCount tm * 100
      < (TaskManager.getCompletionPercentage tm + 1) * TaskManager.taskCount tm
      /\ (TaskManager.getCompletionPercentage tm = 100
          <-> Forall (fun task => TaskManager.isComplete task = true) (live tm))
      /\ (TaskManager.getCompletionPercentage tm = 0
          <-> Forall (fun task => TaskManager.isComplete task = false) (live tm))).
Proof.
  intros Hok. pose proof (getCompletedCount_spec tm Hok) as Hcount.
  pose proof (live_length tm (tasks_ok_room tm Hok)) as Hlive.
  pose proof (List.filter_length_le TaskManager.isComplete (live tm)) as Hle.
  pose proof (filter_all (live tm)) as Hall.
  pose proof (filter_none (live tm)) as Hnone.
  destruct Hok as (_ & Hc & _).
  unfold TaskManager.getCompletionPercentage. rewrite Hcount.
  generalize dependent (length (List.filter TaskManager.isComplete (live tm))).
  intros k _ Hle Hall Hnone.
  split; [reflexivity|]. split; [lia|].
  destruct (Z.eqb_spec (TaskManager.taskCount tm) 0) as [Hz | Hnz].
  - split; [lia|]. split; [reflexivity|]. intros H. lia.
  - destruct (percentage_arith (Z.of_nat k) (TaskManager.taskCount tm))
      as (Hq & Hfloor & H100 & H0); [lia | lia |].
    split; [exact Hq|]. split; [intros H; lia|]. intros _.
    split; [exact Hfloor|]. split.
    + rewrite H100, <- Hall. lia.
    + rewrite H0, <- Hnone. lia.
Qed.

Lemma completion_percentage_bounds_witness :
  TaskManager.getCompletionPercentage
    (snd (TaskManager.toggleTaskComplete 1 three_tasks)) * 3 <= 1 * 100.
Proof.
  destruct (completion_percentage_bounds
              (snd (TaskManager.toggleTaskComplete 1 three_tasks))
              (task_call_ok (Call_toggleTaskComplete 1) three_tasks three_tasks_ok))
    as (_ & _ & _ & _ & H).
  destruct (H ltac:(vm_compute; reflexivity)) as [[Hfloor _] _].
  exact Hfloor.
Defined.

(** X25.  [getAllTasks] returns the tasks in use, in the order of their
    slots, and so as many as [getTaskCount] says; [getTaskByIndex] returns
    the slot asked for when it is in use and nothing otherwise. *)
Theorem getAllTasks_lists_the_tasks_in_use tm :
  tasks_ok tm ->
  TaskManager.getAllTasks tm = live tm
  /\ Z.of_nat (length (TaskManager.getAllTasks tm)) = TaskManager.taskCount tm
  /\ (forall index, 0 <= index < 256 ->
        TaskManager.getTaskByIndex index tm
        = if index <? TaskManager.taskCount tm then Some (Z.to_nat index) else None).
Proof.
  intros Hok. pose proof (tasks_ok_room tm Hok) as Hfit.
  pose proof (live_length tm Hfit) as Hlive.
  destruct Hok as (_ & Hc & _ & Hf & Hfc & _).
  assert (Hall : TaskManager.getAllTasks tm = live tm).
  { unfold TaskManager.getAllTasks.
    rewrite (all_loop_spec tm 256 0 [] Hfit) by (try assumption; lia).
    rewrite drop_0. reflexivity. }
  split; [exact Hall|]. split; [rewrite Hall; lia|].
  intros index Hi. unfold TaskManager.getTaskByIndex. rewrite Hf.
  unfold TaskManager.u8. rewrite Z.mod_small by lia. reflexivity.
Qed.

Lemma getAllTasks_lists_the_tasks_in_use_witness :
  TaskManager.getAllTasks three_tasks = live three_tasks.
Proof.
  destruct (getAllTasks_lists_the_tasks_in_use three_tasks three_tasks_ok) as [H _].
  exact H.
Defined.

End TaskManagerProperties.

(** ** The views *)

Section Views.

Import Model ModelOps.

Implicit Types (w : World) (l : View.Loop).

(** *** The accessors a view uses, as functions of the world *)

Lemma getCurrentState_run w :
  getCurrentState w
  = (if sem_grants w (sem_calls w) then m_currentState (model w) else STATE_MENU,
     asked w).
Proof. run. unfold asked. destruct (sem_grants w (sem_calls w)); reflexivity. Qed.

Lemma hasStateChanged_run w :
  hasStateChanged w
  = (if sem_grants w (sem_calls w) then m_stateChanged (model w) else false,
     asked w).
Proof. run. unfold asked. destruct (sem_grants w (sem_calls w)); reflexivity. Qed.

Lemma getMenuIndex_run w :
  getMenuIndex w
  = (if sem_grants w (sem_calls w) then m_menuIndex (model w) else 0, asked w).
Proof. run. unfold asked. destruct (sem_grants w (sem_calls w)); reflexivity. Qed.

Lemma clearStateChanged_run w :
  clearStateChanged w
  = (tt, if sem_grants w (sem_calls w)
         then put_model (with_stateChanged false (model w)) (asked w)
         else asked w).
Proof.
  run. unfold asked, put_model. destruct (sem_grants w (sem_calls w)); reflexivity.
Qed.

Lemma asked_moves_on w : moves_on w (asked w).
Proof. split; [reflexivity | cbn; lia]. Qed.

(** One turn of the loop, written out. *)
Lemma displayTask_iteration_run {Frame} (render : M Frame) granted l w :
  View.displayTask_iteration render granted l w
  = let currentState :=
        if sem_grants w (sem_calls w) then m_currentState (model w) else STATE_MENU in
    let stateChanged :=
        if sem_grants w (S (sem_calls w)) then m_stateChanged (model w) else false in
    if stateChanged || View.forceUpdate l
       || negb (SystemState_eqb currentState (View.lastState l))
    then
      if granted then
        (({| View.lastState := currentState; View.forceUpdate := false |},
          Some (fst (render (asked (asked w))))),
         if stateChanged
         then snd (clearStateChanged (snd (render (asked (asked w)))))
         else snd (render (asked (asked w))))
      else ((l, None), asked (asked w))
    else ((l, None), asked (asked w)).
Proof.
  unfold View.displayTask_iteration, bind, ret.
  rewrite getCurrentState_run. cbn [fst snd].
  rewrite hasStateChanged_run. cbn [fst snd].
  change (sem_calls (asked w)) with (S (sem_calls w)).
  change (model (asked w)) with (model w).
  change (sem_grants (asked w)) with (sem_grants w).
  cbv zeta.
  destruct (_ || _ || _); [|reflexivity].
  destruct granted; [|reflexivity].
  destruct (if sem_grants w (S (sem_calls w)) then m_stateChanged (model w) else false);
    reflexivity.
Qed.

(** What the branch that draws leaves behind. *)
Lemma after_render {Frame} (render : M Frame) (stateChanged : bool) w :
  reads_only render ->
  forall w',
  w' = (if stateChanged then snd (clearStateChanged (snd (render w)))
        else snd (render w)) ->
  moves_on w w'
  /\ m_menuIndex (model w') = m_menuIndex (model w)
  /\ m_currentState (model w') = m_currentState (model w)
  /\ m_currentTime (model w') = m_currentTime (model w)
  /\ (m_stateChanged (model w') = true -> m_stateChanged (model w) = true)
  /\ (stateChanged = false -> model w' = model w)
  /\ (stateChanged = true ->
      sem_grants w' = sem_grants w
      /\ (sem_grants w (sem_calls (snd (render w))) = true ->
          m_stateChanged (model w') = false)).
Proof.
  intros Hr w' ->. destruct (Hr w) as [Hm Hmv]. unfold exec in Hm, Hmv.
  destruct stateChanged.
  - rewrite clearStateChanged_run. cbn [snd].
    destruct Hmv as [Hg Hc]. rewrite Hg.
    destruct (sem_grants w (sem_calls (snd (render w)))) eqn:G; cbn; rewrite ?Hm.
    + split; [split; [exact Hg | cbn; lia]|].
      split; [reflexivity|]. split; [reflexivity|]. split; [reflexivity|].
      split; [intros H; discriminate H|]. split; [intros H; discriminate H|].
      intros _. split; [exact Hg | reflexivity].
    + split; [split; [exact Hg | cbn; lia]|].
      split; [reflexivity|]. split; [reflexivity|]. split; [reflexivity|].
      split; [auto|]. split; [intros H; discriminate H|].
      intros _. split; [exact Hg | intros H; discriminate H].
  - rewrite Hm. split; [exact Hmv|].
    split; [reflexivity|]. split; [reflexivity|]. split; [reflexivity|].
    split; [auto|]. split; [reflexivity|]. intros H. discriminate H.
Qed.

(** What one turn of the loop does, for any view. *)
Lemma displayTask_iteration_spec {Frame} (render : M Frame) granted l w l' frame w' :
  reads_only render ->
  View.displayTask_iteration render granted l w = ((l', frame), w') ->
  moves_on w w'
  /\ m_menuIndex (model w') = m_menuIndex (model w)
  /\ m_currentState (model w') = m_currentState (model w)
  /\ m_currentTime (model w') = m_currentTime (model w)
  /\ (m_stateChanged (model w') = true -> m_stateChanged (model w) = true)
  /\ (frame = None -> l' = l /\ model w' = model w)
  /\ (granted = false -> frame = None)
  /\ (is_Some frame -> View.forceUpdate l' = false)
  /\ (granted_next w -> granted_next (asked w) ->
      (is_Some frame
       <-> granted = true
           /\ (m_stateChanged (model w) = true \/ View.forceUpdate l = true
               \/ View.lastState l <> m_currentState (model w)))
      /\ (is_Some frame -> View.lastState l' = m_currentState (model w)))
  /\ (always_granted w -> is_Some frame -> m_stateChanged (model w') = false).
Proof.
  intros Hr Hturn. rewrite displayTask_iteration_run in Hturn. cbv zeta in Hturn.
  pose proof (moves_on_trans _ _ _ (asked_moves_on w) (asked_moves_on (asked w)))
    as Hasked.
  assert (Hidle : l' = l -> frame = None -> w' = asked (asked w) ->
          moves_on w w'
          /\ m_menuIndex (model w') = m_menuIndex (model w)
          /\ m_currentState (model w') = m_currentState (model w)
          /\ m_currentTime (model w') = m_currentTime (model w)
          /\ (m_stateChanged (model w') = true -> m_stateChanged (model w) = true)
          /\ (frame = None -> l' = l /\ model w' = model w)
          /\ (granted = false -> frame = None)
          /\ (is_Some frame -> View.forceUpdate l' = false)).
  { intros -> -> ->. split; [exact Hasked|]. repeat split; auto.
    intros [x Hx]. discriminate Hx. }
  destruct (_ || _ || _) eqn:Hdue in Hturn.
  - destruct granted.
    + injection Hturn as <- <- Hw'. symmetry in Hw'.
      destruct (after_render render _ (asked (asked w)) Hr w' Hw')
        as (Hmv & Hi & Hs & Ht & Hflag & Hsame & Hclear).
      change (model (asked (asked w))) with (model w) in *.
      split; [exact (moves_on_trans _ _ _ Hasked Hmv)|].
      split; [exact Hi|]. split; [exact Hs|]. split; [exact Ht|].
      split; [exact Hflag|]. split; [discriminate|]. split; [discriminate|].
      split; [reflexivity|]. split.
      * intros G1 G2. unfold granted_next in G1, G2.
        change (sem_grants (asked w) (sem_calls (asked w)))
          with (sem_grants w (S (sem_calls w))) in G2.
        rewrite G1, G2 in Hdue. cbn [View.lastState]. rewrite G1.
        split; [|reflexivity].
        split; [|eauto]. intros _. split; [reflexivity|].
        apply orb_true_iff in Hdue as [Hdue | Hdue];
          [apply orb_true_iff in Hdue as [Hdue | Hdue]; auto|].
        right; right. apply negb_true_iff in Hdue. intros Heq.
        rewrite <- Heq, SystemState_eqb_refl in Hdue. discriminate Hdue.
      * intros Hall _.
        pose proof (Hall (sem_calls w) ltac:(lia)) as G1.
        pose proof (Hall (S (sem_calls w)) ltac:(lia)) as G2.
        rewrite G2 in Hw', Hclear, Hsame.
        destruct (m_stateChanged (model w)) eqn:F.
        -- destruct (Hclear eq_refl) as [_ Hdown]. apply Hdown.
           change (sem_grants (asked (asked w))) with (sem_grants w).
           apply Hall. destruct (Hr (asked (asked w))) as [_ [_ Hc]].
           unfold exec in Hc. cbn in Hc. lia.
        -- rewrite (Hsame eq_refl). exact F.
    + injection Hturn as <- <- <-.
      destruct (Hidle eq_refl eq_refl eq_refl) as (H1 & H2 & H3 & H4 & H5 & H6 & H7 & H8).
      repeat (split; [assumption|]). split.
      * intros _ _. split; [|intros [x Hx]; discriminate Hx].
        split; [intros [x Hx]; discriminate Hx | intros [H _]; discriminate H].
      * intros _ [x Hx]. discriminate Hx.
  - injection Hturn as <- <- <-.
    destruct (Hidle eq_refl eq_refl eq_refl) as (H1 & H2 & H3 & H4 & H5 & H6 & H7 & H8).
    repeat (split; [assumption|]). split.
    + intros G1 G2. unfold granted_next in G1, G2.
      change (sem_grants (asked w) (sem_calls (asked w)))
        with (sem_grants w (S (sem_calls w))) in G2.
      rewrite G1, G2 in Hdue.
      apply orb_false_iff in Hdue as [Hdue Hstate].
      apply orb_false_iff in Hdue as [Hflag Hforce].
      apply negb_false_iff, SystemState_eqb_eq in Hstate.
      split; [|intros [x Hx]; discriminate Hx].
      split; [intros [x Hx]; discriminate Hx|].
      intros [_ [H | [H | H]]]; congruence.
    + intros _ [x Hx]. discriminate Hx.
Qed.

(** X26.  One turn of a view's loop.  Whatever the scheduler answers, a turn
    of [View::displayTask] leaves menu index, state and time of the model
    alone and never raises the changed flag; a turn that draws nothing
    leaves the model and the loop variables as they are, and a turn that is
    refused the display mutex draws nothing.  When both reads of the model
    are granted the mutex, the turn draws exactly if it has the display
    mutex and the flag is set, or this is the first turn, or the state is
    not the one drawn last; it then remembers the state it read, and with
    every request granted the flag is down afterwards. *)
Theorem view_turn_draws_when_due {Frame} (render : M Frame) granted l w l' frame w' :
  reads_only render ->
  View.displayTask_iteration render granted l w = ((l', frame), w') ->
  moves_on w w'
  /\ m_menuIndex (model w') = m_menuIndex (model w)
  /\ m_currentState (model w') = m_currentState (model w)
  /\ m_currentTime (model w') = m_currentTime (model w)
  /\ (m_stateChanged (model w') = true -> m_stateChanged (model w) = true)
  /\ (frame = None -> l' = l /\ model w' = model w)
  /\ (granted = false -> frame = None)
  /\ (is_Some frame -> View.forceUpdate l' = false)
  /\ (granted_next w -> granted_next (asked w) ->
      (is_Some frame
       <-> granted = true
           /\ (m_stateChanged (model w) = true \/ View.forceUpdate l = true
               \/ View.lastState l <> m_currentState (model w)))
      /\ (is_Some frame -> View.lastState l' = m_currentState (model w)))
  /\ (always_granted w -> is_Some frame -> m_stateChanged (model w') = false).
Proof. apply displayTask_iteration_spec. Qed.

Lemma oled_reads_only m_oled : reads_only (OLEDView.renderDisplay m_oled).
Proof.
  intros w. unfold exec, OLEDView.renderDisplay, OLEDView.drawMenu, bind, ret.
  destruct m_oled; cbn [negb]; [|split; [reflexivity | apply moves_on_refl]].
  rewrite getCurrentState_run. cbn [fst snd].
  destruct (if sem_grants w (sem_calls w) then m_currentState (model w) else STATE_MENU);
    try (split; [reflexivity | apply asked_moves_on]).
  rewrite getMenuIndex_run. cbn [fst snd].
  split; [reflexivity|].
  apply (moves_on_trans _ _ _ (asked_moves_on w) (asked_moves_on (asked w))).
Qed.

Lemma view_turn_draws_when_due_witness :
  is_Some (snd (fst (View.displayTask_iteration (OLEDView.renderDisplay true) true
                       View.task_started (world_of Model.init uncontended)))).
Proof.
  destruct (View.displayTask_iteration (OLEDView.renderDisplay true) true
              View.task_started (world_of Model.init uncontended))
    as [[l' frame] w'] eqn:E.
  destruct (view_turn_draws_when_due _ _ _ _ _ _ _ (oled_reads_only true) E)
    as (_ & _ & _ & _ & _ & _ & _ & _ & H & _).
  destruct (H eq_refl eq_refl) as [Hiff _].
  cbn [fst snd]. apply Hiff. split; [reflexivity|]. right. left. reflexivity.
Defined.

(** X27.  The changed flag serves one view.  Let the flag be set and every
    request for the state mutex be granted.  The view that polls first and
    has the display mutex draws and lowers the flag.  A view that polls
    after it, has drawn before ([forceUpdate] down) and last drew the state
    the model is in, draws nothing and keeps its loop variables: a change
    of the menu index alone reaches only the first view.  A view that last
    drew another state still draws: a change of state reaches every view. *)
Theorem changed_flag_serves_one_view {FrameA FrameB}
        (renderA : M FrameA) (renderB : M FrameB) lA lB w lA' frameA w1 :
  reads_only renderA -> reads_only renderB ->
  always_granted w -> m_stateChanged (model w) = true ->
  View.displayTask_iteration renderA true lA w = ((lA', frameA), w1) ->
  is_Some frameA
  /\ m_stateChanged (model w1) = false
  /\ m_menuIndex (model w1) = m_menuIndex (model w)
  /\ (View.forceUpdate lB = false ->
      View.lastState lB = m_currentState (model w) ->
      forall grantedB,
        View.displayTask_iteration renderB grantedB lB w1
        = ((lB, None), asked (asked w1)))
  /\ (View.lastState lB <> m_currentState (model w) ->
      is_Some (snd (fst (View.displayTask_iteration renderB true lB w1)))).
Proof.
  intros HrA HrB Hall Hflag Hturn.
  destruct (displayTask_iteration_spec renderA true lA w lA' frameA w1 HrA Hturn)
    as (Hmv & Hi & Hs & _ & _ & _ & _ & _ & Hreads & Hdown).
  pose proof (Hall (sem_calls w) ltac:(lia)) as G1.
  pose proof (Hall (S (sem_calls w)) ltac:(lia)) as G2.
  destruct (Hreads G1 G2) as [Hiff _].
  assert (HfA : is_Some frameA) by (apply Hiff; auto).
  specialize (Hdown Hall HfA).
  pose proof (always_granted_moves_on w w1 Hmv Hall) as Hall1.
  pose proof (Hall1 (sem_calls w1) ltac:(lia)) as G1'.
  pose proof (Hall1 (S (sem_calls w1)) ltac:(lia)) as G2'.
  split; [exact HfA|]. split; [exact Hdown|]. split; [exact Hi|]. split.
  - intros Hforce Hlast grantedB.
    rewrite displayTask_iteration_run. cbv zeta.
    rewrite G1', G2', Hdown, Hforce, Hs, Hlast, SystemState_eqb_refl. reflexivity.
  - intros Hlast.
    destruct (View.displayTask_iteration renderB true lB w1)
      as [[lB' frameB] w2] eqn:E.
    destruct (displayTask_iteration_spec renderB true lB w1 lB' frameB w2 HrB E)
      as (_ & _ & _ & _ & _ & _ & _ & _ & HreadsB & _).
    destruct (HreadsB G1' G2') as [HiffB _].
    cbn [fst snd]. apply HiffB. split; [reflexivity|]. right; right. congruence.
Qed.

Lemma changed_flag_serves_one_view_witness :
  snd (fst (View.displayTask_iteration (OLEDView.renderDisplay true) true
              (View.mkLoop STATE_MENU false)
              (snd (View.displayTask_iteration (OLEDView.renderDisplay true) true
                      View.task_started
                      (world_of (model_at 1 STATE_MENU true) uncontended)))))
  = None.
Proof.
  destruct (View.displayTask_iteration (OLEDView.renderDisplay true) true
              View.task_started
              (world_of (model_at 1 STATE_MENU true) uncontended))
    as [[lA' frameA] w1] eqn:E.
  destruct (changed_flag_serves_one_view
              (OLEDView.renderDisplay true) (OLEDView.renderDisplay true)
              View.task_started (View.mkLoop STATE_MENU false)
              (world_of (model_at 1 STATE_MENU true) uncontended) lA' frameA w1
              (oled_reads_only true) (oled_reads_only true)
              (uncontended_always_granted _) eq_refl E)
    as (_ & _ & _ & H & _).
  cbn [snd]. rewrite (H eq_refl eq_refl true). reflexivity.
Defined.

(** *** What the OLED shows *)




(** *** What the LCD receives *)

Lemma substring_nil n : substring 0 n EmptyString = EmptyString.
Proof. destruct n; reflexivity. Qed.

Lemma substring_spaces n m : (n <= m)%nat -> substring 0 n (spaces m) = spaces n.
Proof.
  revert m. induction n as [|n IH]; intros m H.
  - destruct m; reflexivity.
  - destruct m as [|m]; [lia|]. cbn. rewrite IH by lia. reflexivity.
Qed.

Lemma substring_app_spaces text : forall n m,
  (n - String.length text <= m)%nat ->
  substring 0 n (text ++ spaces m)%string
  = (substring 0 n text ++ spaces (n - String.length text))%string.
Proof.
  induction text as [|c text IH]; intros n m H.
  - cbn [String.append String.length]. rewrite substring_nil, Nat.sub_0_r.
    cbn [String.append]. apply substring_spaces. cbn in H. lia.
  - destruct n as [|n]; [reflexivity|].
    cbn [String.append String.length substring Nat.sub].
    rewrite IH by (cbn in H; lia). reflexivity.
Qed.

Lemma length_spaces n : String.length (spaces n) = n.
Proof. induction n as [|n IH]; cbn; [reflexivity | rewrite IH; reflexivity]. Qed.

Lemma length_padded text : forall n,
  String.length (substring 0 n text ++ spaces (n - String.length text))%string = n.
Proof.
  induction text as [|c text IH]; intros n.
  - rewrite substring_nil. cbn [String.append String.length].
    rewrite Nat.sub_0_r. apply length_spaces.
  - destruct n as [|n]; [reflexivity|].
    cbn [String.append String.length substring Nat.sub]. rewrite IH. reflexivity.
Qed.

(** X29.  [printPadded] fills the line.  Whatever the text, the LCD
    receives exactly 16 characters at the cursor position asked for: the
    first 16 characters of the text, followed by as many spaces as are
    needed; nothing of an earlier, longer line is left standing.  So each
    line that [LCDView::clearAndPrint] prints has 16 characters. *)
Theorem printPadded_fills_the_line text col row :
  exists line,
    SimpleLCD.printPadded text col row
    = [SimpleLCD.Lcd_setCursor col row; SimpleLCD.Lcd_print line]
    /\ String.length line = 16%nat
    /\ line = (substring 0 16 text ++ spaces (16 - String.length text))%string
    /\ ((String.length text <= 16)%nat ->
        line = (text ++ spaces (16 - String.length text))%string)
    /\ ((16 <= String.length text)%nat -> line = substring 0 16 text)
    /\ forall line1 line2 op,
         op ∈ SimpleLCD.clearAndPrint line1 line2 ->
         match op with
         | SimpleLCD.Lcd_print s => String.length s = 16%nat
         | _ => True
         end.
Proof.
  assert (Hpad : forall t,
            substring 0 16 (t ++ "                ")%string
            = (substring 0 16 t ++ spaces (16 - String.length t))%string).
  { intros t. change "                "%string with (spaces 16).
    apply substring_app_spaces. lia. }
  eexists. split; [reflexivity|]. cbv zeta. rewrite Hpad.
  split; [apply length_padded|]. split; [reflexivity|]. split; [|split].
  - intros Hshort. rewrite substring_short by exact Hshort. reflexivity.
  - intros Hlong. replace (16 - String.length text)%nat with 0%nat by lia.
    cbn [spaces]. clear. generalize (substring 0 16 text). intros s.
    induction s as [|c s IH]; cbn; [reflexivity | rewrite IH; reflexivity].
  - intros line1 line2 op Hin. unfold SimpleLCD.clearAndPrint, SimpleLCD.printPadded in Hin.
    rewrite !Hpad in Hin.
    apply elem_of_app in Hin as [Hin | Hin];
      [apply list_elem_of_singleton in Hin; subst op; exact I|].
    apply elem_of_app in Hin as [Hin | Hin].
    + apply elem_of_cons in Hin as [-> | Hin]; [exact I|].
      apply list_elem_of_singleton in Hin. subst op. apply length_padded.
    + destruct line2 as [line|]; [|inversion Hin].
      rewrite Hpad in Hin.
      apply elem_of_cons in Hin as [-> | Hin]; [exact I|].
      apply list_elem_of_singleton in Hin. subst op. apply length_padded.
Qed.

End Views.

Section TaskNames.

Local Close Scope string_scope.


End TaskNames.
